(** * Chatbot flow builder: the flow manager hook and the storage manager

    A shallow embedding of the pieces of the flow builder that carry its
    rules:

    - [FlowManager]: the operations of the [useFlowManager] hook
      ([onConnect], [deleteNode], [validateFlow]) over the node and edge
      arrays of the editor;
    - [FlowStorage]: the [FlowStorageManager] class ([saveCurrentFlow],
      [getCurrentFlow], [createBackup], [loadBackup], [validateFlowData])
      over the browser's [localStorage] and the in-memory fallback;
    - [FlowEditing]: [addNode] of the hook, and the data model the
      operations of the hook work on;
    - [StorageStatistics]: [getStorageStats];
    - [FlowUtils]: [formatFlowData], [parseFlowData], [deepClone] and
      [generateId] of the flow utilities;
    - [App]: [initializeFlow], [handleSave], [createNewNode] and [addNode]
      of the flow builder component.  *)

From Stdlib Require Import ZArith QArith Qcanon.
From stdpp Require Import gmap strings list fin_maps pretty.

Close Scope Qc_scope.
Close Scope Q_scope.
Open Scope string_scope.

(** ** Part I: the flow manager hook *)

Module FlowManager.

(** A handle id as the program finds it on an edge or a connection:
    [undefined] where the property is absent, [null], or a string. *)
Inductive Handle :=
| HUndefined
| HNull
| HId (s : string).

#[global] Instance Handle_eq_dec : EqDecision Handle.
Proof. solve_decision. Defined.

(** A position on the canvas. *)
Record XY := { x : Qc; y : Qc }.

Record NodeData := { text : string; lastModified : string }.

Module Node.
Record t := { id : string; type : string; position : XY; data : NodeData }.
End Node.

Module Edge.
Record t := {
  id : string;
  source : string;
  target : string;
  sourceHandle : Handle;
  targetHandle : Handle }.
End Edge.

(** The argument of [onConnect]. *)
Record Connection := {
  source : string;
  target : string;
  sourceHandle : Handle;
  targetHandle : Handle }.

(** [===] on two handles: [undefined] and [null] are different values. *)
Definition handle_eqb (a b : Handle) : bool :=
  match a, b with
  | HUndefined, HUndefined => true
  | HNull, HNull => true
  | HId s, HId t => String.eqb s t
  | _, _ => false
  end.

(** The edge built from a connection, under the id the library picks. *)
Definition edge_of (newId : string) (c : Connection) : Edge.t :=
  {| Edge.id := newId;
     Edge.source := source c;
     Edge.target := target c;
     Edge.sourceHandle := sourceHandle c;
     Edge.targetHandle := targetHandle c |}.

(** Modelled from the spec: [addEdge] is imported from the graph-rendering
    library and is not part of the repository.  Section 4.2 (connect): "if
    not found, the edge is simply appended.  The new edge is assigned a
    fresh unique id."  The id the library assigns is the argument
    [newId]. *)
Definition addEdge (newId : string) (c : Connection) (eds : list Edge.t)
  : list Edge.t :=
  eds ++ [edge_of newId c].

(** The predicate of [edges.find] in [onConnect]. *)
Definition from_port (c : Connection) (edge : Edge.t) : bool :=
  String.eqb (Edge.source edge) (source c)
  && handle_eqb (Edge.sourceHandle edge) (sourceHandle c).

(** [onConnect]: [edges] is the array the callback closed over; the result
    is the updater handed to [setEdges]. *)
Definition onConnect (newId : string) (edges : list Edge.t) (connection : Connection)
  : list Edge.t -> list Edge.t :=
  let existingEdgeFromSource := List.find (from_port connection) edges in
  match existingEdgeFromSource with
  | Some existing =>
      fun eds =>
        let filteredEdges :=
          List.filter (fun edge => negb (String.eqb (Edge.id edge) (Edge.id existing))) eds in
        addEdge newId connection filteredEdges
  | None => fun eds => addEdge newId connection eds
  end.

(** [updateNodeData]: the updater handed to [setNodes]. *)
Definition updateNodeData (nodeId : string) (newData : NodeData)
  : list Node.t -> list Node.t :=
  map (fun node =>
         if String.eqb (Node.id node) nodeId
         then {| Node.id := Node.id node; Node.type := Node.type node;
                 Node.position := Node.position node; Node.data := newData |}
         else node).

(** [deleteNode]: one updater for the nodes, one for the edges. *)
Definition deleteNode_nodes (nodeId : string) (nds : list Node.t) : list Node.t :=
  List.filter (fun node => negb (String.eqb (Node.id node) nodeId)) nds.

Definition deleteNode_edges (nodeId : string) (eds : list Edge.t) : list Edge.t :=
  List.filter (fun edge =>
                 negb (String.eqb (Edge.source edge) nodeId)
                 && negb (String.eqb (Edge.target edge) nodeId)) eds.

Definition deleteNode (nodeId : string) (st : list Node.t * list Edge.t)
  : list Node.t * list Edge.t :=
  (deleteNode_nodes nodeId (fst st), deleteNode_edges nodeId (snd st)).

(** The result object of [validateFlow]. *)
Record Validation := { isValid : bool; error : option string }.

Definition disconnected_message : string :=
  "Your flow has disconnected nodes that need to be connected. Please make sure all nodes (except the starting node) have incoming connections before saving.".

Definition hasIncomingEdge (edges : list Edge.t) (node : Node.t) : bool :=
  existsb (fun edge => String.eqb (Edge.target edge) (Node.id node)) edges.

Definition nodesWithoutTargets (nodes : list Node.t) (edges : list Edge.t)
  : list Node.t :=
  List.filter (fun node => negb (hasIncomingEdge edges node)) nodes.

Definition validateFlow (nodes : list Node.t) (edges : list Edge.t) : Validation :=
  if (length nodes <=? 1)%nat then {| isValid := true; error := None |}
  else if (1 <? length (nodesWithoutTargets nodes edges))%nat
       then {| isValid := false; error := Some disconnected_message |}
       else {| isValid := true; error := None |}.

(** *** Vocabulary of the specification *)

(** The node is the target of no edge of the edge set. *)
Definition no_incoming_edge (edges : list Edge.t) (node : Node.t) : Prop :=
  Forall (fun edge => Edge.target edge <> Node.id node) edges.

#[global] Instance no_incoming_edge_dec edges node : Decision (no_incoming_edge edges node).
Proof. unfold no_incoming_edge. apply _. Defined.

(** The nodes with in-degree zero, in the order of the node sequence. *)
Definition entry_nodes (nodes : list Node.t) (edges : list Edge.t) : list Node.t :=
  filter (no_incoming_edge edges) nodes.

(** The handle a handle id names: the optional string of the data model.
    [undefined] and [null] both name the handle that has no id. *)
Definition handle_of (h : Handle) : option string :=
  match h with
  | HId s => Some s
  | HUndefined | HNull => None
  end.

(** The output port an edge leaves from. *)
Definition port (edge : Edge.t) : string * option string :=
  (Edge.source edge, handle_of (Edge.sourceHandle edge)).

Definition port_of (c : Connection) : string * option string :=
  (source c, handle_of (sourceHandle c)).

(** The data model of the edges: ids are unique, and an output port has at
    most one edge. *)
Definition unique_ids (edges : list Edge.t) : Prop := NoDup (Edge.id <$> edges).

Definition single_outgoing (edges : list Edge.t) : Prop := NoDup (port <$> edges).

(** What connecting is to achieve on the edge array [edges]: afterwards the
    new edge is the one edge leaving the port of the connection, the edges
    of the other ports are the ones there were, and with no edge on the
    port beforehand the new edge is appended. *)
Definition replaces_port (newId : string) (edges : list Edge.t) (c : Connection)
  : Prop :=
  let result := onConnect newId edges c edges in
  filter (fun edge => port edge = port_of c) result = [edge_of newId c] /\
  filter (fun edge => port edge <> port_of c) result
    = filter (fun edge => port edge <> port_of c) edges /\
  ((forall edge, edge ∈ edges -> port edge <> port_of c) ->
   result = (edges ++ [edge_of newId c])%list).

(** The edges on the port of the connection carry the value the connection
    carries as [sourceHandle]: none of them says [undefined] where the
    connection says [null], or the other way round. *)
Definition names_handle_alike (edges : list Edge.t) (c : Connection) : Prop :=
  Forall (fun edge => port edge = port_of c ->
                      Edge.sourceHandle edge = sourceHandle c) edges.

(** The edge references the node. *)
Definition references (nodeId : string) (edge : Edge.t) : Prop :=
  Edge.source edge = nodeId \/ Edge.target edge = nodeId.

(** *** Sample data *)

Definition origin : XY := {| x := Qc_of_Z 0; y := Qc_of_Z 0 |}.

Definition message_node (i : string) : Node.t :=
  {| Node.id := i; Node.type := "textMessage"; Node.position := origin;
     Node.data := {| text := "hello"; lastModified := "2024-01-01T00:00:00.000Z" |} |}.

(** An edge as the library builds it from a connection between nodes whose
    handles have no id: the two handle ids are [null]. *)
Definition link (i a b : string) : Edge.t :=
  {| Edge.id := i; Edge.source := a; Edge.target := b;
     Edge.sourceHandle := HNull; Edge.targetHandle := HNull |}.

(** The same edge without the two handle properties, as it may be loaded or
    imported. *)
Definition bare_link (i a b : string) : Edge.t :=
  {| Edge.id := i; Edge.source := a; Edge.target := b;
     Edge.sourceHandle := HUndefined; Edge.targetHandle := HUndefined |}.

Definition connection (a b : string) : Connection :=
  {| source := a; target := b; sourceHandle := HNull; targetHandle := HNull |}.

End FlowManager.

(** ** Part II: the storage manager *)

Module FlowStorage.

(** *** JavaScript values

    The values a flow is made of, and the ones [JSON.parse] produces.  A
    finite number is the rational it denotes (the sign of zero is not
    represented); [NaN] and the two infinities are kept apart because
    [typeof] counts them as numbers while [JSON.stringify] turns them into
    [null].  An object is a finite map from property names to values. *)

Inductive number :=
| Finite (q : Qc)
| NaN
| Infinity (negative : bool).

Definition number_of_nat (n : nat) : number := Finite (Qc_of_Z (Z.of_nat n)).

#[local] Set Warnings "-register-all".

Inductive jsval :=
| JUndefined
| JNull
| JBool (b : bool)
| JNum (n : number)
| JStr (s : string)
| JArr (l : list jsval)
| JObj (m : gmap string jsval).

#[local] Set Warnings "register-all".

(** A thrown exception: its [name] and its [message]. *)
Record JsError := { name : string; message : string }.

(** Computations that may throw. *)
Definition Exc (A : Type) : Type := JsError + A.

Definition bindE {A B} (m : Exc A) (f : A -> Exc B) : Exc B :=
  match m with inl e => inl e | inr a => f a end.

Notation "'let?' x ':=' m 'in' k" := (bindE m (fun x => k))
  (at level 10, x name, m at level 100, k at level 200, only parsing).

(** [!!v] *)
Definition truthy (v : jsval) : bool :=
  match v with
  | JUndefined | JNull => false
  | JBool b => b
  | JNum (Finite q) => negb (bool_decide (q = Qc_of_Z 0))
  | JNum NaN => false
  | JNum (Infinity _) => true
  | JStr s => negb (String.eqb s EmptyString)
  | JArr _ | JObj _ => true
  end.

Definition typeof (v : jsval) : string :=
  match v with
  | JUndefined => "undefined"
  | JNull => "object"
  | JBool _ => "boolean"
  | JNum _ => "number"
  | JStr _ => "string"
  | JArr _ | JObj _ => "object"
  end.

Definition isArray (v : jsval) : bool :=
  match v with JArr _ => true | _ => false end.

(** [a || b] on values. *)
Definition or_value (a b : jsval) : jsval := if truthy a then a else b.

(** [v.k] where [v] is neither [undefined] nor [null].  The names the
    program reads are identifiers ([nodes], [id], [length], ...), never
    array indices. *)
Definition get_own (v : jsval) (k : string) : jsval :=
  match v with
  | JObj m => default JUndefined (m !! k)
  | JArr l =>
      if String.eqb k "length" then JNum (number_of_nat (length l)) else JUndefined
  | JStr s =>
      if String.eqb k "length" then JNum (number_of_nat (String.length s))
      else JUndefined
  | _ => JUndefined
  end.

Definition TypeError (msg : string) : JsError :=
  {| name := "TypeError"; message := msg |}.

(** [v.k]: reading a property of [undefined] or [null] throws; the message
    is the one V8 gives. *)
Definition get (v : jsval) (k : string) : Exc jsval :=
  match v with
  | JUndefined =>
      inl (TypeError ("Cannot read properties of undefined (reading '" ++ k ++ "')"))
  | JNull =>
      inl (TypeError ("Cannot read properties of null (reading '" ++ k ++ "')"))
  | _ => inr (get_own v k)
  end.

(** [v?.k] *)
Definition get_optional (v : jsval) (k : string) : jsval :=
  match v with
  | JUndefined | JNull => JUndefined
  | _ => get_own v k
  end.

(** The own enumerable properties an object spread [{...v}] copies.  A
    string is spread into its characters, one per byte: the indices are
    those of the program for strings of ASCII characters. *)
Definition own_props (v : jsval) : gmap string jsval :=
  match v with
  | JObj m => m
  | JArr l => list_to_map (imap (fun i e => (pretty i, e)) l)
  | JStr s =>
      list_to_map
        (imap (fun i c => (pretty i, JStr (String c EmptyString)))
              (String.list_ascii_of_string s))
  | _ => ∅
  end.

(** *** JSON

    What [JSON.parse (JSON.stringify v)] returns: a property whose value is
    [undefined] is dropped, an [undefined] array element and a number that
    is not finite become [null]. *)
Fixpoint toJSON (v : jsval) : jsval :=
  match v with
  | JUndefined => JNull
  | JNum (Finite q) => JNum (Finite q)
  | JNum _ => JNull
  | JArr l => JArr (map toJSON l)
  | JObj m =>
      JObj (omap (fun e => match e with
                           | JUndefined => None
                           | _ => Some (toJSON e)
                           end) m)
  | _ => v
  end.

(** The number of arrays and objects in a value, for induction on values. *)
Fixpoint weight (v : jsval) : nat :=
  match v with
  | JArr l => S (foldr (fun e acc => weight e + acc) 0 l)
  | JObj m => S (map_fold (fun _ e acc => weight e + acc) 0 m)
  | _ => 0
  end.

(** The text a storage slot holds.  The program looks at stored text in two
    ways only: it tests it for emptiness and it hands it to [JSON.parse].
    Text is therefore represented by what those two observations return:
    a JSON document is represented by the value it denotes, any other text
    by its characters. *)
Inductive text :=
| JsonText (v : jsval)
| OtherText (s : string).

Definition SyntaxError (msg : string) : JsError :=
  {| name := "SyntaxError"; message := msg |}.

Definition JSON_parse (t : text) : Exc jsval :=
  match t with
  | JsonText v => inr v
  | OtherText s => inl (SyntaxError "Unexpected token in JSON")
  end.

(** [JSON.stringify] of an object literal, the only use the program makes
    of it. *)
Definition JSON_stringify (o : gmap string jsval) : text :=
  JsonText (toJSON (JObj o)).

(** [!storedData] for what [getItem] returned ([None] is [null]). *)
Definition falsy_text (t : option text) : bool :=
  match t with
  | None => true
  | Some (OtherText s) => String.eqb s EmptyString
  | Some (JsonText _) => false
  end.

(** *** The browser

    [available] is the outcome of the probe of [isLocalStorageAvailable];
    [refuses] gives the exception [localStorage.setItem] raises for a write,
    if it raises one; [dates] are the strings successive calls of
    [new Date().toISOString()] return, [elapsed] counts the calls made. *)
Record World := {
  available : bool;
  refuses : string -> text -> option JsError;
  localStorage : gmap string text;
  memoryStorage : gmap string text;
  dates : nat -> string;
  elapsed : nat }.

Definition set_localStorage (f : gmap string text -> gmap string text) (w : World) : World :=
  {| available := available w; refuses := refuses w;
     localStorage := f (localStorage w); memoryStorage := memoryStorage w;
     dates := dates w; elapsed := elapsed w |}.

Definition set_memoryStorage (f : gmap string text -> gmap string text) (w : World) : World :=
  {| available := available w; refuses := refuses w;
     localStorage := localStorage w; memoryStorage := f (memoryStorage w);
     dates := dates w; elapsed := elapsed w |}.

Definition tick (w : World) : World :=
  {| available := available w; refuses := refuses w;
     localStorage := localStorage w; memoryStorage := memoryStorage w;
     dates := dates w; elapsed := S (elapsed w) |}.

(** Computations that read and write the browser state and may throw; the
    state reached when an exception is thrown is kept. *)
Definition Js (A : Type) : Type := World -> Exc A * World.

Definition ret {A} (a : A) : Js A := fun w => (inr a, w).

Definition bind {A B} (m : Js A) (f : A -> Js B) : Js B :=
  fun w =>
    match m w with
    | (inl e, w') => (inl e, w')
    | (inr a, w') => f a w'
    end.

Notation "'let*' x ':=' m 'in' k" := (bind m (fun x => k))
  (at level 10, x name, m at level 100, k at level 200, only parsing).

Definition throw {A} (e : JsError) : Js A := fun w => (inl e, w).

Definition lift {A} (c : Exc A) : Js A := fun w => (c, w).

Definition try_catch {A} (body : Js A) (handler : JsError -> Js A) : Js A :=
  fun w =>
    match body w with
    | (inl e, w') => handler e w'
    | (inr a, w') => (inr a, w')
    end.

(** [new Date().toISOString()] *)
Definition now : Js string := fun w => (inr (dates w (elapsed w)), tick w).

Module STORAGE_KEYS.
Definition CURRENT_FLOW : string := "chatbot_flow_current".
Definition SAVED_FLOWS : string := "chatbot_flow_saved_list".
Definition USER_PREFERENCES : string := "chatbot_flow_preferences".
Definition BACKUP_FLOW : string := "chatbot_flow_backup".
Definition values : list string :=
  [CURRENT_FLOW; SAVED_FLOWS; USER_PREFERENCES; BACKUP_FLOW].
End STORAGE_KEYS.

Definition STORAGE_VERSION : string := "1.0.0".

(** The probe writes and removes a key of its own, which no slot uses; it
    is represented by its outcome, taken to be the same for every probe of
    an operation. *)
Definition isLocalStorageAvailable : Js bool := fun w => (inr (available w), w).

Module storageWrapper.

Definition setItem (key : string) (value : text) : Js unit :=
  let* avail := isLocalStorageAvailable in
  if (avail : bool) then
    fun w =>
      match refuses w key value with
      | Some e => (inl e, w)
      | None => (inr tt, set_localStorage <[key := value]> w)
      end
  else
    fun w => (inr tt, set_memoryStorage <[key := value]> w).

Definition getItem (key : string) : Js (option text) :=
  let* avail := isLocalStorageAvailable in
  if (avail : bool) then
    fun w => (inr (localStorage w !! key), w)
  else
    fun w =>
      (inr (match memoryStorage w !! key with
            | Some t => if falsy_text (Some t) then None else Some t
            | None => None
            end), w).

Definition removeItem (key : string) : Js unit :=
  let* avail := isLocalStorageAvailable in
  if (avail : bool) then
    fun w => (inr tt, set_localStorage (delete key) w)
  else
    fun w => (inr tt, set_memoryStorage (delete key) w).

End storageWrapper.

(** *** The storage manager *)

Module Validation.
Record t := { isValid : bool; error : option string }.
End Validation.

Inductive Code :=
| VALIDATION_ERROR
| STORAGE_NOT_SUPPORTED
| STORAGE_QUOTA_EXCEEDED
| SERIALIZATION_ERROR
| STORAGE_ACCESS_ERROR
| PARSE_ERROR
| INVALID_DATA
| NO_BACKUP
| BACKUP_ERROR
| UNKNOWN_ERROR.

(** The result object of the storage operations; an absent field is [None],
    an absent [data] is [JUndefined]. *)
Module Result.
Record t := {
  success : bool;
  data : jsval;
  error : option string;
  code : option Code;
  message : option string;
  warning : option string;
  details : option string;
  originalError : option JsError }.
End Result.

Definition invalid (msg : string) : Validation.t :=
  {| Validation.isValid := false; Validation.error := Some msg |}.

(** [a || b] on conditions: [b] is evaluated only when [a] is false. *)
Definition or_else (a b : Exc bool) : Exc bool :=
  let? x := a in if (x : bool) then inr true else b.

(** [!v.k] *)
Definition lacks (v : jsval) (k : string) : Exc bool :=
  let? f := get v k in inr (negb (truthy f)).

(** [typeof v.k !== ty] *)
Definition typeof_differs (v : jsval) (k : string) (ty : string) : Exc bool :=
  let? f := get v k in inr (negb (String.eqb (typeof f) ty)).

(** [!node.id || !node.type || !node.position] *)
Definition node_missing_fields (node : jsval) : Exc bool :=
  or_else (lacks node "id") (or_else (lacks node "type") (lacks node "position")).

(** [typeof node.position !== 'object' || typeof node.position.x !== 'number'
    || typeof node.position.y !== 'number'] *)
Definition node_invalid_position (node : jsval) : Exc bool :=
  let? position := get node "position" in
  or_else (inr (negb (String.eqb (typeof position) "object")))
          (or_else (typeof_differs position "x" "number")
                   (typeof_differs position "y" "number")).

(** [!edge.id || !edge.source || !edge.target] *)
Definition edge_missing_fields (edge : jsval) : Exc bool :=
  or_else (lacks edge "id") (or_else (lacks edge "source") (lacks edge "target")).

Definition node_missing_message (i : nat) : string :=
  "Node at index " ++ pretty i ++ " is missing required fields (id, type, position)".

Definition node_position_message (i : nat) : string :=
  "Node at index " ++ pretty i ++ " has invalid position data".

Definition edge_missing_message (i : nat) : string :=
  "Edge at index " ++ pretty i ++ " is missing required fields (id, source, target)".

(** The loop over [flowData.nodes], from index [i] on: [Some r] when the
    loop returns [r], [None] when it runs to its end. *)
Fixpoint validate_nodes (i : nat) (nodes : list jsval) : Exc (option Validation.t) :=
  match nodes with
  | [] => inr None
  | node :: rest =>
      let? missing := node_missing_fields node in
      if (missing : bool) then inr (Some (invalid (node_missing_message i)))
      else
        let? bad := node_invalid_position node in
        if (bad : bool) then inr (Some (invalid (node_position_message i)))
        else validate_nodes (S i) rest
  end.

(** The loop over [flowData.edges]. *)
Fixpoint validate_edges (i : nat) (edges : list jsval) : Exc (option Validation.t) :=
  match edges with
  | [] => inr None
  | edge :: rest =>
      let? missing := edge_missing_fields edge in
      if (missing : bool) then inr (Some (invalid (edge_missing_message i)))
      else validate_edges (S i) rest
  end.

Definition elements (v : jsval) : list jsval :=
  match v with JArr l => l | _ => [] end.

(** The [try] block of [validateFlowData]. *)
Definition validateFlowData_body (flowData : jsval) : Exc Validation.t :=
  if negb (truthy flowData) || negb (String.eqb (typeof flowData) "object")
  then inr (invalid "Flow data must be a valid object")
  else
    let? nodes := get flowData "nodes" in
    if negb (isArray nodes) then inr (invalid "Nodes must be an array")
    else
      let? edges := get flowData "edges" in
      if negb (isArray edges) then inr (invalid "Edges must be an array")
      else
        let? r := validate_nodes 0 (elements nodes) in
        match r with
        | Some v => inr v
        | None =>
            let? r := validate_edges 0 (elements edges) in
            match r with
            | Some v => inr v
            | None => inr {| Validation.isValid := true; Validation.error := None |}
            end
        end.

Definition validateFlowData (flowData : jsval) : Validation.t :=
  match validateFlowData_body flowData with
  | inr r => r
  | inl error => invalid ("Validation error: " ++ message error)
  end.

Definition failure (msg : string) (c : Code) (det : option string) : Result.t :=
  {| Result.success := false; Result.data := JUndefined;
     Result.error := Some msg; Result.code := Some c;
     Result.message := None; Result.warning := None;
     Result.details := det; Result.originalError := None |}.

Definition succeeded (d : jsval) (msg : string) (warn : option string) : Result.t :=
  {| Result.success := true; Result.data := d;
     Result.error := None; Result.code := None;
     Result.message := Some msg; Result.warning := warn;
     Result.details := None; Result.originalError := None |}.

(** [JSON.parse] applied to what [getItem] returned; [null] reads as the
    text of the JSON value [null]. *)
Definition parse_item (item : option text) : Exc jsval :=
  match item with
  | Some t => JSON_parse t
  | None => inr JNull
  end.

(** [loadBackup] *)
Definition loadBackup : Js Result.t :=
  try_catch
    (let* backupData := storageWrapper.getItem STORAGE_KEYS.BACKUP_FLOW in
     if falsy_text backupData then ret (failure "No backup available" NO_BACKUP None)
     else
       let* parsedBackup := lift (parse_item backupData) in
       ret (succeeded parsedBackup "Backup loaded successfully" None))
    (fun error =>
       ret (failure "Failed to load backup data" BACKUP_ERROR (Some (message error)))).

(** The object literal [backupData] of [createBackup]. *)
Definition backupData (flowData : jsval) (created : string) : gmap string jsval :=
  <["isBackup" := JBool true]>
    (<["backupCreatedAt" := JStr created]> (own_props flowData)).

(** [createBackup] *)
Definition createBackup (flowData : jsval) : Js bool :=
  try_catch
    (let* created := now in
     let* _ :=
       storageWrapper.setItem STORAGE_KEYS.BACKUP_FLOW
         (JSON_stringify (backupData flowData created)) in
     ret true)
    (fun error => ret false).

(** [getCurrentFlow] *)
Definition getCurrentFlow : Js Result.t :=
  try_catch
    (let* storedData := storageWrapper.getItem STORAGE_KEYS.CURRENT_FLOW in
     if falsy_text storedData then ret (succeeded JNull "No saved flow found" None)
     else
       let* flowData := lift (parse_item storedData) in
       let validation := validateFlowData flowData in
       if negb (Validation.isValid validation) then
         let* backupResult := loadBackup in
         if Result.success backupResult then
           ret (succeeded (Result.data backupResult)
                          "Loaded from backup due to corrupted primary data"
                          (Some "Primary flow data was corrupted"))
         else
           ret (failure ("Invalid flow data: "
                           ++ default "null" (Validation.error validation))
                        INVALID_DATA None)
       else ret (succeeded flowData "Flow loaded successfully" None))
    (fun error =>
       if String.eqb (name error) "SyntaxError" then
         ret (failure "Saved flow data is corrupted and cannot be loaded"
                      PARSE_ERROR (Some (message error)))
       else
         ret (failure "Failed to load flow due to an unknown error"
                      UNKNOWN_ERROR (Some (message error)))).

(** [haystack.includes(needle)] *)
Fixpoint includes (needle haystack : string) : bool :=
  String.prefix needle haystack
  || match haystack with
     | EmptyString => false
     | String _ rest => includes needle rest
     end.

(** The object literal [enhancedFlowData] of [saveCurrentFlow], once
    [flowData.metadata] has been read. *)
Definition enhancedFlowData (flowData metadata : jsval) (savedAt lastModified : string)
  : gmap string jsval :=
  <["metadata" :=
      JObj (<["lastModified" := JStr lastModified]>
           (<["edgeCount" :=
                or_value (get_optional (get_own flowData "edges") "length")
                         (JNum (number_of_nat 0))]>
           (<["nodeCount" :=
                or_value (get_optional (get_own flowData "nodes") "length")
                         (JNum (number_of_nat 0))]>
           (<["savedAt" := JStr savedAt]>
           (<["version" := JStr STORAGE_VERSION]>
           (own_props metadata))))))]>
    (own_props flowData).

(** The [catch] block of [saveCurrentFlow]. *)
Definition save_failure (error : JsError) : Result.t :=
  let '(errorCode, userMessage) :=
    if String.eqb (name error) "QuotaExceededError" then
      (STORAGE_QUOTA_EXCEEDED,
       "Storage quota exceeded. Please clear some data and try again.")
    else if includes "JSON" (message error) then
      (SERIALIZATION_ERROR, "Failed to prepare flow data for saving")
    else if includes "localStorage" (message error)
            || String.eqb (name error) "SecurityError" then
      (STORAGE_ACCESS_ERROR,
       "Cannot access storage. This may be due to private browsing mode or browser security settings.")
    else
      (UNKNOWN_ERROR, "Failed to save flow due to an unknown error") in
  {| Result.success := false; Result.data := JUndefined;
     Result.error := Some userMessage; Result.code := Some errorCode;
     Result.message := None; Result.warning := None;
     Result.details := Some (message error);
     Result.originalError := Some error |}.

(** The first statements of [saveCurrentFlow]: the backup of the existing
    flow. *)
Definition backupExistingFlow : Js bool :=
  let* existingFlow := getCurrentFlow in
  if Result.success existingFlow && truthy (Result.data existingFlow)
  then createBackup (Result.data existingFlow)
  else ret false.

(** [saveCurrentFlow] *)
Definition saveCurrentFlow (flowData : jsval) : Js Result.t :=
  try_catch
    (let* _ := backupExistingFlow in
     let* metadata := lift (get flowData "metadata") in
     let* savedAt := now in
     let* lastModified := now in
     let enhanced := enhancedFlowData flowData metadata savedAt lastModified in
     let validation := validateFlowData (JObj enhanced) in
     if negb (Validation.isValid validation) then
       ret (failure ("Flow validation failed: "
                       ++ default "null" (Validation.error validation))
                    VALIDATION_ERROR None)
     else
       let* avail := isLocalStorageAvailable in
       if negb avail then
         ret (failure
                "Local storage is not available in your browser. Changes will be lost when you close the tab."
                STORAGE_NOT_SUPPORTED None)
       else
         let serializedData := JSON_stringify enhanced in
         let* _ := storageWrapper.setItem STORAGE_KEYS.CURRENT_FLOW serializedData in
         let* verificationData := storageWrapper.getItem STORAGE_KEYS.CURRENT_FLOW in
         if falsy_text verificationData then
           throw {| name := "Error"; message := "Failed to verify saved data" |}
         else
           ret (succeeded (JObj enhanced) "Flow saved successfully" None))
    (fun error => ret (save_failure error)).

(** [clearAllData] *)
Definition clearAllData : Js bool :=
  try_catch
    (let* _ :=
       foldl (fun acc key => let* _ := acc in storageWrapper.removeItem key)
             (ret tt) STORAGE_KEYS.values in
     ret true)
    (fun error => ret false).

(** *** Vocabulary of the specification *)

(** The text in a slot of the medium the storage wrapper is using. *)
Definition slot (key : string) (w : World) : option text :=
  if available w then localStorage w !! key else memoryStorage w !! key.

(** The two browser states agree on the probe, on what the medium refuses,
    on the clock's readings, and on every slot but the backup slot. *)
Definition differ_on_backup_only (w w' : World) : Prop :=
  available w' = available w /\ refuses w' = refuses w /\ dates w' = dates w /\
  forall key, key <> STORAGE_KEYS.BACKUP_FLOW ->
    localStorage w' !! key = localStorage w !! key /\
    memoryStorage w' !! key = memoryStorage w !! key.

(** The operation returns a result that reports success. *)
Definition succeeds (op : Js Result.t) (w : World) : Prop :=
  match fst (op w) with
  | inr r => Result.success r = true
  | inl _ => False
  end.

(** The browser state the operation leaves. *)
Definition after {A} (op : Js A) (w : World) : World := snd (op w).

Definition structurally_valid (flow : jsval) : Prop :=
  Validation.isValid (validateFlowData flow) = true.

(** Serialising the value and parsing the text gives the value back. *)
Definition survives_json (v : jsval) : Prop := toJSON v = v.

(** Structural validity in the words of the specification.  A field a node
    or an edge "has" is a field whose value is truthy: [undefined], [null],
    [false], [0], [NaN] and the empty string count as missing. *)
Definition non_null_object (v : jsval) : Prop := v <> JNull /\ typeof v = "object".

Definition has (v : jsval) (k : string) : Prop := truthy (get_own v k) = true.

Definition numeric (v : jsval) : Prop := typeof v = "number".

Definition well_formed_node (node : jsval) : Prop :=
  has node "id" /\ has node "type" /\
  non_null_object (get_own node "position") /\
  numeric (get_own (get_own node "position") "x") /\
  numeric (get_own (get_own node "position") "y").

Definition well_formed_edge (edge : jsval) : Prop :=
  has edge "id" /\ has edge "source" /\ has edge "target".

Definition well_formed_flow (flow : jsval) : Prop :=
  non_null_object flow /\
  exists nodes edges,
    get_own flow "nodes" = JArr nodes /\ get_own flow "edges" = JArr edges /\
    Forall well_formed_node nodes /\ Forall well_formed_edge edges.

(** [x] at index [i] is the first element of [l] that is not [P]. *)
Definition first_offender {A} (P : A -> Prop) (l : list A) (i : nat) (x : A) : Prop :=
  l !! i = Some x /\ ~ P x /\ forall j y, j < i -> l !! j = Some y -> P y.

Definition nullish (v : jsval) : bool :=
  match v with JUndefined | JNull => true | _ => false end.

(** The report on a flow whose [nodes] and [edges] are arrays, as the claim
    has it: the index of the first offending node, else of the first
    offending edge. *)
Definition reports_first_offender (flow : jsval) : Prop :=
  forall nodes edges,
    non_null_object flow ->
    get_own flow "nodes" = JArr nodes -> get_own flow "edges" = JArr edges ->
    (forall i node, first_offender well_formed_node nodes i node ->
       Validation.error (validateFlowData flow) = Some (node_missing_message i)
       \/ Validation.error (validateFlowData flow) = Some (node_position_message i)) /\
    (Forall well_formed_node nodes ->
     forall i edge, first_offender well_formed_edge edges i edge ->
       Validation.error (validateFlowData flow) = Some (edge_missing_message i)).

(** What the runtime reports for an element that is [undefined] or [null]. *)
Definition unreadable_message (v : jsval) : string :=
  "Validation error: "
  ++ match get v "id" with inl e => message e | inr _ => EmptyString end.

(** The report on an offending element, as the code has it: the index and
    what is wrong with the element, unless the element cannot be read. *)
Definition node_report (i : nat) (node : jsval) : string :=
  if nullish node then unreadable_message node
  else if truthy (get_own node "id") && truthy (get_own node "type")
          && truthy (get_own node "position")
       then node_position_message i
       else node_missing_message i.

Definition edge_report (i : nat) (edge : jsval) : string :=
  if nullish edge then unreadable_message edge else edge_missing_message i.

(** The current slot holds text that is not a usable flow. *)
Definition corrupted (t : text) : Prop :=
  match t with
  | OtherText s => s <> EmptyString
  | JsonText v => ~ structurally_valid v
  end.

(** Loading the current flow falls back on the backup: it succeeds with the
    data of the backup and a warning when the backup loads, and fails
    otherwise. *)
Definition recovers_from_backup (w : World) : Prop :=
  exists r b,
    getCurrentFlow w = (inr r, w) /\ fst (loadBackup w) = inr b /\
    if Result.success b
    then Result.success r = true /\ Result.data r = Result.data b
         /\ is_Some (Result.warning r)
    else Result.success r = false.

(** Saving [flow] and loading gives the nodes and the edges of [flow]. *)
Definition round_trips (flow : jsval) (w : World) : Prop :=
  structurally_valid flow -> available w = true ->
  succeeds (saveCurrentFlow flow) w ->
  let w' := after (saveCurrentFlow flow) w in
  exists r,
    getCurrentFlow w' = (inr r, w') /\ Result.success r = true /\
    get_own (Result.data r) "nodes" = get_own flow "nodes" /\
    get_own (Result.data r) "edges" = get_own flow "edges".

(** After saving [flow1] and then [flow2], the backup is the record stored
    for [flow1], tagged; its nodes and edges are those of [flow1] as they
    were saved. *)
Definition backup_holds_previous (flow1 flow2 : jsval) (w : World) : Prop :=
  structurally_valid flow1 -> structurally_valid flow2 ->
  succeeds (saveCurrentFlow flow1) w ->
  let w1 := after (saveCurrentFlow flow1) w in
  succeeds (saveCurrentFlow flow2) w1 ->
  let w2 := after (saveCurrentFlow flow2) w1 in
  exists r record created,
    loadBackup w2 = (inr r, w2) /\ Result.success r = true /\
    slot STORAGE_KEYS.CURRENT_FLOW w1 = Some (JsonText record) /\
    Result.data r = JObj (backupData record created) /\
    get_own (Result.data r) "nodes" = toJSON (get_own flow1 "nodes") /\
    get_own (Result.data r) "edges" = toJSON (get_own flow1 "edges").

(** *** Sample data *)

Definition obj (fields : list (string * jsval)) : jsval := JObj (list_to_map fields).

Definition num (z : Z) : jsval := JNum (Finite (Qc_of_Z z)).

Definition node_at (i : string) (px py : jsval) : jsval :=
  obj [("id", JStr i); ("type", JStr "textMessage");
       ("position", obj [("x", px); ("y", py)]);
       ("data", obj [("text", JStr "hello")])].

Definition edge_between (i a b : string) : jsval :=
  obj [("id", JStr i); ("source", JStr a); ("target", JStr b);
       ("sourceHandle", JNull); ("targetHandle", JNull)].

(** Two nodes and one edge. *)
Definition small_flow : jsval :=
  obj [("nodes", JArr [node_at "n1" (num 0) (num 0); node_at "n2" (num 250) (num 40)]);
       ("edges", JArr [edge_between "e1" "n1" "n2"])].

(** Three nodes and two edges. *)
Definition larger_flow : jsval :=
  obj [("nodes", JArr [node_at "n1" (num 0) (num 0); node_at "n2" (num 250) (num 40);
                       node_at "n3" (num 500) (num 10)]);
       ("edges", JArr [edge_between "e1" "n1" "n2"; edge_between "e2" "n2" "n3"])].

(** A node dragged to a position that is not whole. *)
Definition dragged_flow : jsval :=
  obj [("nodes", JArr [node_at "n1" (JNum (Finite (Q2Qc (501 # 2)))) (num (-3))]);
       ("edges", JArr [])].

(** A record without edges. *)
Definition edgeless_record : jsval :=
  obj [("nodes", JArr [node_at "n1" (num 0) (num 0)]); ("isBackup", JBool true)].

(** Two nodes, the second without a type. *)
Definition untyped_node_flow : jsval :=
  obj [("nodes", JArr [node_at "n1" (num 0) (num 0);
                       obj [("id", JStr "n2"); ("position", obj [("x", num 1); ("y", num 2)])]]);
       ("edges", JArr [])].

(** A flow as [formatFlowData] builds it from an edge that has no handle
    ids: the two handle properties are there, with the value [undefined]. *)
Definition formatted_flow : jsval :=
  obj [("nodes", JArr [node_at "n1" (num 0) (num 0); node_at "n2" (num 250) (num 40)]);
       ("edges", JArr [obj [("id", JStr "e1"); ("source", JStr "n1");
                            ("target", JStr "n2");
                            ("sourceHandle", JUndefined);
                            ("targetHandle", JUndefined)]])].

(** A node whose position is [NaN]. *)
Definition nan_flow : jsval :=
  obj [("nodes", JArr [node_at "n1" (JNum NaN) (num 0)]); ("edges", JArr [])].

(** A flow whose only node is [null]. *)
Definition null_node_flow : jsval :=
  obj [("nodes", JArr [JNull]); ("edges", JArr [])].

(** A browser with working, empty storage. *)
Definition fresh_browser : World :=
  {| available := true; refuses := fun _ _ => None;
     localStorage := ∅; memoryStorage := ∅;
     dates := fun n => "2024-01-01T00:00:00." ++ pretty n ++ "Z"; elapsed := 0 |}.

(** A browser whose storage is too full for a backup copy: a write to the
    backup slot raises [QuotaExceededError]. *)
Definition full_browser : World :=
  {| available := true;
     refuses := fun key _ =>
       if String.eqb key STORAGE_KEYS.BACKUP_FLOW
       then Some {| name := "QuotaExceededError";
                    message := "The quota has been exceeded." |}
       else None;
     localStorage := ∅; memoryStorage := ∅;
     dates := fun n => "2024-01-01T00:00:00." ++ pretty n ++ "Z"; elapsed := 0 |}.

Definition browser_with (current backup : text) : World :=
  set_localStorage
    (fun _ => <[STORAGE_KEYS.CURRENT_FLOW := current]>
                (<[STORAGE_KEYS.BACKUP_FLOW := backup]> ∅))
    fresh_browser.

End FlowStorage.

(** ** Part III: adding nodes, and the data model of the editor *)

Module FlowEditing.
Import FlowManager.

(** The argument [nodeData] of [addNode]: an entry of the node registry. *)
Record NodeConfig := { type : string; defaultData : NodeData }.

(** [addNode]: the updater handed to [setNodes]; [now] is what [Date.now()]
    returns, the milliseconds since the epoch, which the template literal
    prints in decimal digits. *)
Definition addNode (now : N) (nodeData : NodeConfig) (position : XY)
  : list Node.t -> list Node.t :=
  let newNode :=
    {| Node.id := "node-" ++ pretty now;
       Node.type := type nodeData;
       Node.position := position;
       Node.data := defaultData nodeData |} in
  fun nds => (nds ++ [newNode])%list.

(** *** Vocabulary *)

(** [{ ...node, data: newData }] *)
Definition with_data (newData : NodeData) (node : Node.t) : Node.t :=
  {| Node.id := Node.id node; Node.type := Node.type node;
     Node.position := Node.position node; Node.data := newData |}.

Definition node_ids (nodes : list Node.t) : list string := Node.id <$> nodes.

(** Every edge starts and ends at a node of the flow. *)
Definition no_dangling (nodes : list Node.t) (edges : list Edge.t) : Prop :=
  Forall (fun edge => Edge.source edge ∈ node_ids nodes
                      /\ Edge.target edge ∈ node_ids nodes) edges.

(** *** Sample data *)

(** The entry of the node registry for text messages. *)
Definition sample_config : NodeConfig :=
  {| type := "textMessage";
     defaultData := {| text := EmptyString; lastModified := "2024-01-01T00:00:00.000Z" |} |}.

End FlowEditing.

(** ** Part IV: the storage statistics *)

Module StorageStatistics.
Import FlowStorage.

(** *** [getStorageStats] *)

Module Entry.
Record t := { size : nat; lastModified : jsval }.
End Entry.

Module Stats.
Record t := {
  totalKeys : nat;
  totalSize : nat;
  flowData : gmap string Entry.t;
  lastError : option string }.
End Stats.

(** [Object.entries(STORAGE_KEYS)] *)
Definition STORAGE_KEYS_entries : list (string * string) :=
  [("CURRENT_FLOW", STORAGE_KEYS.CURRENT_FLOW);
   ("SAVED_FLOWS", STORAGE_KEYS.SAVED_FLOWS);
   ("USER_PREFERENCES", STORAGE_KEYS.USER_PREFERENCES);
   ("BACKUP_FLOW", STORAGE_KEYS.BACKUP_FLOW)].

(** The immediately invoked function that reads [lastModified] off a stored
    text. *)
Definition lastModified_of (data : text) : jsval :=
  match (let? parsed := JSON_parse data in
         let? metadata := get parsed "metadata" in
         inr (or_value (get_optional metadata "lastModified") (JStr "Unknown"))) with
  | inr v => v
  | inl _ => JStr "Unknown"
  end.

Section getStorageStats.

(** [data.length]: the number of characters of a stored text, which the
    representation of texts leaves open. *)
Variable text_length : text -> nat.

(** The callback of [forEach]. *)
Definition count_entry (stats : Stats.t) (entry : string * string) : Js Stats.t :=
  let '(name, key) := entry in
  let* data := storageWrapper.getItem key in
  match data with
  | Some t =>
      if falsy_text data then ret stats
      else
        ret {| Stats.totalKeys := S (Stats.totalKeys stats);
               Stats.totalSize := Stats.totalSize stats + text_length t;
               Stats.flowData :=
                 <[name := {| Entry.size := text_length t;
                              Entry.lastModified := lastModified_of t |}]>
                   (Stats.flowData stats);
               Stats.lastError := Stats.lastError stats |}
  | None => ret stats
  end.

Definition getStorageStats : Js Stats.t :=
  try_catch
    (foldl (fun acc entry => let* stats := acc in count_entry stats entry)
           (ret {| Stats.totalKeys := 0; Stats.totalSize := 0;
                   Stats.flowData := ∅; Stats.lastError := None |})
           STORAGE_KEYS_entries)
    (fun error =>
       ret {| Stats.totalKeys := 0; Stats.totalSize := 0;
              Stats.flowData := ∅; Stats.lastError := Some (message error) |}).

End getStorageStats.

(** The entry of the statistics for what a slot holds. *)
Definition entry_of (text_length : text -> nat) (item : option text) : option Entry.t :=
  match item with
  | Some t =>
      if falsy_text item then None
      else Some {| Entry.size := text_length t; Entry.lastModified := lastModified_of t |}
  | None => None
  end.

(** *** Sample data *)

(** A browser without [localStorage]: the wrapper falls back on the
    in-memory store. *)
Definition private_browser : World :=
  {| available := false; refuses := fun _ _ => None;
     localStorage := ∅; memoryStorage := ∅;
     dates := fun n => "2024-01-01T00:00:00." ++ pretty n ++ "Z"; elapsed := 0 |}.

Definition quota_error : JsError :=
  {| name := "QuotaExceededError"; message := "The quota has been exceeded." |}.

(** A browser whose storage takes no write to the current slot. *)
Definition exhausted_browser : World :=
  {| available := true;
     refuses := fun key _ =>
       if String.eqb key STORAGE_KEYS.CURRENT_FLOW then Some quota_error else None;
     localStorage := ∅; memoryStorage := ∅;
     dates := fun n => "2024-01-01T00:00:00." ++ pretty n ++ "Z"; elapsed := 0 |}.

End StorageStatistics.

(** ** Part V: the flow utilities *)

Module FlowUtils.
Import FlowStorage.

(** [generateId]: [stamp] is what [Date.now().toString(36)] returns and
    [randomString] what [Math.random().toString(36).substring(2, 8)]
    returns; an absent [prefix] is ['item']. *)
Definition generateId (prefix : option string) (stamp randomString : string) : string :=
  default "item" prefix ++ "_" ++ stamp ++ "_" ++ randomString.

(** [Array.prototype.map] with a callback that may throw. *)
Fixpoint map_elements (f : jsval -> Exc jsval) (l : list jsval) : Exc (list jsval) :=
  match l with
  | [] => inr []
  | e :: rest =>
      let? e' := f e in
      let? rest' := map_elements f rest in
      inr (e' :: rest')
  end.

(** [v.map(callback)], where the program writes [expr] for [v]: of the
    values of the embedding only an array has the method; [mapper] is the
    callback run over the elements. *)
Definition call_map (expr : string) (v : jsval)
    (mapper : list jsval -> Exc (list jsval)) : Exc jsval :=
  match v with
  | JArr l => let? l' := mapper l in inr (JArr l')
  | _ =>
      let? method := get v "map" in
      inl (TypeError (expr ++ ".map is not a function"))
  end.

(** The callbacks of [formatFlowData]. *)
Definition formatted_node (node : jsval) : Exc jsval :=
  let? id := get node "id" in
  let? type := get node "type" in
  let? position := get node "position" in
  let? data := get node "data" in
  inr (JObj (<["id" := id]> (<["type" := type]>
            (<["position" := position]> (<["data" := data]> ∅))))).

Definition formatted_edge (edge : jsval) : Exc jsval :=
  let? id := get edge "id" in
  let? source := get edge "source" in
  let? target := get edge "target" in
  let? sourceHandle := get edge "sourceHandle" in
  let? targetHandle := get edge "targetHandle" in
  inr (JObj (<["id" := id]> (<["source" := source]> (<["target" := target]>
            (<["sourceHandle" := sourceHandle]>
            (<["targetHandle" := targetHandle]> ∅)))))).

(** [formatFlowData] *)
Definition formatFlowData (nodes edges : jsval) : Js jsval :=
  let* formattedNodes := lift (call_map "nodes" nodes (map_elements formatted_node)) in
  let* formattedEdges := lift (call_map "edges" edges (map_elements formatted_edge)) in
  let* createdAt := now in
  ret (JObj (<["nodes" := formattedNodes]> (<["edges" := formattedEdges]>
            (<["metadata" :=
                 JObj (<["createdAt" := JStr createdAt]>
                      (<["version" := JStr "1.0.0"]> ∅))]> ∅)))).

(** A destructuring default: it replaces [undefined] only. *)
Definition default_to (v fallback : jsval) : jsval :=
  match v with JUndefined => fallback | _ => v end.

(** The callbacks of [parseFlowData]. *)
Definition parsed_node (node : jsval) : Exc jsval :=
  let spread := own_props node in
  let? position := get node "position" in
  let? data := get node "data" in
  inr (JObj (<["data" := or_value data (JObj ∅)]>
            (<["position" :=
                 or_value position
                   (JObj (<["x" := JNum (number_of_nat 0)]>
                         (<["y" := JNum (number_of_nat 0)]> ∅)))]> spread))).

(** The callback of [edges.map] calls [generateId] for an edge without id;
    [entropy n] is what the clock and the random number generator give to
    call number [n], and [calls] counts the calls made so far. *)
Fixpoint parsed_edges (entropy : nat -> string * string) (calls : nat)
    (edges : list jsval) : Exc (list jsval) :=
  match edges with
  | [] => inr []
  | edge :: rest =>
      let spread := own_props edge in
      let? id := get edge "id" in
      let generated := generateId (Some "edge") (entropy calls).1 (entropy calls).2 in
      let id' := if truthy id then id else JStr generated in
      let calls' := if truthy id then calls else S calls in
      let? rest' := parsed_edges entropy calls' rest in
      inr (JObj (<["id" := id']> spread) :: rest')
  end.

Definition flow_of (nodes edges : jsval) : jsval :=
  JObj (<["nodes" := nodes]> (<["edges" := edges]> ∅)).

(** [parseFlowData]; the destructuring pattern reads [nodes] and [edges]
    off the flow data and throws when the flow data is [undefined] or
    [null]. *)
Definition parseFlowData (entropy : nat -> string * string) (flowData : jsval) : jsval :=
  match (let? nodes := get flowData "nodes" in
         let? edges := get flowData "edges" in
         let nodes := default_to nodes (JArr []) in
         let edges := default_to edges (JArr []) in
         let? parsedNodes := call_map "nodes" nodes (map_elements parsed_node) in
         let? parsedEdges := call_map "edges" edges (parsed_edges entropy 0) in
         inr (flow_of parsedNodes parsedEdges)) with
  | inr parsed => parsed
  | inl error => flow_of (JArr []) (JArr [])
  end.

(** [deepClone]: [JSON.stringify] returns [undefined] for [undefined], which
    [JSON.parse] reads as the text [undefined]. *)
Definition deepClone (obj : jsval) : Exc jsval :=
  JSON_parse (match obj with
              | JUndefined => OtherText "undefined"
              | _ => JsonText (toJSON obj)
              end).

(** *** Vocabulary *)

Definition readable (v : jsval) : Prop := nullish v = false.

(** *** Sample data *)

(** A node as the editor keeps it, with the fields the library adds. *)
Definition editor_node : jsval :=
  obj [("id", JStr "n1"); ("type", JStr "textMessage");
       ("position", obj [("x", num 0); ("y", num 0)]);
       ("data", obj [("text", JStr "hello")]);
       ("width", num 150); ("selected", JBool true)].

(** What [formatFlowData] makes of it on the first reading of the clock. *)
Definition formatted_editor_flow : jsval :=
  obj [("nodes", JArr [node_at "n1" (num 0) (num 0)]); ("edges", JArr []);
       ("metadata", obj [("createdAt", JStr "2024-01-01T00:00:00.0Z");
                         ("version", JStr "1.0.0")])].

(** A flow as it may be imported: a node without data, an edge without
    id. *)
Definition imported_flow : jsval :=
  obj [("nodes", JArr [obj [("id", JStr "n1"); ("type", JStr "textMessage");
                            ("position", obj [("x", num 10); ("y", num 20)])]]);
       ("edges", JArr [obj [("source", JStr "n1"); ("target", JStr "n1")]])].

Definition clock_entropy (n : nat) : string * string := ("lq1x2y3z", pretty n).

End FlowUtils.

(** ** Part VI: the flow builder component *)

Module App.
Import FlowStorage.

(** The arguments of [showModal]; a message may be [null]. *)
Module Modal.
Record t := { type : string; title : string; message : option string }.
End Modal.

(** The state of [FlowBuilder] the handlers below read and write; a closed
    modal is [None]. *)
Record State := {
  nodes : jsval;
  edges : jsval;
  modalState : option Modal.t;
  saveError : option string;
  isLoading : bool;
  isSaving : bool }.

Definition setNodes (v : jsval) (st : State) : State :=
  {| nodes := v; edges := edges st; modalState := modalState st;
     saveError := saveError st; isLoading := isLoading st; isSaving := isSaving st |}.

Definition setEdges (v : jsval) (st : State) : State :=
  {| nodes := nodes st; edges := v; modalState := modalState st;
     saveError := saveError st; isLoading := isLoading st; isSaving := isSaving st |}.

Definition setSaveError (e : option string) (st : State) : State :=
  {| nodes := nodes st; edges := edges st; modalState := modalState st;
     saveError := e; isLoading := isLoading st; isSaving := isSaving st |}.

Definition setIsLoading (b : bool) (st : State) : State :=
  {| nodes := nodes st; edges := edges st; modalState := modalState st;
     saveError := saveError st; isLoading := b; isSaving := isSaving st |}.

Definition setIsSaving (b : bool) (st : State) : State :=
  {| nodes := nodes st; edges := edges st; modalState := modalState st;
     saveError := saveError st; isLoading := isLoading st; isSaving := b |}.

(** [showModal] *)
Definition showModal (type title : string) (message : option string) (st : State) : State :=
  {| nodes := nodes st; edges := edges st;
     modalState := Some {| Modal.type := type; Modal.title := title;
                           Modal.message := message |};
     saveError := saveError st; isLoading := isLoading st; isSaving := isSaving st |}.

(** [!!s] for a string that may be [null]. *)
Definition truthy_string (s : option string) : bool :=
  match s with
  | Some s => negb (String.eqb s EmptyString)
  | None => false
  end.

(** [initializeFlow], without the deferred [fitView].  Where the data is
    read it is truthy, so the reads cannot throw; no result of the storage
    manager carries the code ['NO_SAVED_FLOW'], so the comparison with it
    holds for every result. *)
Definition initializeFlow (st : State) : Js State :=
  let st := setIsLoading true st in
  let* st :=
    try_catch
      (let* loadResult := getCurrentFlow in
       if Result.success loadResult && truthy (Result.data loadResult) then
         let st :=
           setNodes (or_value (get_own (Result.data loadResult) "nodes") (JArr [])) st in
         let st :=
           setEdges (or_value (get_own (Result.data loadResult) "edges") (JArr [])) st in
         if truthy_string (Result.warning loadResult) then
           ret (showModal "warning" "Flow Restored"
                  (Some "Your flow was restored from backup. The original data may have been corrupted.")
                  st)
         else ret st
       else if truthy_string (Result.error loadResult) then
         ret (showModal "error" "Loading Error"
                (Some ("Failed to load your saved flow: "
                         ++ default EmptyString (Result.error loadResult)))
                st)
       else ret st)
      (fun error =>
         ret (showModal "error" "Initialization Error"
                (Some "Failed to initialize the application. Please refresh and try again.")
                st)) in
  ret (setIsLoading false st).

(** What [handleSave] returns. *)
Module SaveOutcome.
Record t := { success : bool; message : option string }.
End SaveOutcome.

(** The object literal [flowData] of [handleSave]. *)
Definition flowData (nodes edges : jsval) (createdAt : string) (nodeCount edgeCount : jsval)
  : jsval :=
  JObj (<["nodes" := nodes]> (<["edges" := edges]>
       (<["metadata" :=
            JObj (<["version" := JStr "1.0.0"]>
                 (<["createdAt" := JStr createdAt]>
                 (<["nodeCount" := nodeCount]>
                 (<["edgeCount" := edgeCount]> ∅))))]> ∅))).

(** [handleSave]; [validateFlow] is what the callback of the hook returns
    for the nodes and the edges of the state. *)
Definition handleSave (validateFlow : FlowManager.Validation) (st : State)
  : Js (SaveOutcome.t * State) :=
  let st := setSaveError None (setIsSaving true st) in
  let* result :=
    try_catch
      (let validation := validateFlow in
       if negb (FlowManager.isValid validation) then
         ret ({| SaveOutcome.success := false;
                 SaveOutcome.message := FlowManager.error validation |},
              showModal "error" "Cannot Save Flow" (FlowManager.error validation) st)
       else
         let* createdAt := now in
         let* nodeCount := lift (get (nodes st) "length") in
         let* edgeCount := lift (get (edges st) "length") in
         let* result :=
           saveCurrentFlow (flowData (nodes st) (edges st) createdAt nodeCount edgeCount) in
         if Result.success result then
           ret ({| SaveOutcome.success := true; SaveOutcome.message := None |},
                showModal "success" "Flow Saved Successfully"
                  (Some "Your chatbot flow has been saved successfully! You can continue editing or come back later to make changes.")
                  st)
         else
           let errorMessage :=
             if truthy_string (Result.error result)
             then default EmptyString (Result.error result)
             else "Failed to save flow" in
           ret ({| SaveOutcome.success := false;
                   SaveOutcome.message := Some errorMessage |},
                showModal "error" "Save Failed" (Some errorMessage) st))
      (fun error =>
         let errorMessage := "An unexpected error occurred while saving" in
         ret ({| SaveOutcome.success := false;
                 SaveOutcome.message := Some errorMessage |},
              showModal "error" "Save Error" (Some errorMessage) st)) in
  ret (result.1, setIsSaving false result.2).

(** [NODE_CONFIGS]; [loaded] is the reading of the clock when the module
    was loaded. *)
Definition NODE_CONFIGS (loaded : string) : gmap string jsval :=
  {[ "textMessage" :=
       obj [("type", JStr "textMessage");
            ("label", JStr "Send Message");
            ("description", JStr "Send a text message to the user");
            ("icon", JStr "💬");
            ("defaultData", obj [("text", JStr EmptyString);
                                 ("lastModified", JStr loaded)])] ]}.

(** The names an object literal inherits from [Object.prototype].  What is
    found under them is a function, or the prototype itself: it is truthy,
    and it has no [defaultData]. *)
Definition inherited : list string :=
  ["constructor"; "hasOwnProperty"; "isPrototypeOf"; "propertyIsEnumerable";
   "toLocaleString"; "toString"; "valueOf"; "__proto__";
   "__defineGetter__"; "__defineSetter__"; "__lookupGetter__"; "__lookupSetter__"].

(** [NODE_CONFIGS[nodeType]], as far as [createNewNode] looks at it. *)
Definition NODE_CONFIGS_get (loaded nodeType : string) : jsval :=
  match NODE_CONFIGS loaded !! nodeType with
  | Some config => config
  | None => if bool_decide (nodeType ∈ inherited) then JObj ∅ else JUndefined
  end.

(** [Math.round] on a number: the nearest integer, a half rounded up. *)
Definition Math_round (n : number) : number :=
  match n with
  | Finite q =>
      Finite (Qc_of_Z ((2 * Qnum (this q) + Zpos (Qden (this q)))
                         / (2 * Zpos (Qden (this q))))%Z)
  | _ => n
  end.

(** A position as [project] returns it. *)
Record Position := { x : number; y : number }.

(** [createNewNode]; [stamp] and [randomString] are what the clock and the
    random number generator give to [generateId]. *)
Definition createNewNode (loaded stamp randomString : string)
    (nodeType : string) (position : Position) : Js jsval :=
  if negb (truthy (NODE_CONFIGS_get loaded nodeType)) then ret JNull
  else
    let nodeConfig := NODE_CONFIGS_get loaded nodeType in
    let nodeId := FlowUtils.generateId (Some "node") stamp randomString in
    let* createdAt := now in
    let* lastModified := now in
    ret (JObj (<["id" := JStr nodeId]>
              (<["type" := JStr nodeType]>
              (<["position" :=
                   JObj (<["x" := JNum (Math_round (x position))]>
                        (<["y" := JNum (Math_round (y position))]> ∅))]>
              (<["data" :=
                   JObj (<["lastModified" := JStr lastModified]>
                        (<["createdAt" := JStr createdAt]>
                        (<["id" := JStr nodeId]>
                        (own_props (get_own nodeConfig "defaultData")))))]>
              (<["draggable" := JBool true]>
              (<["selectable" := JBool true]>
              (<["sourcePosition" := JStr "right"]>
              (<["targetPosition" := JStr "left"]> ∅))))))))).

(** [[...prevNodes, newNode]]: an array is spread into its elements, a
    string into its characters, nothing else of the embedding can be
    spread. *)
Definition spread_with (prevNodes newNode : jsval) : Exc jsval :=
  match prevNodes with
  | JArr l => inr (JArr (l ++ [newNode]))
  | JStr s =>
      inr (JArr (((fun c => JStr (String c EmptyString))
                    <$> String.list_ascii_of_string s) ++ [newNode]))
  | _ => inl (TypeError "prevNodes is not iterable")
  end.

(** [addNode] of the component. *)
Definition addNode (newNode : jsval) (st : State) : Exc State :=
  if negb (truthy newNode) then inr st
  else
    let? updatedNodes := spread_with (nodes st) newNode in
    inr (setSaveError None (setNodes updatedNodes st)).

(** *** Sample data *)

Definition empty_editor : State :=
  {| nodes := JArr []; edges := JArr []; modalState := None;
     saveError := None; isLoading := true; isSaving := false |}.

Definition editor_with (flow : jsval) : State :=
  setEdges (get_own flow "edges") (setNodes (get_own flow "nodes") empty_editor).

End App.

(** * Properties *)

(** Facts about the sample data are settled by running the operations. *)
Ltac by_evaluation :=
  unfold FlowStorage.structurally_valid, FlowStorage.succeeds;
  vm_compute; (reflexivity || discriminate).

(** ** Lists: JavaScript's boolean callbacks against predicates *)

Lemma filter_bool_prop {A} (f : A -> bool) (P : A -> Prop) `{!forall a, Decision (P a)}
    (l : list A) :
  (forall a, a ∈ l -> (f a = true <-> P a)) ->
  List.filter f l = filter P l.
Proof.
  induction l as [|a l IH]; intros Hl; [reflexivity|].
  cbn [List.filter]. rewrite filter_cons.
  rewrite IH by (intros b Hb; apply Hl; by right).
  specialize (Hl a (list_elem_of_here a l)).
  destruct (f a) eqn:Hf, (decide (P a)) as [HP|HP]; try reflexivity.
  - exfalso. apply HP, Hl. reflexivity.
  - apply Hl in HP. discriminate.
Qed.

Lemma filter_all {A} (P : A -> Prop) `{!forall a, Decision (P a)} (l : list A) :
  (forall a, a ∈ l -> P a) -> filter P l = l.
Proof.
  induction l as [|a l IH]; intros Hl; [reflexivity|].
  rewrite filter_cons_True by (apply Hl; left).
  f_equal. apply IH. intros b Hb. apply Hl. by right.
Qed.

Lemma filter_none {A} (P : A -> Prop) `{!forall a, Decision (P a)} (l : list A) :
  (forall a, a ∈ l -> ~ P a) -> filter P l = [].
Proof.
  induction l as [|a l IH]; intros Hl; [reflexivity|].
  rewrite filter_cons_False by (apply Hl; left).
  apply IH. intros b Hb. apply Hl. by right.
Qed.

Lemma find_none_iff {A} (f : A -> bool) (l : list A) :
  List.find f l = None <-> forall a, a ∈ l -> f a = false.
Proof.
  induction l as [|a l IH]; cbn.
  - split; [intros _ b Hb; inversion Hb | reflexivity].
  - destruct (f a) eqn:Hf.
    + split; [discriminate|]. intros H. rewrite (H a) in Hf by left. discriminate.
    + rewrite IH. split.
      * intros H b Hb. inversion Hb; subst; auto.
      * intros H b Hb. apply H. by right.
Qed.

Lemma find_some_elem {A} (f : A -> bool) (l : list A) (a : A) :
  List.find f l = Some a -> a ∈ l /\ f a = true.
Proof.
  intros H. apply List.find_some in H as [Hin Hf].
  split; [by apply list_elem_of_In | exact Hf].
Qed.

(** Two elements of a list with the same image under [g] are equal when the
    images are pairwise distinct. *)
Lemma NoDup_fmap_elem_inj {A B} (g : A -> B) (l : list A) (a b : A) :
  NoDup (g <$> l) -> a ∈ l -> b ∈ l -> g a = g b -> a = b.
Proof.
  intros Hnd Ha Hb Hg.
  apply list_elem_of_lookup in Ha as [i Hi].
  apply list_elem_of_lookup in Hb as [j Hj].
  assert (i = j) as ->.
  { eapply NoDup_lookup; [exact Hnd| |].
    - rewrite list_lookup_fmap, Hi. reflexivity.
    - rewrite list_lookup_fmap, Hj. cbn. by rewrite Hg. }
  congruence.
Qed.

(** The elements before the first offender are fine, and the offender
    follows them. *)
Lemma first_offender_split {A} (P : A -> Prop) (l : list A) (i : nat) (x : A) :
  FlowStorage.first_offender P l i x ->
  exists before rest,
    l = (before ++ x :: rest)%list /\ Forall P before /\ length before = i.
Proof.
  intros (Hx & _ & Hbefore). exists (take i l), (drop (S i) l). split; [|split].
  - symmetry. by apply take_drop_middle.
  - apply Forall_lookup. intros j y Hj.
    apply lookup_take_Some in Hj as [Hj Hlt]. by apply (Hbefore j).
  - apply length_take_le. apply lookup_lt_Some in Hx. lia.
Qed.

Lemma first_offender_exists {A} (P : A -> Prop) (l : list A) :
  (forall x, P x \/ ~ P x) ->
  Forall P l \/ exists i x, FlowStorage.first_offender P l i x.
Proof.
  intros Hdec. induction l as [|a l [IH|(i & x & Hx & Hbad & Hbefore)]].
  - left. constructor.
  - destruct (Hdec a) as [Ha|Ha].
    + left. by constructor.
    + right. exists 0, a. split; [reflexivity|]. split; [exact Ha|]. lia.
  - destruct (Hdec a) as [Ha|Ha].
    + right. exists (S i), x. split; [exact Hx|]. split; [exact Hbad|].
      intros [|j] y Hj Hy; [by injection Hy as <-|].
      apply (Hbefore j); [lia | exact Hy].
    + right. exists 0, a. split; [reflexivity|]. split; [exact Ha|]. lia.
Qed.

(** ** The flow manager hook *)

Module FlowManagerFacts.
Import FlowManager.

Lemma handle_eqb_eq (a b : Handle) : handle_eqb a b = true <-> a = b.
Proof.
  destruct a as [| |s], b as [| |t]; cbn; try (split; congruence).
  rewrite String.eqb_eq. split; congruence.
Qed.

Lemma from_port_true (c : Connection) (edge : Edge.t) :
  from_port c edge = true
  <-> Edge.source edge = source c /\ Edge.sourceHandle edge = sourceHandle c.
Proof.
  unfold from_port. rewrite andb_true_iff, String.eqb_eq, handle_eqb_eq. reflexivity.
Qed.

(** An edge the search of [onConnect] finds is on the port of the
    connection; with handle ids named alike, the search finds every such
    edge. *)
Lemma from_port_port (c : Connection) (edge : Edge.t) :
  from_port c edge = true -> port edge = port_of c.
Proof.
  intros [Hsource Hhandle]%from_port_true. unfold port, port_of. congruence.
Qed.

Lemma port_from_port (edges : list Edge.t) (c : Connection) (edge : Edge.t) :
  names_handle_alike edges c -> edge ∈ edges -> port edge = port_of c ->
  from_port c edge = true.
Proof.
  intros Halike Hin Hport. apply from_port_true.
  unfold names_handle_alike in Halike. rewrite Forall_forall in Halike.
  split; [by injection Hport | by apply Halike].
Qed.

Lemma hasIncomingEdge_false (edges : list Edge.t) (node : Node.t) :
  negb (hasIncomingEdge edges node) = true <-> no_incoming_edge edges node.
Proof.
  unfold hasIncomingEdge, no_incoming_edge.
  rewrite negb_true_iff. induction edges as [|e edges IH]; cbn.
  - split; [constructor | reflexivity].
  - rewrite orb_false_iff, IH, Forall_cons, String.eqb_neq. reflexivity.
Qed.

Lemma nodesWithoutTargets_entry_nodes (nodes : list Node.t) (edges : list Edge.t) :
  nodesWithoutTargets nodes edges = entry_nodes nodes edges.
Proof.
  apply filter_bool_prop. intros node _. apply hasIncomingEdge_false.
Qed.

(** C1: a flow of at most one node passes [validateFlow]; a flow of two or
    more nodes fails exactly when at least two of its nodes are the target
    of no edge. *)
Theorem validateFlow_counts_entry_nodes (nodes : list Node.t) (edges : list Edge.t) :
  (length nodes <= 1 -> isValid (validateFlow nodes edges) = true) /\
  (2 <= length nodes ->
   (isValid (validateFlow nodes edges) = false <->
    2 <= length (entry_nodes nodes edges))).
Proof.
  unfold validateFlow. rewrite nodesWithoutTargets_entry_nodes.
  destruct (Nat.leb_spec (length nodes) 1) as [Hle|Hgt].
  - split; [reflexivity | lia].
  - split; [lia | intros _].
    destruct (Nat.ltb_spec 1 (length (entry_nodes nodes edges))); cbn.
    + split; [lia | reflexivity].
    + split; [discriminate | lia].
Qed.

Lemma validateFlow_counts_entry_nodes_witness :
  isValid (validateFlow [message_node "A"] []) = true /\
  isValid (validateFlow [message_node "A"; message_node "B"; message_node "C"]
                        [link "e1" "A" "B"]) = false.
Proof.
  split.
  - apply (validateFlow_counts_entry_nodes [message_node "A"] []). cbn. lia.
  - apply (validateFlow_counts_entry_nodes
             [message_node "A"; message_node "B"; message_node "C"]
             [link "e1" "A" "B"]); vm_compute; lia.
Defined.

(** The scenario of the specification: A, B, C with the single edge A to B
    is rejected, and adding B to C makes it pass. *)
Example validateFlow_scenario :
  let nodes := [message_node "A"; message_node "B"; message_node "C"] in
  isValid (validateFlow nodes [link "e1" "A" "B"]) = false /\
  isValid (validateFlow nodes [link "e1" "A" "B"; link "e2" "B" "C"]) = true.
Proof. split; reflexivity. Qed.

(** C7: [deleteNode] keeps exactly the nodes with another id and exactly the
    edges that do not reference the node, in their order; no node with the
    id and no edge referencing it is left. *)
Theorem deleteNode_removes_node_and_its_edges
    (nodeId : string) (nodes : list Node.t) (edges : list Edge.t) :
  let st := deleteNode nodeId (nodes, edges) in
  fst st = filter (fun node => Node.id node <> nodeId) nodes /\
  snd st = filter (fun edge => ~ references nodeId edge) edges /\
  (forall node, node ∈ fst st -> Node.id node <> nodeId) /\
  (forall edge, edge ∈ snd st -> ~ references nodeId edge).
Proof.
  cbn. unfold deleteNode_nodes, deleteNode_edges.
  assert (Hn : List.filter (fun node => negb (String.eqb (Node.id node) nodeId)) nodes
               = filter (fun node => Node.id node <> nodeId) nodes).
  { apply filter_bool_prop. intros node _.
    rewrite negb_true_iff, String.eqb_neq. reflexivity. }
  assert (He : List.filter
                 (fun edge => negb (String.eqb (Edge.source edge) nodeId)
                              && negb (String.eqb (Edge.target edge) nodeId)) edges
               = filter (fun edge => ~ references nodeId edge) edges).
  { apply filter_bool_prop. intros edge _. unfold references.
    rewrite andb_true_iff, !negb_true_iff, !String.eqb_neq. tauto. }
  rewrite Hn, He. repeat split.
  - intros node Hin. apply list_elem_of_filter in Hin. tauto.
  - intros edge Hin. apply list_elem_of_filter in Hin. tauto.
Qed.

(** Under the data model of the edges, with handle ids named alike,
    connecting keeps the edges of the other ports and puts the new edge
    last. *)
Lemma onConnect_result (newId : string) (edges : list Edge.t) (c : Connection) :
  unique_ids edges -> single_outgoing edges -> names_handle_alike edges c ->
  onConnect newId edges c edges
  = (filter (fun edge => port edge <> port_of c) edges ++ [edge_of newId c])%list.
Proof.
  intros Hids Hports Halike. unfold onConnect, addEdge.
  destruct (List.find (from_port c) edges) as [existing|] eqn:Hfind; f_equal.
  - apply find_some_elem in Hfind as [Hin Hport]. apply from_port_port in Hport.
    apply filter_bool_prop. intros edge Hedge.
    rewrite negb_true_iff, String.eqb_neq. split.
    + intros Hid Hp. apply Hid. f_equal.
      apply (NoDup_fmap_elem_inj port edges); [assumption..|congruence].
    + intros Hp Hid. apply Hp.
      rewrite (NoDup_fmap_elem_inj Edge.id edges edge existing); assumption.
  - rewrite find_none_iff in Hfind. symmetry. apply filter_all.
    intros edge Hedge Hp.
    apply (port_from_port edges c edge Halike Hedge) in Hp.
    rewrite Hfind in Hp by assumption. discriminate.
Qed.

(** C2, as the code has it: on an edge array with unique ids and at most
    one edge per (source, sourceHandle), whose edges on the port of the
    connection carry the [sourceHandle] value of the connection, [onConnect]
    leaves exactly one edge on the port of the connection, the new one,
    keeps the edges of the other ports, and appends when the port was
    free. *)
Theorem onConnect_replaces_port
    (newId : string) (edges : list Edge.t) (c : Connection)
    (Hids : unique_ids edges) (Hports : single_outgoing edges)
    (Halike : names_handle_alike edges c) :
  replaces_port newId edges c.
Proof.
  unfold replaces_port. cbn zeta.
  rewrite onConnect_result by assumption.
  rewrite !filter_app, !list_filter_filter.
  assert (Hnew : port (edge_of newId c) = port_of c) by reflexivity.
  rewrite !filter_cons, !filter_nil.
  destruct (decide (port (edge_of newId c) = port_of c)); [|contradiction].
  destruct (decide (port (edge_of newId c) <> port_of c)); [contradiction|].
  repeat split.
  - rewrite filter_none; [reflexivity|]. tauto.
  - rewrite app_nil_r. apply list_filter_iff. tauto.
  - intros Hfree. f_equal. apply filter_all. exact Hfree.
Qed.

Lemma onConnect_replaces_port_witness :
  replaces_port "e2" [link "e1" "A" "B"] (connection "A" "C").
Proof.
  apply onConnect_replaces_port.
  - unfold unique_ids. apply (bool_decide_unpack _). vm_compute. reflexivity.
  - unfold single_outgoing. apply (bool_decide_unpack _). vm_compute. reflexivity.
  - unfold names_handle_alike. apply (bool_decide_unpack _). vm_compute. reflexivity.
Defined.

(** C2 as stated, for every edge array, fails in two ways.  With two edges
    on the port, only the edges carrying the id of the first are removed:
    the second edge from A stays next to the new one, and the edge from X,
    which shares the id of the first, is lost.  And an edge without the
    [sourceHandle] property is not found by a connection whose
    [sourceHandle] is [null], since [===] tells [undefined] from [null]: on
    an array that meets the data model the new edge is appended next to the
    edge that was on the port. *)
Lemma onConnect_replaces_port_counterexample :
  (let edges := [link "e1" "A" "B"; link "e2" "A" "C"; link "e1" "X" "Y"] in
   onConnect "e4" edges (connection "A" "D") edges
   = [link "e2" "A" "C"; link "e4" "A" "D"] /\
   ~ replaces_port "e4" edges (connection "A" "D")) /\
  (let edges := [bare_link "e1" "A" "B"] in
   unique_ids edges /\ single_outgoing edges /\
   onConnect "e2" edges (connection "A" "C") edges
   = [bare_link "e1" "A" "B"; link "e2" "A" "C"] /\
   ~ replaces_port "e2" edges (connection "A" "C")).
Proof.
  cbn zeta. split.
  - split; [reflexivity|].
    intros [Hone _]. vm_compute in Hone. discriminate Hone.
  - split; [unfold unique_ids; apply (bool_decide_unpack _); by vm_compute|].
    split; [unfold single_outgoing; apply (bool_decide_unpack _); by vm_compute|].
    split; [reflexivity|].
    intros [Hone _]. vm_compute in Hone. discriminate Hone.
Qed.

End FlowManagerFacts.

(** ** The storage manager *)

Module FlowStorageFacts.
Import FlowStorage.

(** *** Reading the slots *)

Lemma getItem_run (key : string) (w : World) :
  exists item,
    storageWrapper.getItem key w = (inr item, w) /\
    falsy_text item = falsy_text (slot key w) /\
    (falsy_text item = false -> item = slot key w).
Proof.
  unfold storageWrapper.getItem, bind, isLocalStorageAvailable, slot.
  destruct (available w); [eauto|].
  destruct (memoryStorage w !! key) as [t|]; [|eauto].
  destruct (falsy_text (Some t)) eqn:Hf.
  - exists None. split; [reflexivity|]. split; [reflexivity | discriminate].
  - exists (Some t). split; [reflexivity|]. split; [exact Hf | reflexivity].
Qed.

(** *** [loadBackup] *)

Lemma loadBackup_total (w : World) : exists b, loadBackup w = (inr b, w).
Proof.
  unfold loadBackup, try_catch, bind.
  destruct (getItem_run STORAGE_KEYS.BACKUP_FLOW w) as (item & -> & _ & _).
  destruct (falsy_text item); [cbn; eauto|].
  unfold lift. destruct (parse_item item); cbn; eauto.
Qed.

Lemma loadBackup_json (w : World) (v : jsval) :
  slot STORAGE_KEYS.BACKUP_FLOW w = Some (JsonText v) ->
  loadBackup w = (inr (succeeded v "Backup loaded successfully" None), w).
Proof.
  intros Hslot. unfold loadBackup, try_catch, bind.
  destruct (getItem_run STORAGE_KEYS.BACKUP_FLOW w) as (item & -> & Hf & Hitem).
  rewrite Hslot in Hf, Hitem. cbn in Hf. rewrite Hf.
  rewrite (Hitem Hf). reflexivity.
Qed.

Lemma loadBackup_absent (w : World) :
  falsy_text (slot STORAGE_KEYS.BACKUP_FLOW w) = true ->
  loadBackup w = (inr (failure "No backup available" NO_BACKUP None), w).
Proof.
  intros Hslot. unfold loadBackup, try_catch, bind.
  destruct (getItem_run STORAGE_KEYS.BACKUP_FLOW w) as (item & -> & Hf & _).
  rewrite Hslot in Hf. rewrite Hf. reflexivity.
Qed.

(** *** [getCurrentFlow] *)

Lemma getCurrentFlow_total (w : World) : exists r, getCurrentFlow w = (inr r, w).
Proof.
  unfold getCurrentFlow, try_catch, bind.
  destruct (getItem_run STORAGE_KEYS.CURRENT_FLOW w) as (item & -> & _ & _).
  destruct (falsy_text item); [cbn; eauto|].
  unfold lift. destruct (parse_item item) as [e|flowData].
  - destruct (String.eqb (name e) "SyntaxError"); cbn; eauto.
  - destruct (negb (Validation.isValid (validateFlowData flowData))); [|cbn; eauto].
    destruct (loadBackup_total w) as [b ->].
    destruct (Result.success b); cbn; eauto.
Qed.

Lemma getCurrentFlow_empty (w : World) :
  falsy_text (slot STORAGE_KEYS.CURRENT_FLOW w) = true ->
  getCurrentFlow w = (inr (succeeded JNull "No saved flow found" None), w).
Proof.
  intros Hslot. unfold getCurrentFlow, try_catch, bind.
  destruct (getItem_run STORAGE_KEYS.CURRENT_FLOW w) as (item & -> & Hf & _).
  rewrite Hslot in Hf. rewrite Hf. reflexivity.
Qed.

Lemma getCurrentFlow_valid (w : World) (v : jsval) :
  slot STORAGE_KEYS.CURRENT_FLOW w = Some (JsonText v) ->
  structurally_valid v ->
  getCurrentFlow w = (inr (succeeded v "Flow loaded successfully" None), w).
Proof.
  intros Hslot Hvalid. unfold getCurrentFlow, try_catch, bind.
  destruct (getItem_run STORAGE_KEYS.CURRENT_FLOW w) as (item & -> & Hf & Hitem).
  rewrite Hslot in Hf, Hitem. cbn in Hf. rewrite Hf, (Hitem Hf).
  unfold lift. cbn. rewrite Hvalid. reflexivity.
Qed.

Lemma getCurrentFlow_invalid (w : World) (v : jsval) (b : Result.t) :
  slot STORAGE_KEYS.CURRENT_FLOW w = Some (JsonText v) ->
  ~ structurally_valid v ->
  loadBackup w = (inr b, w) ->
  getCurrentFlow w =
  (inr (if Result.success b
        then succeeded (Result.data b)
               "Loaded from backup due to corrupted primary data"
               (Some "Primary flow data was corrupted")
        else failure ("Invalid flow data: "
                        ++ default "null" (Validation.error (validateFlowData v)))
               INVALID_DATA None), w).
Proof.
  intros Hslot Hinvalid Hb. unfold getCurrentFlow, try_catch, bind.
  destruct (getItem_run STORAGE_KEYS.CURRENT_FLOW w) as (item & -> & Hf & Hitem).
  rewrite Hslot in Hf, Hitem. cbn in Hf. rewrite Hf, (Hitem Hf).
  unfold lift. cbn. unfold structurally_valid in Hinvalid.
  destruct (Validation.isValid (validateFlowData v)); [contradiction|].
  cbn. rewrite Hb. destruct (Result.success b); reflexivity.
Qed.

Lemma getCurrentFlow_malformed (w : World) (s : string) :
  slot STORAGE_KEYS.CURRENT_FLOW w = Some (OtherText s) ->
  s <> EmptyString ->
  getCurrentFlow w =
  (inr (failure "Saved flow data is corrupted and cannot be loaded" PARSE_ERROR
                (Some "Unexpected token in JSON")), w).
Proof.
  intros Hslot Hs. unfold getCurrentFlow, try_catch, bind.
  destruct (getItem_run STORAGE_KEYS.CURRENT_FLOW w) as (item & -> & Hf & Hitem).
  rewrite Hslot in Hf, Hitem. cbn in Hf.
  apply String.eqb_neq in Hs. rewrite Hs in Hf. rewrite Hf, (Hitem Hf).
  reflexivity.
Qed.

(** C8: with nothing in the current slot, [getCurrentFlow] reports success
    with [null] data, and neither an error nor an error code. *)
Theorem getCurrentFlow_nothing_saved (w : World)
    (Hempty : slot STORAGE_KEYS.CURRENT_FLOW w = None) :
  exists r,
    getCurrentFlow w = (inr r, w) /\
    Result.success r = true /\ Result.data r = JNull /\
    Result.error r = None /\ Result.code r = None.
Proof.
  exists (succeeded JNull "No saved flow found" None).
  split; [|by repeat split].
  apply getCurrentFlow_empty. rewrite Hempty. reflexivity.
Qed.

Lemma getCurrentFlow_nothing_saved_witness :
  exists r,
    getCurrentFlow fresh_browser = (inr r, fresh_browser) /\
    Result.success r = true /\ Result.data r = JNull /\
    Result.error r = None /\ Result.code r = None.
Proof.
  apply (getCurrentFlow_nothing_saved fresh_browser). reflexivity.
Defined.

(** C3, as the code has it: when the current slot holds JSON that fails
    structural validation, [getCurrentFlow] loads the backup and returns
    its data with a warning, failing only when the backup does not load;
    when the current slot holds text that is not JSON, it reports
    [PARSE_ERROR] and does not look at the backup. *)
Theorem getCurrentFlow_corrupted (w : World) (t : text)
    (Hslot : slot STORAGE_KEYS.CURRENT_FLOW w = Some t)
    (Hcorrupted : corrupted t) :
  match t with
  | JsonText _ =>
      recovers_from_backup w /\
      forall r, getCurrentFlow w = (inr r, w) -> Result.success r = false ->
                Result.code r = Some INVALID_DATA
  | OtherText _ =>
      exists r, getCurrentFlow w = (inr r, w) /\
                Result.success r = false /\ Result.code r = Some PARSE_ERROR
  end.
Proof.
  destruct t as [v|s]; cbn in Hcorrupted.
  - destruct (loadBackup_total w) as [b Hb].
    pose proof (getCurrentFlow_invalid w v b Hslot Hcorrupted Hb) as Hrun.
    split.
    + eexists _, b. split; [exact Hrun|]. split; [by rewrite Hb|].
      destruct (Result.success b); cbn; eauto.
    + intros r Hr Hfail. rewrite Hrun in Hr. injection Hr as <-.
      destruct (Result.success b); [discriminate | reflexivity].
  - eexists. split; [exact (getCurrentFlow_malformed w s Hslot Hcorrupted)|].
    by split.
Qed.

Lemma getCurrentFlow_corrupted_witness :
  recovers_from_backup (browser_with (JsonText null_node_flow) (JsonText small_flow)).
Proof.
  apply (getCurrentFlow_corrupted
           (browser_with (JsonText null_node_flow) (JsonText small_flow))
           (JsonText null_node_flow)).
  - reflexivity.
  - cbn. unfold structurally_valid. vm_compute. discriminate.
Defined.

(** C3 as stated fails on text that is not JSON: the backup loads, and
    [getCurrentFlow] reports [PARSE_ERROR] all the same. *)
Lemma getCurrentFlow_corrupted_counterexample :
  let w := browser_with (OtherText "{ nodes: [") (JsonText small_flow) in
  slot STORAGE_KEYS.CURRENT_FLOW w = Some (OtherText "{ nodes: [") /\
  corrupted (OtherText "{ nodes: [") /\
  fst (loadBackup w) = inr (succeeded small_flow "Backup loaded successfully" None) /\
  (exists r, fst (getCurrentFlow w) = inr r /\
             Result.success r = false /\ Result.code r = Some PARSE_ERROR) /\
  ~ recovers_from_backup w.
Proof.
  cbn zeta. split; [reflexivity|]. split; [discriminate|].
  split; [reflexivity|]. split; [eexists; by repeat split|].
  intros (r & b & Hr & Hb & Hrec).
  rewrite (loadBackup_json _ small_flow) in Hb by reflexivity.
  injection Hb as <-. cbn in Hrec. destruct Hrec as (Hsucc & _).
  rewrite (getCurrentFlow_malformed _ "{ nodes: [") in Hr by (reflexivity || discriminate).
  injection Hr as <-. discriminate Hsucc.
Qed.

(** C10: there are a current slot and a backup slot, both holding JSON that
    fails structural validation, for which [getCurrentFlow] reports success
    and returns the data of the backup. *)
Theorem getCurrentFlow_returns_unvalidated_backup :
  exists (w : World) (current backup : jsval),
    slot STORAGE_KEYS.CURRENT_FLOW w = Some (JsonText current) /\
    ~ structurally_valid current /\
    slot STORAGE_KEYS.BACKUP_FLOW w = Some (JsonText backup) /\
    ~ structurally_valid backup /\
    exists r, getCurrentFlow w = (inr r, w) /\
              Result.success r = true /\ Result.data r = backup.
Proof.
  exists (browser_with (JsonText null_node_flow) (JsonText edgeless_record)),
         null_node_flow, edgeless_record.
  assert (Hcur : ~ structurally_valid null_node_flow)
    by by_evaluation.
  assert (Hbak : ~ structurally_valid edgeless_record)
    by by_evaluation.
  split; [reflexivity|]. split; [exact Hcur|].
  split; [reflexivity|]. split; [exact Hbak|].
  eexists. split.
  - eapply getCurrentFlow_invalid; [reflexivity | exact Hcur |].
    apply (loadBackup_json _ edgeless_record). reflexivity.
  - cbn. split; reflexivity.
Qed.

(** Whatever JSON the backup slot holds is returned as it is when the
    current slot fails validation: [loadBackup] never validates. *)
Lemma getCurrentFlow_backup_unchecked (w : World) (current backup : jsval) :
  slot STORAGE_KEYS.CURRENT_FLOW w = Some (JsonText current) ->
  ~ structurally_valid current ->
  slot STORAGE_KEYS.BACKUP_FLOW w = Some (JsonText backup) ->
  getCurrentFlow w =
  (inr (succeeded backup "Loaded from backup due to corrupted primary data"
                  (Some "Primary flow data was corrupted")), w).
Proof.
  intros Hcur Hinvalid Hbak.
  rewrite (getCurrentFlow_invalid w current _ Hcur Hinvalid (loadBackup_json w backup Hbak)).
  reflexivity.
Qed.

(** *** [validateFlowData] *)

Lemma non_null_object_spec (v : jsval) :
  negb (truthy v) || negb (String.eqb (typeof v) "object") = false <->
  non_null_object v.
Proof.
  unfold non_null_object.
  destruct v as [| |b|n|s|l|m]; cbn; rewrite ?orb_true_r;
    (split; [intros H | intros [H1 H2]]);
    try discriminate; try congruence; try (split; [discriminate | reflexivity]).
Qed.

Lemma get_readable (v : jsval) (k : string) :
  nullish v = false -> get v k = inr (get_own v k).
Proof. destruct v; cbn; (discriminate || reflexivity). Qed.

Lemma truthy_readable (v : jsval) : truthy v = true -> nullish v = false.
Proof. destruct v; cbn; (discriminate || reflexivity). Qed.

Lemma has_readable (v : jsval) (k : string) : has v k -> nullish v = false.
Proof. unfold has. destruct v; cbn; (discriminate || reflexivity). Qed.

Lemma typeof_number (v : jsval) :
  String.eqb (typeof v) "number" = true <-> numeric v.
Proof. unfold numeric. apply String.eqb_eq. Qed.

Lemma node_missing_fields_readable (node : jsval) :
  nullish node = false ->
  node_missing_fields node
  = inr (negb (truthy (get_own node "id") && truthy (get_own node "type")
               && truthy (get_own node "position"))).
Proof.
  intros Hr. unfold node_missing_fields, or_else, lacks, bindE.
  rewrite !get_readable by assumption.
  destruct (truthy (get_own node "id")), (truthy (get_own node "type")),
    (truthy (get_own node "position")); reflexivity.
Qed.

Lemma node_invalid_position_readable (node : jsval) :
  nullish node = false ->
  truthy (get_own node "position") = true ->
  node_invalid_position node
  = inr (negb (String.eqb (typeof (get_own node "position")) "object"
               && String.eqb (typeof (get_own (get_own node "position") "x")) "number"
               && String.eqb (typeof (get_own (get_own node "position") "y")) "number")).
Proof.
  intros Hr Hp. unfold node_invalid_position, or_else, typeof_differs, bindE.
  rewrite get_readable by assumption.
  rewrite !get_readable by (by apply truthy_readable).
  destruct (String.eqb (typeof (get_own node "position")) "object"),
    (String.eqb (typeof (get_own (get_own node "position") "x")) "number"),
    (String.eqb (typeof (get_own (get_own node "position") "y")) "number");
    reflexivity.
Qed.

Lemma edge_missing_fields_readable (edge : jsval) :
  nullish edge = false ->
  edge_missing_fields edge
  = inr (negb (truthy (get_own edge "id") && truthy (get_own edge "source")
               && truthy (get_own edge "target"))).
Proof.
  intros Hr. unfold edge_missing_fields, or_else, lacks, bindE.
  rewrite !get_readable by assumption.
  destruct (truthy (get_own edge "id")), (truthy (get_own edge "source")),
    (truthy (get_own edge "target")); reflexivity.
Qed.

Lemma non_null_object_truthy (v : jsval) :
  non_null_object v <->
  truthy v = true /\ String.eqb (typeof v) "object" = true.
Proof.
  rewrite <- non_null_object_spec, orb_false_iff, !negb_false_iff. reflexivity.
Qed.

Lemma well_formed_node_iff (node : jsval) :
  well_formed_node node <->
  nullish node = false /\
  truthy (get_own node "id") && truthy (get_own node "type")
    && truthy (get_own node "position") = true /\
  String.eqb (typeof (get_own node "position")) "object"
    && String.eqb (typeof (get_own (get_own node "position") "x")) "number"
    && String.eqb (typeof (get_own (get_own node "position") "y")) "number" = true.
Proof.
  unfold well_formed_node. rewrite non_null_object_truthy, <- !typeof_number.
  rewrite !andb_true_iff. unfold has. split.
  - intros (Hid & Hty & (Hp & Ho) & Hx & Hy).
    split; [by apply (has_readable node "id")|]. tauto.
  - tauto.
Qed.

Lemma well_formed_edge_iff (edge : jsval) :
  well_formed_edge edge <->
  nullish edge = false /\
  truthy (get_own edge "id") && truthy (get_own edge "source")
    && truthy (get_own edge "target") = true.
Proof.
  unfold well_formed_edge. rewrite !andb_true_iff. unfold has. split.
  - intros (Hid & Hs & Ht). split; [by apply (has_readable edge "id")|]. tauto.
  - tauto.
Qed.

Lemma well_formed_node_decide (node : jsval) :
  well_formed_node node \/ ~ well_formed_node node.
Proof.
  rewrite well_formed_node_iff.
  destruct (nullish node), (truthy (get_own node "id") && truthy (get_own node "type")
                            && truthy (get_own node "position")),
    (String.eqb (typeof (get_own node "position")) "object"
     && String.eqb (typeof (get_own (get_own node "position") "x")) "number"
     && String.eqb (typeof (get_own (get_own node "position") "y")) "number");
    (left; by repeat split) || (right; intros (? & ? & ?); discriminate).
Qed.

Lemma well_formed_edge_decide (edge : jsval) :
  well_formed_edge edge \/ ~ well_formed_edge edge.
Proof.
  rewrite well_formed_edge_iff.
  destruct (nullish edge), (truthy (get_own edge "id") && truthy (get_own edge "source")
                            && truthy (get_own edge "target"));
    (left; by repeat split) || (right; intros (? & ?); discriminate).
Qed.

(** One turn of the loop over the nodes. *)
Lemma validate_nodes_step (i : nat) (node : jsval) (rest : list jsval) :
  well_formed_node node ->
  validate_nodes i (node :: rest) = validate_nodes (S i) rest.
Proof.
  intros (Hr & Hfields & Hpos)%well_formed_node_iff. cbn [validate_nodes].
  rewrite node_missing_fields_readable by assumption. rewrite Hfields. cbn.
  apply andb_true_iff in Hfields as [_ Hp].
  rewrite node_invalid_position_readable by assumption. rewrite Hpos. reflexivity.
Qed.

Lemma validate_nodes_offence (i : nat) (node : jsval) (rest : list jsval) :
  ~ well_formed_node node ->
  validate_nodes i (node :: rest)
  = match get node "id" with
    | inl e => inl e
    | inr _ => inr (Some (invalid (node_report i node)))
    end.
Proof.
  intros Hbad. destruct (nullish node) eqn:Hr.
  - destruct node; try discriminate Hr; reflexivity.
  - rewrite well_formed_node_iff in Hbad. cbn [validate_nodes].
    rewrite node_missing_fields_readable, (get_readable node "id") by assumption.
    unfold node_report. rewrite Hr.
    destruct (truthy (get_own node "id") && truthy (get_own node "type")
              && truthy (get_own node "position")) eqn:Hfields; [|reflexivity].
    cbn. pose proof Hfields as Hp. apply andb_true_iff in Hp as [_ Hp].
    rewrite node_invalid_position_readable by assumption.
    destruct (String.eqb (typeof (get_own node "position")) "object"
              && String.eqb (typeof (get_own (get_own node "position") "x")) "number"
              && String.eqb (typeof (get_own (get_own node "position") "y")) "number");
      [|reflexivity].
    exfalso. apply Hbad. by repeat split.
Qed.

Lemma validate_nodes_skip (i : nat) (before rest : list jsval) :
  Forall well_formed_node before ->
  validate_nodes i (before ++ rest) = validate_nodes (i + length before) rest.
Proof.
  intros Hok. revert i. induction Hok as [|node before Hnode _ IH]; intros i; cbn [app length].
  - f_equal. lia.
  - rewrite validate_nodes_step by assumption. rewrite IH. f_equal. lia.
Qed.

Lemma validate_nodes_pass (i : nat) (nodes : list jsval) :
  validate_nodes i nodes = inr None <-> Forall well_formed_node nodes.
Proof.
  revert i. induction nodes as [|node nodes IH]; intros i.
  - split; [constructor | reflexivity].
  - destruct (well_formed_node_decide node) as [Hok|Hbad].
    + rewrite validate_nodes_step, IH, Forall_cons by assumption. tauto.
    + rewrite validate_nodes_offence by assumption. split.
      * destruct (get node "id"); discriminate.
      * intros H. apply Forall_cons in H as [H _]. contradiction.
Qed.

(** One turn of the loop over the edges. *)
Lemma validate_edges_step (i : nat) (edge : jsval) (rest : list jsval) :
  well_formed_edge edge ->
  validate_edges i (edge :: rest) = validate_edges (S i) rest.
Proof.
  intros (Hr & Hfields)%well_formed_edge_iff. cbn [validate_edges].
  rewrite edge_missing_fields_readable by assumption. rewrite Hfields. reflexivity.
Qed.

Lemma validate_edges_offence (i : nat) (edge : jsval) (rest : list jsval) :
  ~ well_formed_edge edge ->
  validate_edges i (edge :: rest)
  = match get edge "id" with
    | inl e => inl e
    | inr _ => inr (Some (invalid (edge_report i edge)))
    end.
Proof.
  intros Hbad. destruct (nullish edge) eqn:Hr.
  - destruct edge; try discriminate Hr; reflexivity.
  - rewrite well_formed_edge_iff in Hbad. cbn [validate_edges].
    rewrite edge_missing_fields_readable, (get_readable edge "id") by assumption.
    unfold edge_report. rewrite Hr.
    destruct (truthy (get_own edge "id") && truthy (get_own edge "source")
              && truthy (get_own edge "target")); [|reflexivity].
    exfalso. apply Hbad. by split.
Qed.

Lemma validate_edges_skip (i : nat) (before rest : list jsval) :
  Forall well_formed_edge before ->
  validate_edges i (before ++ rest) = validate_edges (i + length before) rest.
Proof.
  intros Hok. revert i. induction Hok as [|edge before Hedge _ IH]; intros i; cbn [app length].
  - f_equal. lia.
  - rewrite validate_edges_step by assumption. rewrite IH. f_equal. lia.
Qed.

Lemma validate_edges_pass (i : nat) (edges : list jsval) :
  validate_edges i edges = inr None <-> Forall well_formed_edge edges.
Proof.
  revert i. induction edges as [|edge edges IH]; intros i.
  - split; [constructor | reflexivity].
  - destruct (well_formed_edge_decide edge) as [Hok|Hbad].
    + rewrite validate_edges_step, IH, Forall_cons by assumption. tauto.
    + rewrite validate_edges_offence by assumption. split.
      * destruct (get edge "id"); discriminate.
      * intros H. apply Forall_cons in H as [H _]. contradiction.
Qed.

(** The [try] block on a flow whose [nodes] and [edges] are arrays. *)
Lemma validateFlowData_body_arrays (flow : jsval) (nodes edges : list jsval) :
  non_null_object flow ->
  get_own flow "nodes" = JArr nodes -> get_own flow "edges" = JArr edges ->
  validateFlowData_body flow
  = match validate_nodes 0 nodes with
    | inl e => inl e
    | inr (Some v) => inr v
    | inr None =>
        match validate_edges 0 edges with
        | inl e => inl e
        | inr (Some v) => inr v
        | inr None => inr {| Validation.isValid := true; Validation.error := None |}
        end
    end.
Proof.
  intros Hobj Hnodes Hedges. unfold validateFlowData_body.
  pose proof Hobj as Hguard. apply non_null_object_spec in Hguard. rewrite Hguard.
  apply non_null_object_truthy in Hobj as [Hobj _].
  rewrite !get_readable by (by apply truthy_readable).
  rewrite Hnodes, Hedges. cbn.
  destruct (validate_nodes 0 nodes) as [e|[v|]]; cbn; try reflexivity.
Qed.

Lemma validateFlowData_report_node (flow : jsval) (nodes edges : list jsval)
    (i : nat) (node : jsval) :
  non_null_object flow ->
  get_own flow "nodes" = JArr nodes -> get_own flow "edges" = JArr edges ->
  first_offender well_formed_node nodes i node ->
  validateFlowData flow = invalid (node_report i node).
Proof.
  intros Hobj Hnodes Hedges Hfirst. unfold validateFlowData.
  rewrite (validateFlowData_body_arrays flow nodes edges) by assumption.
  pose proof Hfirst as (_ & Hbad & _).
  apply first_offender_split in Hfirst as (before & rest & -> & Hbefore & <-).
  rewrite validate_nodes_skip, validate_nodes_offence by assumption. cbn.
  unfold node_report, unreadable_message.
  destruct node; reflexivity.
Qed.

Lemma validateFlowData_report_edge (flow : jsval) (nodes edges : list jsval)
    (i : nat) (edge : jsval) :
  non_null_object flow ->
  get_own flow "nodes" = JArr nodes -> get_own flow "edges" = JArr edges ->
  Forall well_formed_node nodes ->
  first_offender well_formed_edge edges i edge ->
  validateFlowData flow = invalid (edge_report i edge).
Proof.
  intros Hobj Hnodes Hedges Hok Hfirst. unfold validateFlowData.
  rewrite (validateFlowData_body_arrays flow nodes edges) by assumption.
  apply (validate_nodes_pass 0) in Hok. rewrite Hok.
  pose proof Hfirst as (_ & Hbad & _).
  apply first_offender_split in Hfirst as (before & rest & -> & Hbefore & <-).
  rewrite validate_edges_skip, validate_edges_offence by assumption. cbn.
  unfold edge_report, unreadable_message.
  destruct edge; reflexivity.
Qed.

Lemma validateFlowData_pass (flow : jsval) :
  well_formed_flow flow ->
  validateFlowData flow = {| Validation.isValid := true; Validation.error := None |}.
Proof.
  intros (Hobj & nodes & edges & Hnodes & Hedges & Hn & He). unfold validateFlowData.
  rewrite (validateFlowData_body_arrays flow nodes edges) by assumption.
  apply (validate_nodes_pass 0) in Hn. apply (validate_edges_pass 0) in He.
  rewrite Hn, He. reflexivity.
Qed.

Lemma validateFlowData_sound (flow : jsval) :
  structurally_valid flow -> well_formed_flow flow.
Proof.
  unfold structurally_valid. intros Hvalid.
  assert (Hobj : non_null_object flow).
  { apply non_null_object_spec.
    destruct (negb (truthy flow) || negb (String.eqb (typeof flow) "object")) eqn:Hg;
      [|reflexivity].
    unfold validateFlowData, validateFlowData_body in Hvalid.
    rewrite Hg in Hvalid. discriminate. }
  pose proof Hobj as Hguard. apply non_null_object_spec in Hguard.
  pose proof Hobj as [Htruthy _]%non_null_object_truthy.
  apply truthy_readable in Htruthy.
  destruct (get_own flow "nodes") as [| | | | |nodes|] eqn:Hnodes;
    try (unfold validateFlowData, validateFlowData_body in Hvalid;
         rewrite Hguard, !get_readable, Hnodes in Hvalid by assumption;
         discriminate).
  destruct (get_own flow "edges") as [| | | | |edges|] eqn:Hedges;
    try (unfold validateFlowData, validateFlowData_body in Hvalid;
         rewrite Hguard, !get_readable, Hnodes, Hedges in Hvalid by assumption;
         discriminate).
  split; [exact Hobj|]. exists nodes, edges.
  split; [exact Hnodes|]. split; [exact Hedges|].
  destruct (first_offender_exists well_formed_node nodes well_formed_node_decide)
    as [Hn|(i & node & Hfirst)].
  - split; [exact Hn|].
    destruct (first_offender_exists well_formed_edge edges well_formed_edge_decide)
      as [He|(i & edge & Hfirst)]; [exact He|].
    rewrite (validateFlowData_report_edge flow nodes edges i edge) in Hvalid
      by assumption.
    discriminate.
  - rewrite (validateFlowData_report_node flow nodes edges i node) in Hvalid
      by assumption.
    discriminate.
Qed.

(** C9, as the code has it: [validateFlowData] accepts exactly the
    well-formed flows; on a flow whose nodes and edges are arrays it
    rejects with the report on the first offending node, or else on the
    first offending edge: the index with the kind of fault, or, for an
    element that is [undefined] or [null], the message of the runtime and
    no index. *)
Theorem validateFlowData_characterised (flow : jsval) :
  (structurally_valid flow <-> well_formed_flow flow) /\
  (forall nodes edges,
     non_null_object flow ->
     get_own flow "nodes" = JArr nodes -> get_own flow "edges" = JArr edges ->
     (forall i node, first_offender well_formed_node nodes i node ->
        validateFlowData flow = invalid (node_report i node)) /\
     (Forall well_formed_node nodes ->
      forall i edge, first_offender well_formed_edge edges i edge ->
        validateFlowData flow = invalid (edge_report i edge))).
Proof.
  split.
  - split; [apply validateFlowData_sound|].
    intros Hwf. unfold structurally_valid. by rewrite validateFlowData_pass.
  - intros nodes edges Hobj Hnodes Hedges. split.
    + intros i node. by apply (validateFlowData_report_node flow nodes edges).
    + intros Hok i edge. by apply (validateFlowData_report_edge flow nodes edges).
Qed.

Lemma validateFlowData_characterised_witness :
  structurally_valid small_flow /\
  validateFlowData untyped_node_flow = invalid (node_missing_message 1).
Proof.
  split.
  - apply (validateFlowData_characterised small_flow).
    split; [split; [discriminate | reflexivity]|].
    eexists _, _. split; [reflexivity|]. split; [reflexivity|].
    split; repeat constructor; try discriminate; vm_compute; reflexivity.
  - destruct (proj2 (validateFlowData_characterised untyped_node_flow)
                [node_at "n1" (num 0) (num 0);
                 obj [("id", JStr "n2"); ("position", obj [("x", num 1); ("y", num 2)])]]
                [])
      as [Hnode _];
      [split; [discriminate | reflexivity] | reflexivity | reflexivity |].
    rewrite (Hnode 1 (obj [("id", JStr "n2");
                           ("position", obj [("x", num 1); ("y", num 2)])])).
    + vm_compute. reflexivity.
    + split; [reflexivity|]. split.
      * intros (_ & Htype & _). vm_compute in Htype. discriminate Htype.
      * intros [|j] y Hj Hy; [|lia]. injection Hy as <-.
        repeat constructor; try discriminate; vm_compute; reflexivity.
Defined.

(** C9 as stated fails on a [null] element: the report carries no index. *)
Lemma validateFlowData_report_counterexample :
  validateFlowData null_node_flow
  = invalid "Validation error: Cannot read properties of null (reading 'id')" /\
  ~ reports_first_offender null_node_flow.
Proof.
  split; [reflexivity|]. intros Hclaim.
  destruct (Hclaim [JNull] []) as [Hnode _];
    [split; [discriminate | reflexivity] | reflexivity | reflexivity |].
  destruct (Hnode 0 JNull) as [Hreport|Hreport].
  - split; [reflexivity|]. split; [|lia].
    intros (Hid & _). discriminate Hid.
  - vm_compute in Hreport. discriminate Hreport.
  - vm_compute in Hreport. discriminate Hreport.
Qed.

(** *** [createBackup] and [saveCurrentFlow], statement by statement *)

Lemma createBackup_run (flowData : jsval) (w : World) :
  let copy := JSON_stringify (backupData flowData (dates w (elapsed w))) in
  createBackup flowData w
  = if available w then
      match refuses w STORAGE_KEYS.BACKUP_FLOW copy with
      | Some _ => (inr false, tick w)
      | None =>
          (inr true, set_localStorage <[STORAGE_KEYS.BACKUP_FLOW := copy]> (tick w))
      end
    else (inr true, set_memoryStorage <[STORAGE_KEYS.BACKUP_FLOW := copy]> (tick w)).
Proof.
  unfold createBackup, try_catch, bind, now, storageWrapper.setItem, bind,
    isLocalStorageAvailable, ret. cbn.
  destruct (available w); [|reflexivity].
  change (refuses (tick w)) with (refuses w).
  destruct (refuses w _ _); reflexivity.
Qed.

Lemma differ_on_backup_only_refl (w : World) : differ_on_backup_only w w.
Proof. by repeat split. Qed.

Lemma createBackup_frame (flowData : jsval) (w : World) :
  exists b, fst (createBackup flowData w) = inr b /\
            differ_on_backup_only w (snd (createBackup flowData w)) /\
            elapsed (snd (createBackup flowData w)) = S (elapsed w).
Proof.
  rewrite createBackup_run. cbn zeta. unfold differ_on_backup_only.
  destruct w as [av rf ls ms ds el]. cbn.
  destruct av; [destruct (rf _ _)|]; cbn;
    (eexists; split; [reflexivity|]; split; [|reflexivity]);
    (split; [reflexivity|]; split; [reflexivity|]; split; [reflexivity|]);
    intros key Hkey; rewrite ?lookup_insert_ne by congruence; by split.
Qed.

Lemma backupExistingFlow_frame (w : World) :
  exists b w1, backupExistingFlow w = (inr b, w1) /\ differ_on_backup_only w w1.
Proof.
  unfold backupExistingFlow, bind.
  destruct (getCurrentFlow_total w) as [r ->].
  destruct (Result.success r && truthy (Result.data r)).
  - destruct (createBackup_frame (Result.data r) w) as (b & Hb & Hframe & _).
    exists b, (snd (createBackup (Result.data r) w)). split; [|exact Hframe].
    destruct (createBackup (Result.data r) w) as [res w1]. cbn in *. by subst.
  - exists false, w. split; [reflexivity | apply differ_on_backup_only_refl].
Qed.

(** When the existing flow loads and the medium takes the write, the backup
    slot holds the tagged copy of what was loaded. *)
Lemma backupExistingFlow_copies (w : World) (r : Result.t) :
  getCurrentFlow w = (inr r, w) ->
  Result.success r = true -> truthy (Result.data r) = true ->
  let copy := JSON_stringify (backupData (Result.data r) (dates w (elapsed w))) in
  refuses w STORAGE_KEYS.BACKUP_FLOW copy = None ->
  slot STORAGE_KEYS.BACKUP_FLOW (snd (backupExistingFlow w)) = Some copy.
Proof.
  intros Hr Hsucc Htruthy copy Haccept.
  unfold backupExistingFlow, bind. rewrite Hr, Hsucc, Htruthy. cbn [andb].
  rewrite createBackup_run. cbn zeta. fold copy. unfold slot.
  destruct (available w) eqn:Ha; [rewrite Haccept|]; cbn; rewrite Ha;
    apply lookup_insert_eq.
Qed.

(** [saveCurrentFlow] after the backup of the existing flow. *)
Lemma saveCurrentFlow_run (flow : jsval) (w w1 : World) (b : bool) :
  backupExistingFlow w = (inr b, w1) ->
  saveCurrentFlow flow w
  = match get flow "metadata" with
    | inl e => (inr (save_failure e), w1)
    | inr md =>
        let enhanced :=
          enhancedFlowData flow md (dates w1 (elapsed w1)) (dates w1 (S (elapsed w1))) in
        let w2 := tick (tick w1) in
        if negb (Validation.isValid (validateFlowData (JObj enhanced))) then
          (inr (failure ("Flow validation failed: "
                           ++ default "null"
                                (Validation.error (validateFlowData (JObj enhanced))))
                        VALIDATION_ERROR None), w2)
        else if negb (available w1) then
          (inr (failure
                  "Local storage is not available in your browser. Changes will be lost when you close the tab."
                  STORAGE_NOT_SUPPORTED None), w2)
        else
          match refuses w1 STORAGE_KEYS.CURRENT_FLOW (JSON_stringify enhanced) with
          | Some e => (inr (save_failure e), w2)
          | None =>
              (inr (succeeded (JObj enhanced) "Flow saved successfully" None),
               set_localStorage
                 <[STORAGE_KEYS.CURRENT_FLOW := JSON_stringify enhanced]> w2)
          end
    end.
Proof.
  intros Hbackup. unfold saveCurrentFlow, try_catch. unfold bind at 1.
  rewrite Hbackup. unfold bind at 1. unfold lift at 1.
  destruct (get flow "metadata") as [e|md]; [reflexivity|].
  unfold bind at 1, now at 1. unfold bind at 1, now at 1. cbn zeta.
  cbn [dates elapsed tick].
  destruct (negb (Validation.isValid (validateFlowData _))); [reflexivity|].
  unfold bind at 1, isLocalStorageAvailable at 1. cbn [available tick].
  destruct (available w1) eqn:Ha; [|reflexivity]. cbn [negb].
  unfold bind at 1, storageWrapper.setItem, bind at 1, isLocalStorageAvailable at 1.
  cbn [available tick]. rewrite Ha.
  change (refuses (tick (tick w1))) with (refuses w1).
  destruct (refuses w1 _ _) as [e|]; [reflexivity|].
  unfold bind at 1, storageWrapper.getItem, bind at 1, isLocalStorageAvailable at 1.
  cbn [available tick set_localStorage localStorage]. rewrite Ha.
  unfold set_localStorage at 1. cbn [localStorage].
  rewrite lookup_insert_eq. reflexivity.
Qed.

(** Validation of an object looks at its [nodes] and [edges] only. *)
Lemma validateFlowData_object_ext (m m' : gmap string jsval) :
  m !! "nodes" = m' !! "nodes" -> m !! "edges" = m' !! "edges" ->
  validateFlowData (JObj m) = validateFlowData (JObj m').
Proof.
  intros Hnodes Hedges. unfold validateFlowData, validateFlowData_body. cbn.
  rewrite Hnodes, Hedges. reflexivity.
Qed.

Lemma enhancedFlowData_lookup (flow metadata : jsval) (savedAt lastModified key : string) :
  key <> "metadata" ->
  enhancedFlowData flow metadata savedAt lastModified !! key = own_props flow !! key.
Proof. intros Hkey. unfold enhancedFlowData. by rewrite lookup_insert_ne. Qed.

(** The time stamps play no part in the validation of the stamped flow. *)
Lemma validateFlowData_enhanced (flow metadata : jsval) (s l s' l' : string) :
  validateFlowData (JObj (enhancedFlowData flow metadata s l))
  = validateFlowData (JObj (enhancedFlowData flow metadata s' l')).
Proof.
  apply validateFlowData_object_ext; by rewrite !enhancedFlowData_lookup.
Qed.

Lemma differ_on_backup_only_slot (w w' : World) (key : string) :
  differ_on_backup_only w w' -> key <> STORAGE_KEYS.BACKUP_FLOW ->
  slot key w' = slot key w.
Proof.
  intros (Ha & _ & _ & Hslots) Hkey. unfold slot. rewrite Ha.
  destruct (Hslots key Hkey) as [-> ->]. reflexivity.
Qed.

(** C4: a flow whose stamped form fails structural validation is rejected
    with [VALIDATION_ERROR]; the current slot, and every slot but the
    backup slot, is as it was; the backup of the flow that was current has
    been written by then. *)
Theorem saveCurrentFlow_rejects_invalid
    (flow metadata : jsval) (savedAt lastModified : string) (w : World)
    (Hmetadata : get flow "metadata" = inr metadata)
    (Hinvalid : ~ structurally_valid
                    (JObj (enhancedFlowData flow metadata savedAt lastModified))) :
  let w' := after (saveCurrentFlow flow) w in
  (exists r, fst (saveCurrentFlow flow w) = inr r /\
             Result.success r = false /\ Result.code r = Some VALIDATION_ERROR) /\
  slot STORAGE_KEYS.CURRENT_FLOW w' = slot STORAGE_KEYS.CURRENT_FLOW w /\
  differ_on_backup_only w w' /\
  (forall existing,
     getCurrentFlow w = (inr existing, w) ->
     Result.success existing = true -> truthy (Result.data existing) = true ->
     let copy :=
       JSON_stringify (backupData (Result.data existing) (dates w (elapsed w))) in
     refuses w STORAGE_KEYS.BACKUP_FLOW copy = None ->
     slot STORAGE_KEYS.BACKUP_FLOW w' = Some copy).
Proof.
  destruct (backupExistingFlow_frame w) as (b & w1 & Hbackup & Hframe).
  unfold after. rewrite (saveCurrentFlow_run flow w w1 b Hbackup), Hmetadata.
  cbn zeta.
  rewrite (validateFlowData_enhanced flow metadata _ _ savedAt lastModified).
  unfold structurally_valid in Hinvalid.
  destruct (Validation.isValid (validateFlowData _)); [contradiction|].
  cbn [negb fst snd].
  assert (Hframe' : differ_on_backup_only w (tick (tick w1))) by exact Hframe.
  split; [eexists; split; [reflexivity|]; by split|].
  split; [by apply differ_on_backup_only_slot|].
  split; [exact Hframe'|].
  intros existing Hexisting Hsucc Htruthy Haccept.
  pose proof (backupExistingFlow_copies w existing Hexisting Hsucc Htruthy Haccept)
    as Hcopy.
  rewrite Hbackup in Hcopy. exact Hcopy.
Qed.

(** A flow that is [null] has no stamped form: reading its metadata throws,
    and the save reports [UNKNOWN_ERROR]. *)
Example saveCurrentFlow_null :
  exists r, fst (saveCurrentFlow JNull fresh_browser) = inr r /\
            Result.success r = false /\ Result.code r = Some UNKNOWN_ERROR.
Proof. eexists. by repeat split. Qed.

Lemma saveCurrentFlow_rejects_invalid_witness :
  let w := browser_with (JsonText small_flow) (OtherText EmptyString) in
  let w' := after (saveCurrentFlow null_node_flow) w in
  (exists r, fst (saveCurrentFlow null_node_flow w) = inr r /\
             Result.success r = false /\ Result.code r = Some VALIDATION_ERROR) /\
  slot STORAGE_KEYS.CURRENT_FLOW w' = Some (JsonText small_flow).
Proof.
  cbn zeta.
  destruct (saveCurrentFlow_rejects_invalid null_node_flow JUndefined
              EmptyString EmptyString
              (browser_with (JsonText small_flow) (OtherText EmptyString)))
    as (Hr & Hcurrent & _).
  - reflexivity.
  - unfold structurally_valid. vm_compute. discriminate.
  - split; [exact Hr | exact Hcurrent].
Defined.

(** *** Induction on values, and what serialisation does twice *)

Lemma weight_elem (l : list jsval) (e : jsval) : e ∈ l -> weight e < weight (JArr l).
Proof.
  intros Hin. cbn. induction Hin as [e l|e e' l _ IH]; cbn in *; lia.
Qed.

Lemma weight_lookup (m : gmap string jsval) (key : string) (e : jsval) :
  m !! key = Some e -> weight e < weight (JObj m).
Proof.
  intros Hkey. cbn.
  rewrite (map_fold_delete_L _ _ key e m); [lia| |exact Hkey].
  intros. lia.
Qed.

Lemma jsval_nested_ind (P : jsval -> Prop) :
  P JUndefined -> P JNull -> (forall b, P (JBool b)) -> (forall n, P (JNum n)) ->
  (forall s, P (JStr s)) ->
  (forall l, Forall P l -> P (JArr l)) ->
  (forall m, map_Forall (fun _ => P) m -> P (JObj m)) ->
  forall v, P v.
Proof.
  intros Hu Hn Hb Hnum Hs Harr Hobj v.
  remember (weight v) as n eqn:Hw. revert v Hw.
  induction n as [n IH] using lt_wf_ind. intros v ->.
  destruct v as [| |b|x|s|l|m]; auto.
  - apply Harr. apply Forall_forall. intros e He.
    apply (IH (weight e)); [by apply weight_elem | reflexivity].
  - apply Hobj. intros key e Hkey.
    apply (IH (weight e)); [by apply (weight_lookup m key) | reflexivity].
Qed.

Lemma toJSON_defined (v : jsval) : toJSON v <> JUndefined.
Proof. destruct v as [| |b|[q| |?]|s|l|m]; discriminate. Qed.

(** Serialising what was parsed gives the same text again: every value
    read from storage survives serialisation. *)
Lemma toJSON_idempotent (v : jsval) : survives_json (toJSON v).
Proof.
  unfold survives_json.
  induction v as [| |b|n|s|l IH|m IH] using jsval_nested_ind; try reflexivity.
  - destruct n as [q| |?]; reflexivity.
  - cbn. f_equal. rewrite map_map. apply map_ext_Forall. exact IH.
  - cbn. f_equal. apply map_eq. intros key. rewrite !lookup_omap.
    destruct (m !! key) as [e|] eqn:Hkey; [|reflexivity]. cbn.
    assert (Hcase : e = JUndefined \/
                    (match e with JUndefined => None | _ => Some (toJSON e) end)
                    = Some (toJSON e)) by (destruct e; auto).
    destruct Hcase as [->|Hstep]; [reflexivity|].
    rewrite Hstep. cbn. rewrite (IH key e Hkey).
    pose proof (toJSON_defined e). by destruct (toJSON e).
Qed.

(** The tagged copy of a parsed object is stored as it is. *)
Lemma backupData_stable (m : gmap string jsval) (created : string) :
  toJSON (JObj (backupData (toJSON (JObj m)) created))
  = JObj (backupData (toJSON (JObj m)) created).
Proof.
  pose proof (toJSON_idempotent (JObj m)) as Hstable.
  unfold survives_json in Hstable. cbn [toJSON] in Hstable |- *.
  injection Hstable as Hstable.
  unfold backupData. cbn [own_props]. f_equal.
  rewrite (omap_insert_Some _ _ _ _ (JBool true)) by reflexivity.
  rewrite (omap_insert_Some _ _ _ _ (JStr created)) by reflexivity.
  by rewrite Hstable.
Qed.

(** *** What is stored, and what is read back *)

(** A property that survives serialisation is found again in the parsed
    record. *)
Lemma toJSON_lookup_stable (m : gmap string jsval) (key : string) (v : jsval) :
  m !! key = Some v -> v <> JUndefined -> survives_json v ->
  own_props (toJSON (JObj m)) !! key = Some v.
Proof.
  intros Hkey Hdefined Hstable. cbn. rewrite lookup_omap, Hkey. cbn.
  rewrite Hstable. by destruct v.
Qed.

Lemma structurally_valid_object (flow : jsval) :
  structurally_valid flow ->
  exists m nodes edges,
    flow = JObj m /\ m !! "nodes" = Some (JArr nodes) /\ m !! "edges" = Some (JArr edges).
Proof.
  intros (Hobj & nodes & edges & Hnodes & Hedges & _)%validateFlowData_sound.
  destruct flow as [| | | | |l|m]; try discriminate Hnodes.
  exists m, nodes, edges. cbn in Hnodes, Hedges.
  destruct (m !! "nodes") as [?|]; [|discriminate].
  destruct (m !! "edges") as [?|]; [|discriminate].
  cbn in Hnodes, Hedges. by subst.
Qed.

(** The record stored for a flow holds the serialised properties of the
    flow, next to the metadata. *)
Lemma stored_record_lookup (m : gmap string jsval) (metadata : jsval)
    (savedAt lastModified key : string) (v : jsval) :
  m !! key = Some v -> v <> JUndefined -> key <> "metadata" ->
  own_props (toJSON (JObj (enhancedFlowData (JObj m) metadata savedAt lastModified)))
    !! key = Some (toJSON v).
Proof.
  intros Hkey Hdefined Hother. cbn [toJSON own_props].
  rewrite lookup_omap, enhancedFlowData_lookup by assumption. cbn [own_props].
  rewrite Hkey. by destruct v.
Qed.

(** It passes validation exactly when the serialised flow does. *)
Lemma stored_record_valid (m : gmap string jsval) (metadata : jsval)
    (savedAt lastModified : string) :
  validateFlowData (toJSON (JObj (enhancedFlowData (JObj m) metadata savedAt lastModified)))
  = validateFlowData (toJSON (JObj m)).
Proof.
  cbn [toJSON]. apply validateFlowData_object_ext;
    by rewrite !lookup_omap, enhancedFlowData_lookup.
Qed.

(** The record stored for a valid flow whose nodes and edges survive
    serialisation: it is valid, and it carries these nodes and edges. *)
Lemma stored_record (flow metadata : jsval) (savedAt lastModified : string) :
  structurally_valid flow ->
  survives_json (get_own flow "nodes") -> survives_json (get_own flow "edges") ->
  let record := toJSON (JObj (enhancedFlowData flow metadata savedAt lastModified)) in
  structurally_valid record /\
  own_props record !! "nodes" = Some (get_own flow "nodes") /\
  own_props record !! "edges" = Some (get_own flow "edges").
Proof.
  intros Hvalid Hnodes Hedges.
  destruct (structurally_valid_object flow Hvalid)
    as (m & nodes & edges & -> & Hn & He).
  cbn [get_own] in *. rewrite Hn in *. rewrite He in *. cbn [default id] in *.
  pose proof (stored_record_lookup m metadata savedAt lastModified "nodes" _ Hn)
    as Hn'.
  pose proof (stored_record_lookup m metadata savedAt lastModified "edges" _ He)
    as He'.
  rewrite Hnodes in Hn'. rewrite Hedges in He'.
  cbn zeta. split; [|split; [by apply Hn' | by apply He']].
  unfold structurally_valid in *.
  rewrite stored_record_valid, <- Hvalid. f_equal.
  pose proof (toJSON_lookup_stable m "nodes" _ Hn) as Hn''.
  pose proof (toJSON_lookup_stable m "edges" _ He) as He''.
  cbn [toJSON own_props] in Hn'', He'' |- *.
  apply validateFlowData_object_ext.
  - by rewrite Hn'', Hn.
  - by rewrite He'', He.
Qed.

Lemma save_failure_fails (e : JsError) : Result.success (save_failure e) = false.
Proof.
  unfold save_failure.
  destruct (String.eqb (name e) "QuotaExceededError"); [reflexivity|].
  destruct (includes "JSON" (message e)); [reflexivity|].
  destruct (includes "localStorage" (message e) || String.eqb (name e) "SecurityError");
    reflexivity.
Qed.

(** A save that succeeds, unfolded. *)
Lemma saveCurrentFlow_success (flow : jsval) (w : World) :
  succeeds (saveCurrentFlow flow) w ->
  exists metadata savedAt lastModified w1,
    snd (backupExistingFlow w) = w1 /\ differ_on_backup_only w w1 /\
    available w = true /\
    after (saveCurrentFlow flow) w
    = set_localStorage
        <[STORAGE_KEYS.CURRENT_FLOW :=
            JSON_stringify (enhancedFlowData flow metadata savedAt lastModified)]>
        (tick (tick w1)).
Proof.
  unfold succeeds, after.
  destruct (backupExistingFlow_frame w) as (b & w1 & Hbackup & Hframe).
  rewrite (saveCurrentFlow_run flow w w1 b Hbackup).
  destruct (get flow "metadata") as [e|metadata];
    [cbn; rewrite save_failure_fails; discriminate|]. cbn zeta.
  destruct (negb (Validation.isValid (validateFlowData _))); [intros [=]|].
  destruct (available w1) eqn:Ha; [|intros [=]]. cbn [negb].
  destruct (refuses w1 _ _);
    [cbn; rewrite save_failure_fails; discriminate|]. intros _.
  eexists metadata, _, _, w1. rewrite Hbackup.
  split; [reflexivity|]. split; [exact Hframe|]. split; [|reflexivity].
  destruct Hframe as (<- & _). exact Ha.
Qed.

(** C5, as the code has it: for a structurally valid flow whose nodes and
    edges survive JSON serialisation (no [undefined] property, no number
    that is not finite), loading after a successful save returns the nodes
    and the edges of the flow. *)
Theorem saveCurrentFlow_round_trips (flow : jsval) (w : World)
    (Hnodes : survives_json (get_own flow "nodes"))
    (Hedges : survives_json (get_own flow "edges")) :
  round_trips flow w.
Proof.
  intros Hvalid Havailable Hsaved w'.
  destruct (saveCurrentFlow_success flow w Hsaved)
    as (metadata & savedAt & lastModified & w1 & _ & Hframe & _ & Hafter).
  destruct (stored_record flow metadata savedAt lastModified Hvalid Hnodes Hedges)
    as (Hrecord & Hn & He).
  assert (Hslot : slot STORAGE_KEYS.CURRENT_FLOW w'
                  = Some (JsonText (toJSON (JObj (enhancedFlowData flow metadata
                                                    savedAt lastModified))))).
  { subst w'. rewrite Hafter. unfold slot. cbn.
    destruct Hframe as (-> & _). rewrite Havailable. apply lookup_insert_eq. }
  eexists. split; [exact (getCurrentFlow_valid w' _ Hslot Hrecord)|].
  split; [reflexivity|]. cbn [Result.data succeeded].
  cbn [toJSON own_props] in Hn, He. cbn [toJSON get_own].
  rewrite Hn, He. by split.
Qed.

Lemma saveCurrentFlow_round_trips_witness :
  let w' := after (saveCurrentFlow dragged_flow) fresh_browser in
  exists r,
    getCurrentFlow w' = (inr r, w') /\ Result.success r = true /\
    get_own (Result.data r) "nodes" = get_own dragged_flow "nodes" /\
    get_own (Result.data r) "edges" = get_own dragged_flow "edges".
Proof.
  apply (saveCurrentFlow_round_trips dragged_flow fresh_browser).
  - vm_compute. reflexivity.
  - vm_compute. reflexivity.
  - unfold structurally_valid. vm_compute. reflexivity.
  - reflexivity.
  - unfold succeeds. vm_compute. reflexivity.
Defined.

(** C5 as stated fails in two ways.  A property whose value is [undefined]
    is not written: the flow is saved and loaded, and the edge read back
    has lost its two handle properties.  A position that is [NaN] is
    written as [null]: the flow is valid and is saved, and loading reports
    [INVALID_DATA]. *)
Lemma saveCurrentFlow_round_trips_counterexample :
  (structurally_valid formatted_flow /\
   succeeds (saveCurrentFlow formatted_flow) fresh_browser /\
   (exists r,
      fst (getCurrentFlow (after (saveCurrentFlow formatted_flow) fresh_browser))
      = inr r /\ Result.success r = true /\
      get_own (Result.data r) "edges"
      = JArr [obj [("id", JStr "e1"); ("source", JStr "n1"); ("target", JStr "n2")]]) /\
   ~ round_trips formatted_flow fresh_browser) /\
  (structurally_valid nan_flow /\
   succeeds (saveCurrentFlow nan_flow) fresh_browser /\
   fst (getCurrentFlow (after (saveCurrentFlow nan_flow) fresh_browser))
   = inr (failure "Invalid flow data: Node at index 0 has invalid position data"
                  INVALID_DATA None) /\
   ~ round_trips nan_flow fresh_browser).
Proof.
  split.
  - assert (Hvalid : structurally_valid formatted_flow)
      by by_evaluation.
    assert (Hsaved : succeeds (saveCurrentFlow formatted_flow) fresh_browser)
      by by_evaluation.
    split; [exact Hvalid|]. split; [exact Hsaved|].
    split; [eexists; split; [vm_compute; reflexivity|]; split; vm_compute; reflexivity|].
    intros Hclaim.
    destruct (Hclaim Hvalid eq_refl Hsaved) as (r & Hr & _ & _ & Hedges).
    vm_compute in Hr. injection Hr as <-.
    vm_compute in Hedges. discriminate Hedges.
  - assert (Hvalid : structurally_valid nan_flow)
      by by_evaluation.
    assert (Hsaved : succeeds (saveCurrentFlow nan_flow) fresh_browser)
      by by_evaluation.
    split; [exact Hvalid|]. split; [exact Hsaved|].
    split; [vm_compute; reflexivity|].
    intros Hclaim. destruct (Hclaim Hvalid eq_refl Hsaved) as (r & Hr & Hsucc & _).
    vm_compute in Hr. injection Hr as <-. discriminate Hsucc.
Qed.

(** *** The backup after two saves *)

(** The tagged copy keeps the properties of the record. *)
Lemma backupData_lookup (record : jsval) (created key : string) :
  key <> "isBackup" -> key <> "backupCreatedAt" ->
  backupData record created !! key = own_props record !! key.
Proof. intros Htag1 Htag2. unfold backupData. by rewrite !lookup_insert_ne. Qed.

(** C6, as the code has it: when the first flow is still structurally valid
    once serialised and the medium takes the writes to the backup slot,
    then after two successful saves [loadBackup] succeeds with the record
    that was stored for the first flow, tagged [isBackup] and
    [backupCreatedAt]; its nodes and edges are the serialised nodes and
    edges of the first flow. *)
Theorem saveCurrentFlow_backs_up_previous (flow1 flow2 : jsval) (w : World)
    (Hstored : structurally_valid (toJSON flow1))
    (Haccept : forall copy, refuses w STORAGE_KEYS.BACKUP_FLOW copy = None) :
  backup_holds_previous flow1 flow2 w.
Proof.
  intros Hvalid1 Hvalid2 Hsaved1 w1 Hsaved2 w2.
  destruct (saveCurrentFlow_success flow1 w Hsaved1)
    as (metadata & savedAt & lastModified & wa & _ & Hframe1 & Havailable & Hafter1).
  destruct (structurally_valid_object flow1 Hvalid1)
    as (m & nodes & edges & -> & Hn & He).
  set (record := toJSON (JObj (enhancedFlowData (JObj m) metadata savedAt lastModified)))
    in *.
  assert (Hrecord : structurally_valid record).
  { unfold structurally_valid, record. by rewrite stored_record_valid. }
  fold w1 in Hafter1.
  assert (Havailable1 : available w1 = true).
  { rewrite Hafter1. cbn. destruct Hframe1 as (-> & _). exact Havailable. }
  assert (Hrefuses1 : refuses w1 = refuses w).
  { rewrite Hafter1. cbn. by destruct Hframe1 as (_ & -> & _). }
  assert (Hslot1 : slot STORAGE_KEYS.CURRENT_FLOW w1 = Some (JsonText record)).
  { unfold slot. rewrite Havailable1, Hafter1. cbn. apply lookup_insert_eq. }
  pose proof (getCurrentFlow_valid w1 record Hslot1 Hrecord) as Hload.
  destruct (saveCurrentFlow_success flow2 w1 Hsaved2)
    as (metadata2 & savedAt2 & lastModified2 & wb & Hwb & Hframe2 & _ & Hafter2).
  fold w2 in Hafter2.
  set (created := dates w1 (elapsed w1)).
  assert (Hcopy : slot STORAGE_KEYS.BACKUP_FLOW wb
                  = Some (JSON_stringify (backupData record created))).
  { rewrite <- Hwb.
    apply (backupExistingFlow_copies w1 _ Hload); [reflexivity | reflexivity |].
    rewrite Hrefuses1. apply Haccept. }
  assert (Hslot2 : slot STORAGE_KEYS.BACKUP_FLOW w2
                   = Some (JsonText (JObj (backupData record created)))).
  { assert (Hstable : toJSON (JObj (backupData record created))
                      = JObj (backupData record created))
      by apply backupData_stable.
    unfold JSON_stringify in Hcopy. rewrite Hstable in Hcopy. rewrite <- Hcopy.
    unfold slot. rewrite Hafter2. cbn.
    destruct (available wb); [|reflexivity]. by rewrite lookup_insert_ne. }
  exists (succeeded (JObj (backupData record created))
                    "Backup loaded successfully" None), record, created.
  split; [exact (loadBackup_json w2 _ Hslot2)|]. split; [reflexivity|].
  split; [exact Hslot1|]. split; [reflexivity|].
  cbn [Result.data succeeded get_own]. rewrite Hn, He.
  rewrite !backupData_lookup by done. unfold record.
  rewrite (stored_record_lookup m metadata savedAt lastModified "nodes" _ Hn) by done.
  rewrite (stored_record_lookup m metadata savedAt lastModified "edges" _ He) by done.
  by split.
Qed.

(** A valid flow whose nodes and edges survive serialisation is still valid
    once serialised: the backup then carries the nodes and edges as they
    were passed to the save. *)
Lemma serialised_flow_valid (flow : jsval) :
  structurally_valid flow ->
  survives_json (get_own flow "nodes") -> survives_json (get_own flow "edges") ->
  structurally_valid (toJSON flow).
Proof.
  intros Hvalid Hnodes Hedges.
  destruct (stored_record flow JUndefined EmptyString EmptyString Hvalid Hnodes Hedges)
    as (Hrecord & _).
  destruct (structurally_valid_object flow Hvalid) as (m & _ & _ & -> & _).
  unfold structurally_valid in *. by rewrite stored_record_valid in Hrecord.
Qed.

Lemma saveCurrentFlow_backs_up_previous_witness :
  let w1 := after (saveCurrentFlow small_flow) fresh_browser in
  let w2 := after (saveCurrentFlow larger_flow) w1 in
  exists r record created,
    loadBackup w2 = (inr r, w2) /\ Result.success r = true /\
    slot STORAGE_KEYS.CURRENT_FLOW w1 = Some (JsonText record) /\
    Result.data r = JObj (backupData record created) /\
    get_own (Result.data r) "nodes" = toJSON (get_own small_flow "nodes") /\
    get_own (Result.data r) "edges" = toJSON (get_own small_flow "edges").
Proof.
  apply (saveCurrentFlow_backs_up_previous small_flow larger_flow fresh_browser).
  - unfold structurally_valid. vm_compute. reflexivity.
  - reflexivity.
  - unfold structurally_valid. vm_compute. reflexivity.
  - unfold structurally_valid. vm_compute. reflexivity.
  - unfold succeeds. vm_compute. reflexivity.
  - unfold succeeds. vm_compute. reflexivity.
Defined.

(** C6 as stated fails in two ways.  When the medium refuses the write to
    the backup slot, [createBackup] returns [false], the save goes on and
    succeeds, and there is no backup.  When the first flow holds a position
    that is [NaN], both saves succeed, the record of the first flow does not
    pass validation when the second save reads it, and no backup is
    written.  [loadBackup] reports [NO_BACKUP] in both. *)
Lemma saveCurrentFlow_backs_up_previous_counterexample :
  (let w1 := after (saveCurrentFlow small_flow) full_browser in
   let w2 := after (saveCurrentFlow larger_flow) w1 in
   succeeds (saveCurrentFlow small_flow) full_browser /\
   succeeds (saveCurrentFlow larger_flow) w1 /\
   fst (loadBackup w2) = inr (failure "No backup available" NO_BACKUP None) /\
   ~ backup_holds_previous small_flow larger_flow full_browser) /\
  (let w1 := after (saveCurrentFlow nan_flow) fresh_browser in
   let w2 := after (saveCurrentFlow small_flow) w1 in
   succeeds (saveCurrentFlow nan_flow) fresh_browser /\
   succeeds (saveCurrentFlow small_flow) w1 /\
   fst (loadBackup w2) = inr (failure "No backup available" NO_BACKUP None) /\
   ~ backup_holds_previous nan_flow small_flow fresh_browser).
Proof.
  split; cbn zeta.
  - assert (Hsaved1 : succeeds (saveCurrentFlow small_flow) full_browser)
      by by_evaluation.
    assert (Hsaved2 : succeeds (saveCurrentFlow larger_flow)
                        (after (saveCurrentFlow small_flow) full_browser))
      by by_evaluation.
    split; [exact Hsaved1|]. split; [exact Hsaved2|].
    split; [vm_compute; reflexivity|].
    intros Hclaim.
    destruct Hclaim as (r & record & created & Hr & Hsucc & _);
      [by_evaluation | by_evaluation | exact Hsaved1 | exact Hsaved2 |].
    vm_compute in Hr. injection Hr as <-. discriminate Hsucc.
  - assert (Hsaved1 : succeeds (saveCurrentFlow nan_flow) fresh_browser)
      by by_evaluation.
    assert (Hsaved2 : succeeds (saveCurrentFlow small_flow)
                        (after (saveCurrentFlow nan_flow) fresh_browser))
      by by_evaluation.
    split; [exact Hsaved1|]. split; [exact Hsaved2|].
    split; [vm_compute; reflexivity|].
    intros Hclaim.
    destruct Hclaim as (r & record & created & Hr & Hsucc & _);
      [by_evaluation | by_evaluation | exact Hsaved1 | exact Hsaved2 |].
    vm_compute in Hr. injection Hr as <-. discriminate Hsucc.
Qed.

End FlowStorageFacts.

(** ** The operations of the hook on the data model *)

Module FlowEditingFacts.
Import FlowManager FlowEditing.

(** *** Lists *)

Lemma List_filter_sublist {A} (f : A -> bool) (l : list A) : List.filter f l `sublist_of` l.
Proof.
  induction l as [|a l IH]; cbn; [constructor|].
  destruct (f a); by constructor.
Qed.

Lemma NoDup_fmap_List_filter {A B} (g : A -> B) (f : A -> bool) (l : list A) :
  NoDup (g <$> l) -> NoDup (g <$> List.filter f l).
Proof.
  intros Hnd. apply (sublist_NoDup _ _ Hnd).
  apply fmap_sublist, List_filter_sublist.
Qed.

Lemma elem_of_List_filter {A} (f : A -> bool) (l : list A) (a : A) :
  a ∈ List.filter f l <-> a ∈ l /\ f a = true.
Proof. rewrite !list_elem_of_In. apply List.filter_In. Qed.

(** *** [updateNodeData] *)

Lemma updateNodeData_ids (nodeId : string) (newData : NodeData) (nds : list Node.t) :
  node_ids (updateNodeData nodeId newData nds) = node_ids nds.
Proof.
  unfold node_ids, updateNodeData. rewrite <- list_fmap_compose.
  apply list_fmap_ext. intros i node _. cbn.
  by destruct (String.eqb (Node.id node) nodeId).
Qed.

(** X1: [updateNodeData] keeps the number, the order and the ids of the
    nodes; it replaces the data of every node with the id by the new data
    and leaves the other nodes as they are, so that it changes nothing when
    no node has the id. *)
Theorem updateNodeData_replaces_data
    (nodeId : string) (newData : NodeData) (nds : list Node.t) :
  let result := updateNodeData nodeId newData nds in
  length result = length nds /\
  node_ids result = node_ids nds /\
  (forall i node, nds !! i = Some node ->
     result !! i = Some (if decide (Node.id node = nodeId)
                         then with_data newData node else node)) /\
  (nodeId ∉ node_ids nds -> result = nds).
Proof.
  cbn zeta. split; [apply length_fmap|]. split; [apply updateNodeData_ids|]. split.
  - intros i node Hi. unfold updateNodeData. rewrite list_lookup_fmap, Hi. cbn.
    destruct (String.eqb_spec (Node.id node) nodeId); by case_decide.
  - intros Habsent. unfold updateNodeData.
    rewrite <- (list_fmap_id nds) at 2. apply list_fmap_ext. intros i node Hi. cbn.
    destruct (String.eqb_spec (Node.id node) nodeId) as [Heq|]; [|reflexivity].
    exfalso. apply Habsent. unfold node_ids. rewrite <- Heq.
    apply list_elem_of_fmap_2. by eapply list_elem_of_lookup_2.
Qed.

(** Two updates of the same node leave the data of the second; updates of
    nodes with different ids can be swapped. *)
Lemma updateNodeData_composes
    (id1 id2 : string) (data1 data2 : NodeData) (nds : list Node.t) :
  updateNodeData id1 data2 (updateNodeData id1 data1 nds) = updateNodeData id1 data2 nds /\
  (id1 <> id2 ->
   updateNodeData id1 data1 (updateNodeData id2 data2 nds)
   = updateNodeData id2 data2 (updateNodeData id1 data1 nds)).
Proof.
  unfold updateNodeData. split; [|intros Hne];
    rewrite <- !list_fmap_compose; apply list_fmap_ext; intros i node _; cbn;
    repeat (match goal with
            | |- context [String.eqb ?a ?b] => destruct (String.eqb_spec a b)
            end; cbn in * ); congruence.
Qed.

(** *** [updateNodeData] and [validateFlow] *)

Lemma nodesWithoutTargets_ids (nodes nodes' : list Node.t) (edges : list Edge.t) :
  node_ids nodes = node_ids nodes' ->
  length (nodesWithoutTargets nodes edges) = length (nodesWithoutTargets nodes' edges).
Proof.
  unfold node_ids, nodesWithoutTargets, hasIncomingEdge.
  revert nodes'. induction nodes as [|n nodes IH]; intros [|n' nodes'] Hids;
    try discriminate; [reflexivity|].
  injection Hids as Hid Hids. cbn. rewrite Hid.
  destruct (negb _); cbn; auto.
Qed.

(** [validateFlow] does not look at the data of the nodes. *)
Lemma updateNodeData_keeps_validity
    (nodeId : string) (newData : NodeData) (nodes : list Node.t) (edges : list Edge.t) :
  validateFlow (updateNodeData nodeId newData nodes) edges = validateFlow nodes edges.
Proof.
  unfold validateFlow.
  rewrite (nodesWithoutTargets_ids _ nodes) by apply updateNodeData_ids.
  unfold updateNodeData. by rewrite length_fmap.
Qed.

(** *** [addNode] *)

Lemma addNode_id_inj (now1 now2 : N) :
  "node-" ++ pretty now1 = "node-" ++ pretty now2 -> now1 = now2.
Proof. intros [= H]. by apply (inj pretty). Qed.

(** X2: two nodes added by [addNode] to nodes with unique ids, neither of
    which is an id [addNode] gives them, have unique ids exactly when the
    clock read different milliseconds for them. *)
Theorem addNode_twice_unique_ids
    (now1 now2 : N) (config1 config2 : NodeConfig) (position1 position2 : XY)
    (nds : list Node.t)
    (Hunique : NoDup (node_ids nds))
    (Hfresh1 : "node-" ++ pretty now1 ∉ node_ids nds)
    (Hfresh2 : "node-" ++ pretty now2 ∉ node_ids nds) :
  NoDup (node_ids (addNode now2 config2 position2 (addNode now1 config1 position1 nds)))
  <-> now1 <> now2.
Proof.
  unfold addNode, node_ids. rewrite !fmap_app. cbn.
  rewrite <- !app_assoc. cbn.
  rewrite NoDup_app. split.
  - intros (_ & _ & Hnew) ->. apply NoDup_cons in Hnew as [Hnew _].
    apply Hnew. left.
  - intros Hne. split; [exact Hunique|]. split.
    + intros x Hx Hin. apply list_elem_of_In in Hin. cbn in Hin.
      destruct Hin as [<-|[<-|[]]]; [by apply Hfresh1 | by apply Hfresh2].
    + apply NoDup_cons. split; [|apply NoDup_singleton].
      intros Hin. apply list_elem_of_singleton in Hin.
      apply Hne. by apply addNode_id_inj.
Qed.

Lemma addNode_twice_unique_ids_witness :
  NoDup (node_ids (addNode 1700000000001%N sample_config origin
                     (addNode 1700000000000%N sample_config origin [])))
  <-> 1700000000000%N <> 1700000000001%N.
Proof.
  apply (addNode_twice_unique_ids 1700000000000%N 1700000000001%N).
  - constructor.
  - intros Hin. inversion Hin.
  - intros Hin. inversion Hin.
Defined.

Lemma entry_nodes_app (nodes more : list Node.t) (edges : list Edge.t) :
  entry_nodes (nodes ++ more) edges = (entry_nodes nodes edges ++ entry_nodes more edges)%list.
Proof. apply filter_app. Qed.

(** X3: a node added by [addNode] that no edge leads to makes a flow with
    an entry node fail [validateFlow]. *)
Theorem addNode_unconnected_invalidates
    (now : N) (config : NodeConfig) (position : XY)
    (nodes : list Node.t) (edges : list Edge.t)
    (Hentry : entry_nodes nodes edges <> [])
    (Hnew : forall edge, edge ∈ edges -> Edge.target edge <> "node-" ++ pretty now) :
  isValid (validateFlow (addNode now config position nodes) edges) = false.
Proof.
  unfold validateFlow, addNode.
  rewrite FlowManagerFacts.nodesWithoutTargets_entry_nodes, entry_nodes_app, !length_app.
  assert (Hlast : entry_nodes
                    [{| Node.id := "node-" ++ pretty now; Node.type := type config;
                        Node.position := position; Node.data := defaultData config |}]
                    edges <> []).
  { unfold entry_nodes. rewrite filter_cons_True; [discriminate|].
    apply Forall_forall. intros edge Hedge. cbn. by apply Hnew. }
  assert (Hnodes : nodes <> []) by (intros ->; by apply Hentry).
  destruct nodes as [|n nodes]; [done|].
  destruct (entry_nodes (n :: nodes) edges) as [|? ?]; [done|].
  destruct (entry_nodes [_] edges) as [|? ?]; [done|].
  cbn [length]. 
  destruct (Nat.leb_spec (S (length nodes) + 1) 1); [lia|].
  destruct (Nat.ltb_spec 1 (S (length l) + S (length l0))); [reflexivity|lia].
Qed.


Lemma addNode_unconnected_invalidates_witness :
  isValid (validateFlow
             (addNode 1700000000000%N sample_config origin
                [message_node "A"; message_node "B"])
             [link "e1" "A" "B"]) = false.
Proof.
  apply addNode_unconnected_invalidates.
  - vm_compute. discriminate.
  - intros edge Hin. apply list_elem_of_In in Hin. cbn in Hin.
    destruct Hin as [<-|[]]. vm_compute. discriminate.
Defined.

(** *** [deleteNode] *)

Lemma deleteNode_nodes_elem (nodeId : string) (nds : list Node.t) (node : Node.t) :
  node ∈ deleteNode_nodes nodeId nds <-> node ∈ nds /\ Node.id node <> nodeId.
Proof.
  unfold deleteNode_nodes. rewrite elem_of_List_filter, negb_true_iff, String.eqb_neq.
  reflexivity.
Qed.

Lemma deleteNode_edges_elem (nodeId : string) (eds : list Edge.t) (edge : Edge.t) :
  edge ∈ deleteNode_edges nodeId eds
  <-> edge ∈ eds /\ Edge.source edge <> nodeId /\ Edge.target edge <> nodeId.
Proof.
  unfold deleteNode_edges.
  rewrite elem_of_List_filter, andb_true_iff, !negb_true_iff, !String.eqb_neq.
  reflexivity.
Qed.

Lemma node_ids_elem (nodes : list Node.t) (i : string) :
  i ∈ node_ids nodes <-> exists node, node ∈ nodes /\ Node.id node = i.
Proof.
  unfold node_ids. rewrite list_elem_of_fmap. split; intros (node & H1 & H2); eauto.
Qed.

(** X4: [deleteNode] keeps the data model: unique node ids, unique edge
    ids, at most one edge per output port, and no edge without its two
    nodes. *)
Theorem deleteNode_keeps_data_model
    (nodeId : string) (nodes : list Node.t) (edges : list Edge.t) :
  let st := deleteNode nodeId (nodes, edges) in
  (NoDup (node_ids nodes) -> NoDup (node_ids (fst st))) /\
  (unique_ids edges -> unique_ids (snd st)) /\
  (single_outgoing edges -> single_outgoing (snd st)) /\
  (no_dangling nodes edges -> no_dangling (fst st) (snd st)).
Proof.
  cbn. split; [apply NoDup_fmap_List_filter|].
  split; [apply NoDup_fmap_List_filter|]. split; [apply NoDup_fmap_List_filter|].
  unfold no_dangling. rewrite !Forall_forall.
  intros Hclosed edge (Hedge & Hsource & Htarget)%deleteNode_edges_elem.
  destruct (Hclosed edge Hedge) as [(a & Ha & Hida)%node_ids_elem (b & Hb & Hidb)%node_ids_elem].
  split; apply node_ids_elem; [exists a | exists b];
    (split; [apply deleteNode_nodes_elem; split; [assumption | congruence] | assumption]).
Qed.

Lemma List_filter_comm {A} (f g : A -> bool) (l : list A) :
  List.filter f (List.filter g l) = List.filter g (List.filter f l).
Proof.
  induction l as [|a l IH]; [reflexivity|]. cbn.
  destruct (f a) eqn:Hf, (g a) eqn:Hg; cbn; rewrite ?Hf, ?Hg, IH; reflexivity.
Qed.

Lemma List_filter_idemp {A} (f : A -> bool) (l : list A) :
  List.filter f (List.filter f l) = List.filter f l.
Proof.
  induction l as [|a l IH]; [reflexivity|]. cbn.
  destruct (f a) eqn:Hf; cbn; rewrite ?Hf, IH; reflexivity.
Qed.

Lemma List_filter_all {A} (f : A -> bool) (l : list A) :
  (forall a, a ∈ l -> f a = true) -> List.filter f l = l.
Proof.
  induction l as [|a l IH]; intros Hl; [reflexivity|]. cbn.
  rewrite (Hl a) by left. f_equal. apply IH. intros b Hb. apply Hl. by right.
Qed.

(** Deletions can be swapped, and deleting twice is deleting once. *)
Lemma deleteNode_commutes
    (id1 id2 : string) (st : list Node.t * list Edge.t) :
  deleteNode id1 (deleteNode id2 st) = deleteNode id2 (deleteNode id1 st) /\
  deleteNode id1 (deleteNode id1 st) = deleteNode id1 st.
Proof.
  unfold deleteNode, deleteNode_nodes, deleteNode_edges. cbn. split; f_equal;
    first [apply List_filter_comm | apply List_filter_idemp].
Qed.

(** Deleting a node that is not there changes nothing, when every edge
    has its two nodes. *)
Lemma deleteNode_absent_noop
    (nodeId : string) (nodes : list Node.t) (edges : list Edge.t)
    (Habsent : nodeId ∉ node_ids nodes)
    (Hclosed : no_dangling nodes edges) :
  deleteNode nodeId (nodes, edges) = (nodes, edges).
Proof.
  unfold deleteNode, deleteNode_nodes, deleteNode_edges. cbn. f_equal.
  - apply List_filter_all. intros node Hnode.
    rewrite negb_true_iff, String.eqb_neq. intros Hid. apply Habsent.
    apply node_ids_elem. eauto.
  - apply List_filter_all. intros edge Hedge.
    unfold no_dangling in Hclosed. rewrite Forall_forall in Hclosed.
    destruct (Hclosed edge Hedge) as [Hs Ht].
    rewrite andb_true_iff, !negb_true_iff, !String.eqb_neq.
    split; intros Heq; apply Habsent; congruence.
Qed.

(** X5: deleting the node [addNode] has just added gives the nodes and
    the edges back, when the id was not in use and every edge has its two
    nodes. *)
Theorem deleteNode_undoes_addNode
    (now : N) (config : NodeConfig) (position : XY)
    (nodes : list Node.t) (edges : list Edge.t)
    (Hfresh : "node-" ++ pretty now ∉ node_ids nodes)
    (Hclosed : no_dangling nodes edges) :
  deleteNode ("node-" ++ pretty now) (addNode now config position nodes, edges)
  = (nodes, edges).
Proof.
  unfold deleteNode, deleteNode_nodes, deleteNode_edges, addNode. cbn. f_equal.
  - rewrite List.filter_app. cbn. rewrite String.eqb_refl. cbn. rewrite app_nil_r.
    apply List_filter_all. intros node Hnode.
    rewrite negb_true_iff, String.eqb_neq. intros Hid. apply Hfresh.
    apply node_ids_elem. eauto.
  - apply List_filter_all. intros edge Hedge.
    unfold no_dangling in Hclosed. rewrite Forall_forall in Hclosed.
    destruct (Hclosed edge Hedge) as [Hs Ht].
    rewrite andb_true_iff, !negb_true_iff, !String.eqb_neq.
    split; intros Heq; apply Hfresh; congruence.
Qed.

Lemma deleteNode_undoes_addNode_witness :
  deleteNode ("node-" ++ pretty 1700000000000%N)
    (addNode 1700000000000%N sample_config origin [message_node "A"; message_node "B"],
     [link "e1" "A" "B"])
  = ([message_node "A"; message_node "B"], [link "e1" "A" "B"]).
Proof.
  apply deleteNode_undoes_addNode.
  - apply (bool_decide_unpack _). vm_compute. reflexivity.
  - apply (bool_decide_unpack _). vm_compute. reflexivity.
Defined.

(** *** [onConnect] *)

Lemma onConnect_single_outgoing (newId : string) (edges : list Edge.t) (c : Connection) :
  unique_ids edges -> single_outgoing edges -> names_handle_alike edges c ->
  single_outgoing (onConnect newId edges c edges).
Proof.
  intros Hids Hports Halike. rewrite FlowManagerFacts.onConnect_result by assumption.
  unfold single_outgoing. rewrite fmap_app. cbn. apply NoDup_app.
  split; [|split; [|apply NoDup_singleton]].
  - apply (sublist_NoDup _ _ Hports), fmap_sublist, sublist_filter.
  - intros p (edge & -> & Hedge)%list_elem_of_fmap Hin.
    apply list_elem_of_filter in Hedge as [Hp _].
    apply list_elem_of_singleton in Hin. contradiction.
Qed.

Lemma onConnect_unique_ids (newId : string) (edges : list Edge.t) (c : Connection) :
  unique_ids edges -> single_outgoing edges -> names_handle_alike edges c ->
  newId ∉ Edge.id <$> edges ->
  unique_ids (onConnect newId edges c edges).
Proof.
  intros Hids Hports Halike Hfresh.
  rewrite FlowManagerFacts.onConnect_result by assumption.
  unfold unique_ids. rewrite fmap_app. cbn. apply NoDup_app.
  split; [|split; [|apply NoDup_singleton]].
  - apply (sublist_NoDup _ _ Hids), fmap_sublist, sublist_filter.
  - intros i (edge & -> & Hedge)%list_elem_of_fmap Hin.
    apply list_elem_of_filter in Hedge as [_ Hedge].
    apply list_elem_of_singleton in Hin. apply Hfresh. rewrite <- Hin.
    by apply list_elem_of_fmap_2.
Qed.

Lemma onConnect_names_handle_alike
    (newId : string) (edges : list Edge.t) (c c' : Connection) :
  unique_ids edges -> single_outgoing edges -> names_handle_alike edges c ->
  source c' = source c -> sourceHandle c' = sourceHandle c ->
  names_handle_alike (onConnect newId edges c edges) c'.
Proof.
  intros Hids Hports Halike Hsource Hhandle.
  rewrite FlowManagerFacts.onConnect_result by assumption.
  unfold names_handle_alike. apply Forall_app. split.
  - apply Forall_forall. intros edge [Hp _]%list_elem_of_filter Hport.
    exfalso. apply Hp. rewrite Hport. unfold port_of. congruence.
  - constructor; [|constructor]. intros _. cbn. congruence.
Qed.

(** X6: on edges with unique ids and at most one edge per output port,
    whose edges on the port of the connection carry the [sourceHandle]
    value of the connection, [onConnect] leaves at most one edge per output
    port, and unique ids when the id of the new edge was not in use. *)
Theorem onConnect_keeps_data_model
    (newId : string) (edges : list Edge.t) (c : Connection)
    (Hids : unique_ids edges) (Hports : single_outgoing edges)
    (Halike : names_handle_alike edges c) :
  single_outgoing (onConnect newId edges c edges) /\
  (newId ∉ Edge.id <$> edges -> unique_ids (onConnect newId edges c edges)).
Proof.
  split; [by apply onConnect_single_outgoing | by apply onConnect_unique_ids].
Qed.

Lemma onConnect_keeps_data_model_witness :
  single_outgoing (onConnect "e2" [link "e1" "A" "B"] (connection "A" "C")
                     [link "e1" "A" "B"]) /\
  ("e2" ∉ Edge.id <$> [link "e1" "A" "B"] ->
   unique_ids (onConnect "e2" [link "e1" "A" "B"] (connection "A" "C")
                 [link "e1" "A" "B"])).
Proof.
  apply onConnect_keeps_data_model.
  - unfold unique_ids. apply (bool_decide_unpack _). vm_compute. reflexivity.
  - unfold single_outgoing. apply (bool_decide_unpack _). vm_compute. reflexivity.
  - unfold names_handle_alike. apply (bool_decide_unpack _). vm_compute. reflexivity.
Defined.

(** X7: of two connections with the same source and the same
    [sourceHandle] value the second replaces the first: the edges are those
    the second connection alone would have given, on edges with unique ids
    and at most one edge per output port whose edges on that port carry the
    same [sourceHandle] value. *)
Theorem onConnect_last_connection_wins
    (id1 id2 : string) (edges : list Edge.t) (c1 c2 : Connection)
    (Hids : unique_ids edges) (Hports : single_outgoing edges)
    (Halike : names_handle_alike edges c1)
    (Hfresh : id1 ∉ Edge.id <$> edges)
    (Hsource : source c2 = source c1)
    (Hhandle : sourceHandle c2 = sourceHandle c1) :
  let edges1 := onConnect id1 edges c1 edges in
  onConnect id2 edges1 c2 edges1 = onConnect id2 edges c2 edges.
Proof.
  cbn zeta.
  pose proof (onConnect_unique_ids id1 edges c1 Hids Hports Halike Hfresh) as Hids1.
  pose proof (onConnect_single_outgoing id1 edges c1 Hids Hports Halike) as Hports1.
  pose proof (onConnect_names_handle_alike id1 edges c1 c2 Hids Hports Halike
                Hsource Hhandle) as Halike1.
  assert (Hport : port_of c1 = port_of c2) by (unfold port_of; congruence).
  assert (Halike2 : names_handle_alike edges c2).
  { unfold names_handle_alike in *. eapply Forall_impl; [exact Halike|].
    cbn. intros edge Hedge. rewrite <- Hport, Hhandle. exact Hedge. }
  rewrite (FlowManagerFacts.onConnect_result id2 _ c2 Hids1 Hports1 Halike1).
  rewrite !FlowManagerFacts.onConnect_result by assumption.
  rewrite filter_app, list_filter_filter, filter_cons_False, filter_nil, app_nil_r.
  - f_equal. apply list_filter_iff. intros edge. rewrite Hport. tauto.
  - intros Hne. apply Hne. cbn. exact Hport.
Qed.

Lemma onConnect_last_connection_wins_witness :
  let edges1 := onConnect "e2" [link "e1" "X" "Y"] (connection "A" "B") [link "e1" "X" "Y"] in
  onConnect "e3" edges1 (connection "A" "C") edges1
  = onConnect "e3" [link "e1" "X" "Y"] (connection "A" "C") [link "e1" "X" "Y"].
Proof.
  apply (onConnect_last_connection_wins "e2" "e3" [link "e1" "X" "Y"]
           (connection "A" "B") (connection "A" "C")).
  - unfold unique_ids. apply (bool_decide_unpack _). vm_compute. reflexivity.
  - unfold single_outgoing. apply (bool_decide_unpack _). vm_compute. reflexivity.
  - unfold names_handle_alike. apply (bool_decide_unpack _). vm_compute. reflexivity.
  - apply (bool_decide_unpack _). vm_compute. reflexivity.
  - reflexivity.
  - reflexivity.
Defined.

(** *** [validateFlow] *)

Lemma entry_nodes_more_edges (nodes : list Node.t) (edges more : list Edge.t) :
  entry_nodes nodes (edges ++ more) = filter (no_incoming_edge more) (entry_nodes nodes edges).
Proof.
  unfold entry_nodes. rewrite list_filter_filter. apply list_filter_iff.
  intros node. unfold no_incoming_edge. rewrite Forall_app. tauto.
Qed.

(** X8: a flow that passes [validateFlow] still passes it with more
    edges. *)
Theorem validateFlow_more_edges
    (nodes : list Node.t) (edges more : list Edge.t)
    (Hvalid : isValid (validateFlow nodes edges) = true) :
  isValid (validateFlow nodes (edges ++ more)) = true.
Proof.
  revert Hvalid. unfold validateFlow.
  rewrite !FlowManagerFacts.nodesWithoutTargets_entry_nodes, entry_nodes_more_edges.
  pose proof (length_filter (no_incoming_edge more) (entry_nodes nodes edges)) as Hle.
  destruct (length nodes <=? 1)%nat; [reflexivity|].
  destruct (Nat.ltb_spec 1 (length (entry_nodes nodes edges))); [discriminate|].
  destruct (Nat.ltb_spec 1 (length (filter (no_incoming_edge more) (entry_nodes nodes edges))));
    [lia | reflexivity].
Qed.

Lemma validateFlow_more_edges_witness :
  isValid (validateFlow [message_node "A"; message_node "B"; message_node "C"]
             ([link "e1" "A" "B"; link "e2" "B" "C"] ++ [link "e3" "C" "A"])) = true.
Proof. apply validateFlow_more_edges. reflexivity. Defined.

Lemma no_incoming_edge_Permutation (edges edges' : list Edge.t) (node : Node.t) :
  edges ≡ₚ edges' -> no_incoming_edge edges node <-> no_incoming_edge edges' node.
Proof. intros Hp. unfold no_incoming_edge. by rewrite Hp. Qed.

(** X9: [validateFlow] does not depend on the order of the nodes or of the
    edges. *)
Theorem validateFlow_order_irrelevant
    (nodes nodes' : list Node.t) (edges edges' : list Edge.t)
    (Hnodes : nodes ≡ₚ nodes') (Hedges : edges ≡ₚ edges') :
  validateFlow nodes' edges' = validateFlow nodes edges.
Proof.
  unfold validateFlow. rewrite !FlowManagerFacts.nodesWithoutTargets_entry_nodes.
  assert (Hentry : entry_nodes nodes' edges' ≡ₚ entry_nodes nodes edges).
  { unfold entry_nodes. rewrite <- Hnodes.
    erewrite list_filter_iff; [reflexivity|].
    intros node. symmetry. by apply no_incoming_edge_Permutation. }
  apply Permutation_length in Hentry. apply Permutation_length in Hnodes.
  by rewrite Hentry, Hnodes.
Qed.

Lemma validateFlow_order_irrelevant_witness :
  validateFlow [message_node "B"; message_node "A"] [link "e1" "A" "B"]
  = validateFlow [message_node "A"; message_node "B"] [link "e1" "A" "B"].
Proof.
  apply validateFlow_order_irrelevant; [|reflexivity].
  apply perm_swap.
Defined.

End FlowEditingFacts.

(** ** The storage wrapper and the other storage operations *)

Module StorageOperationsFacts.
Import FlowStorage StorageStatistics.

(** *** The storage wrapper *)

Lemma setItem_run (key : string) (value : text) (w : World) :
  storageWrapper.setItem key value w
  = if available w then
      match refuses w key value with
      | Some e => (inl e, w)
      | None => (inr tt, set_localStorage <[key := value]> w)
      end
    else (inr tt, set_memoryStorage <[key := value]> w).
Proof.
  unfold storageWrapper.setItem, bind, isLocalStorageAvailable.
  by destruct (available w).
Qed.

Lemma removeItem_run (key : string) (w : World) :
  storageWrapper.removeItem key w
  = (inr tt, if available w then set_localStorage (delete key) w
             else set_memoryStorage (delete key) w).
Proof.
  unfold storageWrapper.removeItem, bind, isLocalStorageAvailable.
  by destruct (available w).
Qed.

Lemma getItem_other (key : string) (w w' : World) :
  available w' = available w -> slot key w' = slot key w ->
  fst (storageWrapper.getItem key w') = fst (storageWrapper.getItem key w).
Proof.
  unfold storageWrapper.getItem, bind, isLocalStorageAvailable, slot.
  intros ->. destruct (available w); cbn; by intros ->.
Qed.

(** X10: where the probe of [localStorage] fails, the wrapper keeps the text
    in memory: [setItem] does not throw, and what it stored under a key
    other than [__proto__] is what [getItem] returns, except that [getItem]
    returns [null] for the empty text; the other keys read as before. *)
Theorem setItem_then_getItem (key : string) (value : text) (w : World)
    (Hfallback : available w = false) (Hkey : key <> "__proto__") :
  let w' := after (storageWrapper.setItem key value) w in
  fst (storageWrapper.setItem key value w) = inr tt /\
  localStorage w' = localStorage w /\
  storageWrapper.getItem key w'
  = (inr (if falsy_text (Some value) then None else Some value), w') /\
  forall other, other <> key ->
    fst (storageWrapper.getItem other w') = fst (storageWrapper.getItem other w).
Proof.
  cbn zeta. unfold after. rewrite setItem_run, Hfallback. cbn [fst snd].
  unfold storageWrapper.getItem, bind, isLocalStorageAvailable.
  destruct w as [av rf ls ms ds el]. cbn in *. subst av. cbn.
  split; [reflexivity|]. split; [reflexivity|].
  split; [by rewrite lookup_insert_eq|].
  intros other Hother. by rewrite lookup_insert_ne.
Qed.

Lemma setItem_then_getItem_witness :
  let w' := after (storageWrapper.setItem "draft" (OtherText EmptyString)) private_browser in
  fst (storageWrapper.setItem "draft" (OtherText EmptyString) private_browser) = inr tt /\
  localStorage w' = localStorage private_browser /\
  storageWrapper.getItem "draft" w' = (inr None, w') /\
  forall other, other <> "draft" ->
    fst (storageWrapper.getItem other w') = fst (storageWrapper.getItem other private_browser).
Proof.
  apply (setItem_then_getItem "draft" (OtherText EmptyString) private_browser).
  - reflexivity.
  - vm_compute. discriminate.
Defined.

(** [removeItem] does not throw; afterwards [getItem] returns [null]
    for the key, and the other keys read as before. *)
Lemma removeItem_then_getItem (key : string) (w : World) :
  let w' := after (storageWrapper.removeItem key) w in
  fst (storageWrapper.removeItem key w) = inr tt /\
  storageWrapper.getItem key w' = (inr None, w') /\
  forall other, other <> key ->
    fst (storageWrapper.getItem other w') = fst (storageWrapper.getItem other w).
Proof.
  unfold after. rewrite removeItem_run. cbn [fst snd].
  unfold storageWrapper.getItem, bind, isLocalStorageAvailable.
  destruct w as [av rf ls ms ds el]. cbn.
  destruct av; cbn; rewrite lookup_delete_eq;
    (split; [reflexivity|]; split; [reflexivity|]);
    intros other Hother; by rewrite lookup_delete_ne.
Qed.

(** *** [clearAllData] *)

Lemma clearAllData_run (w : World) :
  clearAllData w
  = (inr true,
     let clear := fun store : gmap string text =>
       delete STORAGE_KEYS.BACKUP_FLOW
         (delete STORAGE_KEYS.USER_PREFERENCES
            (delete STORAGE_KEYS.SAVED_FLOWS
               (delete STORAGE_KEYS.CURRENT_FLOW store))) in
     if available w then set_localStorage clear w else set_memoryStorage clear w).
Proof.
  unfold clearAllData, try_catch, bind at 1. cbn [foldl STORAGE_KEYS.values].
  unfold bind, ret. rewrite !removeItem_run.
  destruct w as [av rf ls ms ds el]. destruct av; reflexivity.
Qed.

Lemma clearAllData_slots (w : World) (key : string) :
  key ∈ STORAGE_KEYS.values -> slot key (after clearAllData w) = None.
Proof.
  intros Hkey. unfold after. rewrite clearAllData_run. cbn [snd]. unfold slot.
  destruct w as [av rf ls ms ds el]. cbn.
  apply list_elem_of_In in Hkey. cbn in Hkey.
  destruct av; cbn;
    destruct Hkey as [<-|[<-|[<-|[<-|[]]]]];
    rewrite ?lookup_delete_eq, ?lookup_delete_ne by discriminate;
    by rewrite ?lookup_delete_eq.
Qed.

(** X11: [clearAllData] returns [true] and empties the four slots of the
    medium in use, and nothing else; afterwards there is no saved flow and
    no backup. *)
Theorem clearAllData_clears (w : World) :
  let w' := after clearAllData w in
  fst (clearAllData w) = inr true /\
  (forall key, key ∈ STORAGE_KEYS.values -> slot key w' = None) /\
  (forall key, key ∉ STORAGE_KEYS.values -> slot key w' = slot key w) /\
  (if available w then memoryStorage w' = memoryStorage w
   else localStorage w' = localStorage w) /\
  getCurrentFlow w' = (inr (succeeded JNull "No saved flow found" None), w') /\
  loadBackup w' = (inr (failure "No backup available" NO_BACKUP None), w').
Proof.
  cbn zeta. split; [by rewrite clearAllData_run|].
  split; [intros key; apply clearAllData_slots|]. split; [|split; [|split]].
  - intros key Hkey. unfold after. rewrite clearAllData_run. cbn [snd]. unfold slot.
    assert (Hne : key <> STORAGE_KEYS.CURRENT_FLOW /\ key <> STORAGE_KEYS.SAVED_FLOWS /\
                  key <> STORAGE_KEYS.USER_PREFERENCES /\ key <> STORAGE_KEYS.BACKUP_FLOW).
    { repeat split; intros ->; apply Hkey; apply list_elem_of_In; cbn; tauto. }
    destruct Hne as (H1 & H2 & H3 & H4).
    destruct w as [av rf ls ms ds el]. cbn.
    destruct av; cbn; by rewrite !lookup_delete_ne.
  - unfold after. rewrite clearAllData_run. cbn [snd]. by destruct (available w).
  - apply FlowStorageFacts.getCurrentFlow_empty. rewrite clearAllData_slots; [reflexivity|].
    apply list_elem_of_In. cbn. tauto.
  - apply FlowStorageFacts.loadBackup_absent. rewrite clearAllData_slots; [reflexivity|].
    apply list_elem_of_In. cbn. tauto.
Qed.

(** *** [createBackup] and [loadBackup] *)

(** X12: [createBackup] does not throw.  When it returns [true], it has
    written the serialised copy of the data to the backup slot of the
    medium its probe chose; the copy is tagged [isBackup] and
    [backupCreatedAt], with the reading of the clock, whatever the data
    said under these names, and has the other defined properties of data
    that are not a string, serialised.  Where the probe fails,
    [loadBackup] then returns the copy.  [createBackup] returns [false]
    only when [localStorage] refuses the write, and the two stores are
    then as they were. *)
Theorem createBackup_writes_tagged_copy (flowData : jsval) (w : World) :
  let created := dates w (elapsed w) in
  let copy := toJSON (JObj (backupData flowData created)) in
  let w' := after (createBackup flowData) w in
  exists ok, fst (createBackup flowData w) = inr ok /\
    get_own copy "isBackup" = JBool true /\
    get_own copy "backupCreatedAt" = JStr created /\
    (forall key v, key <> "isBackup" -> key <> "backupCreatedAt" ->
       typeof flowData <> "string" ->
       own_props flowData !! key = Some v -> v <> JUndefined ->
       get_own copy key = toJSON v) /\
    if (ok : bool) then
      (if available w then localStorage w' else memoryStorage w')
        !! STORAGE_KEYS.BACKUP_FLOW = Some (JsonText copy) /\
      (available w = false ->
       loadBackup w' = (inr (succeeded copy "Backup loaded successfully" None), w'))
    else
      available w = true /\
      is_Some (refuses w STORAGE_KEYS.BACKUP_FLOW (JsonText copy)) /\
      localStorage w' = localStorage w /\ memoryStorage w' = memoryStorage w.
Proof.
  cbn zeta. unfold after. rewrite FlowStorageFacts.createBackup_run. cbn zeta.
  unfold JSON_stringify.
  set (copy := toJSON (JObj (backupData flowData (dates w (elapsed w))))).
  assert (Htags : get_own copy "isBackup" = JBool true /\
                  get_own copy "backupCreatedAt" = JStr (dates w (elapsed w)) /\
                  forall key v, key <> "isBackup" -> key <> "backupCreatedAt" ->
                    typeof flowData <> "string" ->
                    own_props flowData !! key = Some v -> v <> JUndefined ->
                    get_own copy key = toJSON v).
  { unfold copy, backupData. cbn [toJSON get_own]. rewrite !lookup_omap.
    rewrite lookup_insert_eq, lookup_insert_ne, lookup_insert_eq by discriminate.
    split; [reflexivity|]. split; [reflexivity|].
    intros key v Hk1 Hk2 _ Hkey Hdefined.
    rewrite lookup_omap, !lookup_insert_ne, Hkey by congruence.
    by destruct v. }
  destruct Htags as (Htag1 & Htag2 & Hrest).
  destruct (available w) eqn:Ha.
  - destruct (refuses w STORAGE_KEYS.BACKUP_FLOW (JsonText copy)) as [e|] eqn:Hr.
    + exists false. cbn [fst snd]. split; [reflexivity|].
      split; [exact Htag1|]. split; [exact Htag2|]. split; [exact Hrest|].
      split; [reflexivity|]. split; [eauto|]. by split.
    + exists true. cbn [fst snd]. split; [reflexivity|].
      split; [exact Htag1|]. split; [exact Htag2|]. split; [exact Hrest|].
      split; [|discriminate].
      destruct w as [av rf ls ms ds el]. cbn. apply lookup_insert_eq.
  - exists true. cbn [fst snd]. split; [reflexivity|].
    split; [exact Htag1|]. split; [exact Htag2|]. split; [exact Hrest|].
    assert (Hslot : memoryStorage
                      (set_memoryStorage <[STORAGE_KEYS.BACKUP_FLOW := JsonText copy]>
                         (tick w))
                    !! STORAGE_KEYS.BACKUP_FLOW = Some (JsonText copy)).
    { destruct w as [av rf ls ms ds el]. cbn. apply lookup_insert_eq. }
    split; [exact Hslot|]. intros _.
    apply FlowStorageFacts.loadBackup_json. unfold slot.
    destruct w as [av rf ls ms ds el]. cbn in *. subst av. exact Hslot.
Qed.

(** *** [getCurrentFlow] *)

(** X13: [getCurrentFlow] does not throw and writes nothing.  A failure is
    a [PARSE_ERROR] or an [INVALID_DATA], never an [UNKNOWN_ERROR]; what a
    success returns without a warning is [null] or a structurally valid
    flow. *)
Theorem getCurrentFlow_safe (w : World) :
  exists r, getCurrentFlow w = (inr r, w) /\
    (Result.success r = false ->
     Result.data r = JUndefined /\
     (Result.code r = Some PARSE_ERROR \/ Result.code r = Some INVALID_DATA)) /\
    (Result.success r = true -> Result.warning r = None ->
     Result.data r = JNull \/ structurally_valid (Result.data r)).
Proof.
  destruct (falsy_text (slot STORAGE_KEYS.CURRENT_FLOW w)) eqn:Hf.
  - rewrite (FlowStorageFacts.getCurrentFlow_empty w Hf).
    eexists. split; [reflexivity|]. split; [discriminate|]. intros _ _. by left.
  - destruct (slot STORAGE_KEYS.CURRENT_FLOW w) as [[v|s]|] eqn:Hslot;
      [| |discriminate].
    + destruct (Validation.isValid (validateFlowData v)) eqn:Hvalid.
      * rewrite (FlowStorageFacts.getCurrentFlow_valid w v Hslot Hvalid).
        eexists. split; [reflexivity|]. split; [discriminate|]. intros _ _. by right.
      * destruct (FlowStorageFacts.loadBackup_total w) as [b Hb].
        rewrite (FlowStorageFacts.getCurrentFlow_invalid w v b Hslot) by
          (unfold structurally_valid; congruence || exact Hb).
        eexists. split; [reflexivity|].
        destruct (Result.success b); cbn; split; try discriminate; auto.
    + rewrite (FlowStorageFacts.getCurrentFlow_malformed w s Hslot).
      * eexists. split; [reflexivity|]. cbn. split; [auto | discriminate].
      * intros ->. discriminate.
Qed.


(** *** [saveCurrentFlow] *)

(** A structurally valid flow has readable metadata, and its stamped form
    is valid. *)
Lemma structurally_valid_stamped (flow : jsval) (savedAt lastModified : string) :
  structurally_valid flow ->
  exists metadata,
    get flow "metadata" = inr metadata /\
    structurally_valid (JObj (enhancedFlowData flow metadata savedAt lastModified)).
Proof.
  intros Hvalid.
  destruct (FlowStorageFacts.structurally_valid_object flow Hvalid)
    as (m & nodes & edges & -> & Hn & He).
  eexists. split; [reflexivity|].
  unfold structurally_valid in *. rewrite <- Hvalid. f_equal.
  apply FlowStorageFacts.validateFlowData_object_ext;
    by rewrite FlowStorageFacts.enhancedFlowData_lookup.
Qed.

(** X14: [saveCurrentFlow] does not throw.  Of the slots other than the key
    of the probe it writes none but the current slot and the backup slot,
    and it never writes the current slot of the in-memory fallback.  A save
    that reports a failure other than [UNKNOWN_ERROR] has left the current
    slot of [localStorage] as it was. *)
Theorem saveCurrentFlow_frame (flow : jsval) (w : World) :
  let w' := after (saveCurrentFlow flow) w in
  exists r, fst (saveCurrentFlow flow w) = inr r /\
    (forall key,
       key <> STORAGE_KEYS.CURRENT_FLOW -> key <> STORAGE_KEYS.BACKUP_FLOW ->
       key <> "__localStorage_test__" ->
       localStorage w' !! key = localStorage w !! key /\
       memoryStorage w' !! key = memoryStorage w !! key) /\
    memoryStorage w' !! STORAGE_KEYS.CURRENT_FLOW
    = memoryStorage w !! STORAGE_KEYS.CURRENT_FLOW /\
    (Result.success r = false -> Result.code r <> Some UNKNOWN_ERROR ->
     localStorage w' !! STORAGE_KEYS.CURRENT_FLOW
     = localStorage w !! STORAGE_KEYS.CURRENT_FLOW).
Proof.
  cbn zeta. unfold after.
  destruct (FlowStorageFacts.backupExistingFlow_frame w) as (b & w1 & Hbackup & Hframe).
  rewrite (FlowStorageFacts.saveCurrentFlow_run flow w w1 b Hbackup).
  destruct Hframe as (Ha & Hr & Hd & Hslots).
  assert (Hkept : forall w2 : World,
            localStorage w2 = localStorage w1 ->
            memoryStorage w2 = memoryStorage w1 ->
            (forall key,
               key <> STORAGE_KEYS.CURRENT_FLOW -> key <> STORAGE_KEYS.BACKUP_FLOW ->
               key <> "__localStorage_test__" ->
               localStorage w2 !! key = localStorage w !! key /\
               memoryStorage w2 !! key = memoryStorage w !! key) /\
            memoryStorage w2 !! STORAGE_KEYS.CURRENT_FLOW
            = memoryStorage w !! STORAGE_KEYS.CURRENT_FLOW /\
            localStorage w2 !! STORAGE_KEYS.CURRENT_FLOW
            = localStorage w !! STORAGE_KEYS.CURRENT_FLOW).
  { intros w2 Hl2 Hm2.
    split; [intros key H1 H2 _; rewrite Hl2, Hm2; by apply Hslots|].
    rewrite Hl2, Hm2. split; by apply Hslots. }
  destruct (get flow "metadata") as [e|metadata].
  { eexists. split; [reflexivity|]. cbn [snd].
    destruct (Hkept w1) as (? & ? & ?); try reflexivity.
    split; [assumption|]. split; [assumption|]. by intros _ _. }
  cbn zeta.
  destruct (negb (Validation.isValid (validateFlowData _))).
  { eexists. split; [reflexivity|]. cbn [snd].
    destruct (Hkept (tick (tick w1))) as (? & ? & ?); try reflexivity.
    split; [assumption|]. split; [assumption|]. by intros _ _. }
  destruct (negb (available w1)).
  { eexists. split; [reflexivity|]. cbn [snd].
    destruct (Hkept (tick (tick w1))) as (? & ? & ?); try reflexivity.
    split; [assumption|]. split; [assumption|]. by intros _ _. }
  destruct (refuses w1 _ _) as [e|].
  { eexists. split; [reflexivity|]. cbn [snd].
    destruct (Hkept (tick (tick w1))) as (? & ? & ?); try reflexivity.
    split; [assumption|]. split; [assumption|]. by intros _ _. }
  eexists. split; [reflexivity|]. cbn [snd fst].
  destruct w1 as [av rf ls ms ds el]. cbn in *.
  split; [|split; [by apply Hslots | discriminate]].
  intros key H1 H2 _. rewrite lookup_insert_ne by congruence. by apply Hslots.
Qed.

(** X15: without [localStorage] no save succeeds; a structurally valid flow
    is turned down with [STORAGE_NOT_SUPPORTED]. *)
Theorem saveCurrentFlow_without_localStorage (flow : jsval) (w : World)
    (Hunavailable : available w = false) :
  exists r, fst (saveCurrentFlow flow w) = inr r /\
    Result.success r = false /\
    (structurally_valid flow -> Result.code r = Some STORAGE_NOT_SUPPORTED).
Proof.
  destruct (FlowStorageFacts.backupExistingFlow_frame w) as (b & w1 & Hbackup & Hframe).
  rewrite (FlowStorageFacts.saveCurrentFlow_run flow w w1 b Hbackup).
  destruct Hframe as (Ha & _). rewrite Ha, Hunavailable.
  destruct (get flow "metadata") as [e|metadata] eqn:Hmetadata.
  { eexists. split; [reflexivity|]. cbn [fst].
    split; [apply FlowStorageFacts.save_failure_fails|].
    intros (md & Hmd & _)%(structurally_valid_stamped _ EmptyString EmptyString).
    congruence. }
  cbn zeta.
  destruct (Validation.isValid (validateFlowData _)) eqn:Hstamped; cbn [negb].
  - eexists. split; [reflexivity|]. by split.
  - eexists. split; [reflexivity|]. split; [reflexivity|].
    intros (md & Hmd & Hvalid)%(structurally_valid_stamped _ EmptyString EmptyString).
    assert (md = metadata) as -> by congruence.
    unfold structurally_valid in Hvalid.
    rewrite (FlowStorageFacts.validateFlowData_enhanced _ _ _ _ EmptyString EmptyString)
      in Hstamped.
    congruence.
Qed.

Lemma saveCurrentFlow_without_localStorage_witness :
  exists r, fst (saveCurrentFlow small_flow private_browser) = inr r /\
    Result.success r = false /\
    (structurally_valid small_flow -> Result.code r = Some STORAGE_NOT_SUPPORTED).
Proof. apply saveCurrentFlow_without_localStorage. reflexivity. Defined.

(** X16: when [localStorage] refuses the write to the current slot, a
    structurally valid flow is turned down with the report on the exception
    raised: its message as details, and [STORAGE_QUOTA_EXCEEDED] when it is
    a [QuotaExceededError]. *)
Theorem saveCurrentFlow_refused (flow : jsval) (e : JsError) (w : World)
    (Hvalid : structurally_valid flow)
    (Havailable : available w = true)
    (Hrefused : forall t, refuses w STORAGE_KEYS.CURRENT_FLOW t = Some e) :
  fst (saveCurrentFlow flow w) = inr (save_failure e) /\
  Result.details (save_failure e) = Some (message e) /\
  (name e = "QuotaExceededError" ->
   Result.code (save_failure e) = Some STORAGE_QUOTA_EXCEEDED).
Proof.
  destruct (FlowStorageFacts.backupExistingFlow_frame w) as (b & w1 & Hbackup & Hframe).
  rewrite (FlowStorageFacts.saveCurrentFlow_run flow w w1 b Hbackup).
  destruct Hframe as (Ha & Hr & _). rewrite Ha, Hr, Havailable.
  destruct (structurally_valid_stamped flow (dates w1 (elapsed w1))
              (dates w1 (S (elapsed w1))) Hvalid) as (metadata & -> & Hstamped).
  cbn zeta. unfold structurally_valid in Hstamped. rewrite Hstamped. cbn [negb].
  rewrite Hrefused. split; [reflexivity|]. unfold save_failure.
  split.
  - destruct (String.eqb (name e) "QuotaExceededError"); [reflexivity|].
    destruct (includes "JSON" (message e)); [reflexivity|].
    by destruct (includes "localStorage" (message e) || String.eqb (name e) "SecurityError").
  - intros ->. reflexivity.
Qed.

Lemma saveCurrentFlow_refused_witness :
  fst (saveCurrentFlow small_flow exhausted_browser) = inr (save_failure quota_error) /\
  Result.code (save_failure quota_error) = Some STORAGE_QUOTA_EXCEEDED.
Proof.
  destruct (saveCurrentFlow_refused small_flow quota_error exhausted_browser)
    as (Hr & _ & Hcode).
  - unfold structurally_valid. vm_compute. reflexivity.
  - reflexivity.
  - reflexivity.
  - split; [exact Hr | by apply Hcode].
Defined.

(** The decimal numeral of a number starts with a digit: no index of an
    array or of a string is the name of a property of a flow. *)
Lemma pretty_N_go_head (x : N) (s : string) :
  (forall c rest, s = String c rest -> 48 <= Ascii.nat_of_ascii c <= 57) ->
  forall c rest, pretty_N_go x s = String c rest -> 48 <= Ascii.nat_of_ascii c <= 57.
Proof.
  revert s. induction (N.lt_wf_0 x) as [x _ IH]; intros s Hs.
  assert (x = 0 \/ 0 < x)%N as [->|Hpos] by lia.
  - by rewrite pretty_N_go_0.
  - rewrite pretty_N_go_step by done. apply IH; [by apply N.div_lt|].
    intros c rest [= <- _]. unfold pretty_N_char.
    repeat case_match; vm_compute; lia.
Qed.

Lemma pretty_nat_head (i : nat) (c : Ascii.ascii) (rest : string) :
  pretty i = String c rest -> 48 <= Ascii.nat_of_ascii c <= 57.
Proof.
  unfold pretty, pretty_nat, pretty, pretty_N. case_decide.
  - intros [= <- _]. vm_compute. lia.
  - apply pretty_N_go_head. discriminate.
Qed.

Lemma own_props_elements (l : list jsval) (key : string) :
  match key with
  | String c _ => ~ 48 <= Ascii.nat_of_ascii c <= 57
  | EmptyString => False
  end ->
  own_props (JArr l) !! key = None.
Proof.
  destruct key as [|c rest]; [done|].
  intros Hc. cbn. apply not_elem_of_list_to_map_1.
  intros (p & Hp & Hin)%list_elem_of_fmap.
  apply list_elem_of_lookup in Hin as [i Hi]. rewrite list_lookup_imap in Hi.
  destruct (l !! i); [|discriminate]. cbn in Hi. injection Hi as <-. cbn in Hp.
  symmetry in Hp. by apply pretty_nat_head in Hp.
Qed.

Lemma own_props_characters (s key : string) :
  match key with
  | String c _ => ~ 48 <= Ascii.nat_of_ascii c <= 57
  | EmptyString => False
  end ->
  own_props (JStr s) !! key = None.
Proof.
  destruct key as [|c rest]; [done|].
  intros Hc. cbn. apply not_elem_of_list_to_map_1.
  intros (p & Hp & Hin)%list_elem_of_fmap.
  apply list_elem_of_lookup in Hin as [i Hi]. rewrite list_lookup_imap in Hi.
  destruct (String.list_ascii_of_string s !! i); [|discriminate].
  cbn in Hi. injection Hi as <-. cbn in Hp.
  symmetry in Hp. by apply pretty_nat_head in Hp.
Qed.

(** [length || 0] is the length. *)
Lemma number_of_nat_truthy (n : nat) :
  truthy (JNum (number_of_nat n)) = false -> n = 0.
Proof.
  unfold number_of_nat. cbn. rewrite negb_false_iff, bool_decide_eq_true.
  intros Heq. apply (f_equal this) in Heq. cbn [Qc_of_Z Q2Qc this] in Heq.
  assert (Hz : Qeq (inject_Z (Z.of_nat n)) (inject_Z 0)).
  { rewrite <- (Qred_correct (inject_Z (Z.of_nat n))), Heq. apply Qred_correct. }
  unfold Qeq in Hz. cbn in Hz. lia.
Qed.

Lemma length_or_zero (l : list jsval) :
  or_value (get_optional (JArr l) "length") (JNum (number_of_nat 0))
  = JNum (number_of_nat (length l)).
Proof.
  unfold or_value. cbn [get_optional get_own String.eqb Ascii.eqb Bool.eqb].
  cbn [String.eqb]. change (String.eqb "length" "length") with true. cbv iota.
  destruct (truthy (JNum (number_of_nat (length l)))) eqn:Ht; [reflexivity|].
  by rewrite (number_of_nat_truthy _ Ht).
Qed.

(** The backup of the existing flow reads the clock once when it is made,
    and not otherwise. *)
Lemma backupExistingFlow_clock (w : World) (existing : Result.t) :
  getCurrentFlow w = (inr existing, w) ->
  exists b w1,
    backupExistingFlow w = (inr b, w1) /\ differ_on_backup_only w w1 /\
    elapsed w1 = if Result.success existing && truthy (Result.data existing)
                 then S (elapsed w) else elapsed w.
Proof.
  intros Hexisting. unfold backupExistingFlow, bind. rewrite Hexisting.
  destruct (Result.success existing && truthy (Result.data existing)).
  - destruct (FlowStorageFacts.createBackup_frame (Result.data existing) w)
      as (b & Hb & Hframe & Hclock).
    exists b, (snd (createBackup (Result.data existing) w)).
    split; [|by split].
    destruct (createBackup (Result.data existing) w) as [res w1]. cbn in *. by subst.
  - exists false, w. split; [reflexivity|].
    split; [apply FlowStorageFacts.differ_on_backup_only_refl | reflexivity].
Qed.

(** X17: the data a successful save returns is the flow with stamped
    metadata: the version of the storage format, the numbers of nodes and
    of edges, and as [savedAt] and [lastModified] the two readings of the
    clock the save takes, which follow the reading of the backup when the
    existing flow is backed up and are the next two readings otherwise.
    The five replace what the caller gave under these names; the other
    properties of caller metadata that is not a string are kept. *)
Theorem saveCurrentFlow_stamps (flow : jsval) (w : World)
    (Hsaved : succeeds (saveCurrentFlow flow) w) :
  exists r existing nodes edges stamped,
    fst (saveCurrentFlow flow w) = inr r /\
    getCurrentFlow w = (inr existing, w) /\
    let n := if Result.success existing && truthy (Result.data existing)
             then S (elapsed w) else elapsed w in
    elapsed (after (saveCurrentFlow flow) w) = S (S n) /\
    get_own flow "nodes" = JArr nodes /\ get_own flow "edges" = JArr edges /\
    get_own (Result.data r) "nodes" = JArr nodes /\
    get_own (Result.data r) "edges" = JArr edges /\
    get_own (Result.data r) "metadata" = JObj stamped /\
    stamped !! "version" = Some (JStr STORAGE_VERSION) /\
    stamped !! "savedAt" = Some (JStr (dates w n)) /\
    stamped !! "lastModified" = Some (JStr (dates w (S n))) /\
    stamped !! "nodeCount" = Some (JNum (number_of_nat (length nodes))) /\
    stamped !! "edgeCount" = Some (JNum (number_of_nat (length edges))) /\
    forall key,
      key ∉ ["version"; "savedAt"; "lastModified"; "nodeCount"; "edgeCount"] ->
      typeof (get_own flow "metadata") <> "string" ->
      stamped !! key = own_props (get_own flow "metadata") !! key.
Proof.
  revert Hsaved. unfold succeeds, after.
  destruct (FlowStorageFacts.getCurrentFlow_total w) as [existing Hexisting].
  destruct (backupExistingFlow_clock w existing Hexisting)
    as (b & w1 & Hbackup & Hframe & Hclock).
  rewrite (FlowStorageFacts.saveCurrentFlow_run flow w w1 b Hbackup).
  destruct (get flow "metadata") as [e|metadata] eqn:Hmetadata;
    [cbn; rewrite FlowStorageFacts.save_failure_fails; discriminate|]. cbn zeta.
  destruct (Validation.isValid (validateFlowData _)) eqn:Hstamped; [|intros [=]].
  cbn [negb]. destruct (negb (available w1)); [intros [=]|].
  destruct (refuses w1 _ _);
    [cbn; rewrite FlowStorageFacts.save_failure_fails; discriminate|]. intros _.
  destruct (FlowStorageFacts.structurally_valid_object _ Hstamped)
    as (m & nodes & edges & Hm & Hn & He).
  injection Hm as <-.
  rewrite FlowStorageFacts.enhancedFlowData_lookup in Hn, He by discriminate.
  assert (Hflow : get_own flow "nodes" = JArr nodes /\ get_own flow "edges" = JArr edges
                  /\ metadata = get_own flow "metadata").
  { destruct flow as [| |?|?|s|l|fm]; try discriminate Hmetadata; cbn in Hn, He;
      try (rewrite lookup_empty in Hn; discriminate Hn).
    - assert (Hnone : own_props (JStr s) !! "nodes" = None)
        by (apply (own_props_characters s "nodes"); vm_compute; lia).
      unfold own_props in Hnone. congruence.
    - assert (Hnone : own_props (JArr l) !! "nodes" = None)
        by (apply (own_props_elements l "nodes"); vm_compute; lia).
      unfold own_props in Hnone. congruence.
    - cbn. rewrite Hn, He. cbn in Hmetadata. injection Hmetadata as <-. by repeat split. }
  destruct Hflow as (Hfn & Hfe & ->).
  destruct Hframe as (_ & _ & Hdates & _).
  eexists _, existing, nodes, edges, _. cbn [fst snd].
  split; [reflexivity|]. split; [exact Hexisting|]. cbn zeta.
  rewrite <- Hclock, <- Hdates.
  split; [by destruct w1|].
  split; [exact Hfn|]. split; [exact Hfe|].
  cbn [Result.data succeeded get_own].
  rewrite !FlowStorageFacts.enhancedFlowData_lookup, Hn, He by discriminate.
  split; [reflexivity|]. split; [reflexivity|].
  unfold enhancedFlowData at 1. rewrite lookup_insert_eq. cbn [default].
  split; [reflexivity|]. rewrite Hfn, Hfe, !length_or_zero.
  split; [by rewrite !lookup_insert_ne, lookup_insert_eq by discriminate|].
  split; [by rewrite !lookup_insert_ne, lookup_insert_eq by discriminate|].
  split; [by rewrite lookup_insert_eq|].
  split; [by rewrite !lookup_insert_ne, lookup_insert_eq by discriminate|].
  split; [by rewrite !lookup_insert_ne, lookup_insert_eq by discriminate|].
  intros key Hkey _. rewrite !lookup_insert_ne; [reflexivity|..];
    intros <-; apply Hkey; apply list_elem_of_In; cbn; tauto.
Qed.

(** *** [getStorageStats] *)

Lemma count_entry_run (text_length : text -> nat) (stats : Stats.t)
    (name key : string) (w : World) :
  count_entry text_length stats (name, key) w
  = (inr match entry_of text_length (slot key w) with
         | Some entry =>
             {| Stats.totalKeys := S (Stats.totalKeys stats);
                Stats.totalSize := Stats.totalSize stats + Entry.size entry;
                Stats.flowData := <[name := entry]> (Stats.flowData stats);
                Stats.lastError := Stats.lastError stats |}
         | None => stats
         end, w).
Proof.
  unfold count_entry, bind.
  destruct (FlowStorageFacts.getItem_run key w) as (item & -> & Hf & Hitem).
  unfold entry_of.
  destruct (falsy_text item) eqn:Hitemf.
  - symmetry in Hf. destruct (slot key w) as [t|]; [rewrite Hf|]; by destruct item.
  - rewrite <- (Hitem eq_refl). destruct item as [t|]; [|discriminate].
    by rewrite Hitemf.
Qed.

(** X18: [getStorageStats] does not throw, writes nothing and reports no
    error.  It has an entry for exactly the slots that hold a text that is
    not empty; [totalKeys] is the number of entries and [totalSize] the sum
    of their sizes. *)
Theorem getStorageStats_consistent (text_length : text -> nat) (w : World) :
  exists stats,
    getStorageStats text_length w = (inr stats, w) /\
    Stats.lastError stats = None /\
    (forall name key, (name, key) ∈ STORAGE_KEYS_entries ->
       Stats.flowData stats !! name = entry_of text_length (slot key w)) /\
    (forall name, name ∉ STORAGE_KEYS_entries.*1 -> Stats.flowData stats !! name = None) /\
    Stats.totalKeys stats = size (Stats.flowData stats) /\
    Stats.totalSize stats
    = map_fold (fun _ entry total => Entry.size entry + total) 0 (Stats.flowData stats).
Proof.
  unfold getStorageStats, try_catch. cbn [foldl STORAGE_KEYS_entries].
  unfold bind, ret. rewrite !count_entry_run.
  eexists. split; [reflexivity|].
  destruct (entry_of text_length (slot STORAGE_KEYS.CURRENT_FLOW w)) as [e1|] eqn:H1;
  destruct (entry_of text_length (slot STORAGE_KEYS.SAVED_FLOWS w)) as [e2|] eqn:H2;
  destruct (entry_of text_length (slot STORAGE_KEYS.USER_PREFERENCES w)) as [e3|] eqn:H3;
  destruct (entry_of text_length (slot STORAGE_KEYS.BACKUP_FLOW w)) as [e4|] eqn:H4;
    cbn [Stats.totalKeys Stats.totalSize Stats.flowData Stats.lastError];
    (split; [reflexivity|]);
    (split; [intros name key Hin; apply list_elem_of_In in Hin; cbn in Hin;
             destruct Hin as [[= <- <-]|[[= <- <-]|[[= <- <-]|[[= <- <-]|[]]]]];
             rewrite ?H1, ?H2, ?H3, ?H4;
             by rewrite ?lookup_insert_ne, ?lookup_insert_eq, ?lookup_empty by discriminate|]);
    (split; [intros name Hname;
             rewrite ?lookup_insert_ne, ?lookup_empty; [reflexivity|..];
             intros <-; apply Hname; apply list_elem_of_In; cbn; tauto|]);
    (split; [by rewrite ?map_size_insert_None, ?map_size_empty
               by (by rewrite ?lookup_insert_ne, ?lookup_empty by discriminate)|]);
    rewrite ?map_fold_insert_L, ?map_fold_empty;
    first [lia
          | intros; lia
          | by rewrite ?lookup_insert_ne, ?lookup_empty by discriminate].
Qed.


(** X19: after a successful save the statistics have an entry for the
    current flow, whose [lastModified] is the stamp of the save. *)
Theorem getStorageStats_after_save (text_length : text -> nat) (flow : jsval) (w : World)
    (Hsaved : succeeds (saveCurrentFlow flow) w) :
  let w' := after (saveCurrentFlow flow) w in
  exists r stats t stamp,
    fst (saveCurrentFlow flow w) = inr r /\
    getStorageStats text_length w' = (inr stats, w') /\
    slot STORAGE_KEYS.CURRENT_FLOW w' = Some t /\
    get_own (get_own (Result.data r) "metadata") "lastModified" = JStr stamp /\
    Stats.flowData stats !! "CURRENT_FLOW"
    = Some {| Entry.size := text_length t;
              Entry.lastModified := or_value (JStr stamp) (JStr "Unknown") |}.
Proof.
  cbn zeta. revert Hsaved. unfold succeeds, after.
  destruct (FlowStorageFacts.backupExistingFlow_frame w) as (b & w1 & Hbackup & Hframe).
  rewrite (FlowStorageFacts.saveCurrentFlow_run flow w w1 b Hbackup).
  destruct (get flow "metadata") as [e|metadata] eqn:Hmetadata;
    [cbn; rewrite FlowStorageFacts.save_failure_fails; discriminate|]. cbn zeta.
  destruct (Validation.isValid (validateFlowData _)) eqn:Hstamped; [|intros [=]].
  cbn [negb]. destruct (available w1) eqn:Ha; [|intros [=]]. cbn [negb].
  destruct (refuses w1 _ _);
    [cbn; rewrite FlowStorageFacts.save_failure_fails; discriminate|]. intros _.
  cbn [fst snd].
  set (savedAt := dates w1 (elapsed w1)).
  set (stamp := dates w1 (S (elapsed w1))).
  set (enhanced := enhancedFlowData flow metadata savedAt stamp).
  set (w' := set_localStorage _ _).
  assert (Hslot : slot STORAGE_KEYS.CURRENT_FLOW w' = Some (JSON_stringify enhanced)).
  { unfold slot, w'. destruct w1 as [av rf ls ms ds el]. cbn in *. rewrite Ha.
    apply lookup_insert_eq. }
  assert (Hentry : entry_of text_length (slot STORAGE_KEYS.CURRENT_FLOW w')
                   = Some {| Entry.size := text_length (JSON_stringify enhanced);
                             Entry.lastModified := or_value (JStr stamp) (JStr "Unknown") |}).
  { rewrite Hslot. unfold entry_of, JSON_stringify. cbn [falsy_text]. do 2 f_equal.
    unfold lastModified_of, enhanced, enhancedFlowData. cbn [JSON_parse toJSON bindE get get_own].
    rewrite lookup_omap, lookup_insert_eq. cbn [option_bind mbind toJSON default bindE get_optional get_own].
    cbn. rewrite lookup_omap, lookup_insert_eq. reflexivity. }
  unfold getStorageStats, try_catch. cbn [foldl STORAGE_KEYS_entries].
  unfold bind, ret. rewrite !count_entry_run, Hentry.
  eexists _, _, _, stamp. split; [reflexivity|]. split; [reflexivity|].
  split; [exact Hslot|]. split.
  { cbn [Result.data succeeded get_own]. unfold enhanced, enhancedFlowData.
    rewrite lookup_insert_eq. cbn [default id get_own]. by rewrite lookup_insert_eq. }
  destruct (entry_of text_length (slot STORAGE_KEYS.SAVED_FLOWS w'));
  destruct (entry_of text_length (slot STORAGE_KEYS.USER_PREFERENCES w'));
  destruct (entry_of text_length (slot STORAGE_KEYS.BACKUP_FLOW w'));
    cbn [Stats.flowData];
    by rewrite ?lookup_insert_ne, lookup_insert_eq by discriminate.
Qed.

Lemma getStorageStats_after_save_witness :
  let w' := after (saveCurrentFlow small_flow) fresh_browser in
  exists r stats t stamp,
    fst (saveCurrentFlow small_flow fresh_browser) = inr r /\
    getStorageStats (fun _ => 0) w' = (inr stats, w') /\
    slot STORAGE_KEYS.CURRENT_FLOW w' = Some t /\
    get_own (get_own (Result.data r) "metadata") "lastModified" = JStr stamp /\
    Stats.flowData stats !! "CURRENT_FLOW"
    = Some {| Entry.size := 0;
              Entry.lastModified := or_value (JStr stamp) (JStr "Unknown") |}.
Proof.
  apply (getStorageStats_after_save (fun _ => 0) small_flow fresh_browser).
  by_evaluation.
Defined.

Lemma saveCurrentFlow_stamps_witness :
  let w := browser_with (JsonText small_flow) (OtherText EmptyString) in
  exists r existing nodes edges stamped,
    fst (saveCurrentFlow larger_flow w) = inr r /\
    getCurrentFlow w = (inr existing, w) /\
    let n := if Result.success existing && truthy (Result.data existing)
             then S (elapsed w) else elapsed w in
    elapsed (after (saveCurrentFlow larger_flow) w) = S (S n) /\
    get_own larger_flow "nodes" = JArr nodes /\ get_own larger_flow "edges" = JArr edges /\
    get_own (Result.data r) "nodes" = JArr nodes /\
    get_own (Result.data r) "edges" = JArr edges /\
    get_own (Result.data r) "metadata" = JObj stamped /\
    stamped !! "version" = Some (JStr STORAGE_VERSION) /\
    stamped !! "savedAt" = Some (JStr (dates w n)) /\
    stamped !! "lastModified" = Some (JStr (dates w (S n))) /\
    stamped !! "nodeCount" = Some (JNum (number_of_nat (length nodes))) /\
    stamped !! "edgeCount" = Some (JNum (number_of_nat (length edges))) /\
    forall key,
      key ∉ ["version"; "savedAt"; "lastModified"; "nodeCount"; "edgeCount"] ->
      typeof (get_own larger_flow "metadata") <> "string" ->
      stamped !! key = own_props (get_own larger_flow "metadata") !! key.
Proof.
  apply (saveCurrentFlow_stamps larger_flow
           (browser_with (JsonText small_flow) (OtherText EmptyString))).
  by_evaluation.
Defined.

(** With a flow in the current slot the backup takes the first reading of
    the clock, the save the second and the third. *)
Example saveCurrentFlow_stamps_after_backup :
  let w := browser_with (JsonText small_flow) (OtherText EmptyString) in
  exists r,
    fst (saveCurrentFlow larger_flow w) = inr r /\
    get_own (get_own (Result.data r) "metadata") "savedAt" = JStr (dates w 1) /\
    get_own (get_own (Result.data r) "metadata") "lastModified" = JStr (dates w 2).
Proof. eexists. split; [reflexivity|]. by vm_compute. Qed.

End StorageOperationsFacts.

(** ** The flow utilities *)

Module FlowUtilsFacts.
Import FlowStorage FlowUtils.

(** *** Mapping over arrays *)

Lemma map_elements_fmap (f : jsval -> Exc jsval) (g : jsval -> jsval) (l : list jsval) :
  Forall (fun e => f e = inr (g e)) l -> map_elements f l = inr (g <$> l).
Proof.
  induction 1 as [|e l He _ IH]; [reflexivity|]. cbn. by rewrite He, IH.
Qed.

Lemma map_elements_inv (f : jsval -> Exc jsval) (l l' : list jsval) :
  map_elements f l = inr l' -> Forall2 (fun e e' => f e = inr e') l l'.
Proof.
  revert l'. induction l as [|e l IH]; intros l'; cbn.
  - intros [= <-]. constructor.
  - destruct (f e) as [?|e'] eqn:He; [discriminate|]. cbn.
    destruct (map_elements f l) as [?|rest]; [discriminate|]. cbn.
    intros [= <-]. constructor; [exact He | by apply IH].
Qed.

Lemma map_elements_ok (f : jsval -> Exc jsval) (l : list jsval) :
  Forall (fun e => exists r, f e = inr r) l -> exists l', map_elements f l = inr l'.
Proof.
  induction 1 as [|e l [r He] _ [l' IH]]; [by eexists|].
  cbn. rewrite He, IH. by eexists.
Qed.

Lemma call_map_inv (expr : string) (v r : jsval) (mapper : list jsval -> Exc (list jsval)) :
  call_map expr v mapper = inr r ->
  exists l l', v = JArr l /\ mapper l = inr l' /\ r = JArr l'.
Proof.
  destruct v as [| |?|?|?|l|?]; cbn; try discriminate.
  destruct (mapper l) as [?|l'] eqn:Hl; [discriminate|]. cbn. intros [= <-]. eauto.
Qed.

Lemma get_inv (v r : jsval) (k : string) : get v k = inr r -> readable v /\ r = get_own v k.
Proof. unfold readable. destruct v; cbn; try discriminate; by intros [= <-]. Qed.

(** *** [formatFlowData] *)

Lemma formatted_node_readable (node : jsval) :
  readable node ->
  formatted_node node
  = inr (JObj (<["id" := get_own node "id"]> (<["type" := get_own node "type"]>
              (<["position" := get_own node "position"]>
              (<["data" := get_own node "data"]> ∅))))).
Proof.
  intros Hnode. unfold formatted_node.
  by rewrite !(FlowStorageFacts.get_readable node) by exact Hnode.
Qed.

Lemma formatted_edge_readable (edge : jsval) :
  readable edge ->
  formatted_edge edge
  = inr (JObj (<["id" := get_own edge "id"]> (<["source" := get_own edge "source"]>
              (<["target" := get_own edge "target"]>
              (<["sourceHandle" := get_own edge "sourceHandle"]>
              (<["targetHandle" := get_own edge "targetHandle"]> ∅)))))).
Proof.
  intros Hedge. unfold formatted_edge.
  by rewrite !(FlowStorageFacts.get_readable edge) by exact Hedge.
Qed.

(** The checks on a node look at its [id], [type] and [position] only. *)
Lemma node_checks_ext (node node' : jsval) :
  readable node -> readable node' ->
  get_own node' "id" = get_own node "id" ->
  get_own node' "type" = get_own node "type" ->
  get_own node' "position" = get_own node "position" ->
  node_missing_fields node' = node_missing_fields node /\
  node_invalid_position node' = node_invalid_position node.
Proof.
  intros Hr Hr' Hid Htype Hposition.
  unfold node_missing_fields, node_invalid_position, lacks.
  rewrite !(FlowStorageFacts.get_readable node), !(FlowStorageFacts.get_readable node')
    by assumption.
  by rewrite Hid, Htype, Hposition.
Qed.

Lemma edge_checks_ext (edge edge' : jsval) :
  readable edge -> readable edge' ->
  get_own edge' "id" = get_own edge "id" ->
  get_own edge' "source" = get_own edge "source" ->
  get_own edge' "target" = get_own edge "target" ->
  edge_missing_fields edge' = edge_missing_fields edge.
Proof.
  intros Hr Hr' Hid Hsource Htarget. unfold edge_missing_fields, lacks.
  rewrite !(FlowStorageFacts.get_readable edge), !(FlowStorageFacts.get_readable edge')
    by assumption.
  by rewrite Hid, Hsource, Htarget.
Qed.

Lemma validate_nodes_ext (i : nat) (nodes nodes' : list jsval) :
  Forall2 (fun node node' =>
             node_missing_fields node' = node_missing_fields node /\
             node_invalid_position node' = node_invalid_position node) nodes nodes' ->
  validate_nodes i nodes' = validate_nodes i nodes.
Proof.
  intros H. revert i. induction H as [|node node' nodes nodes' [H1 H2] _ IH]; intros i;
    [reflexivity|].
  cbn. by rewrite H1, H2, IH.
Qed.

Lemma validate_edges_ext (i : nat) (edges edges' : list jsval) :
  Forall2 (fun edge edge' => edge_missing_fields edge' = edge_missing_fields edge)
          edges edges' ->
  validate_edges i edges' = validate_edges i edges.
Proof.
  intros H. revert i. induction H as [|edge edge' edges edges' H1 _ IH]; intros i;
    [reflexivity|].
  cbn. by rewrite H1, IH.
Qed.

Lemma formatFlowData_run (nodes edges : list jsval) (w : World) :
  Forall readable nodes -> Forall readable edges ->
  exists formattedNodes formattedEdges,
    Forall2 (fun node f => formatted_node node = inr f) nodes formattedNodes /\
    Forall2 (fun edge f => formatted_edge edge = inr f) edges formattedEdges /\
    formatFlowData (JArr nodes) (JArr edges) w
    = (inr (JObj (<["nodes" := JArr formattedNodes]> (<["edges" := JArr formattedEdges]>
                 (<["metadata" :=
                      JObj (<["createdAt" := JStr (dates w (elapsed w))]>
                           (<["version" := JStr "1.0.0"]> ∅))]> ∅)))), tick w).
Proof.
  intros Hnodes Hedges.
  destruct (map_elements_ok formatted_node nodes) as [formattedNodes Hn].
  { eapply Forall_impl; [exact Hnodes|]. intros node Hnode.
    rewrite (formatted_node_readable node Hnode). eauto. }
  destruct (map_elements_ok formatted_edge edges) as [formattedEdges He].
  { eapply Forall_impl; [exact Hedges|]. intros edge Hedge.
    rewrite (formatted_edge_readable edge Hedge). eauto. }
  exists formattedNodes, formattedEdges.
  split; [by apply map_elements_inv|]. split; [by apply map_elements_inv|].
  unfold formatFlowData, bind, lift, call_map. rewrite Hn, He. reflexivity.
Qed.

(** X20: on arrays whose elements are neither [undefined] nor [null],
    [formatFlowData] returns a flow that [validateFlowData] judges as it
    judges the nodes and edges passed in, with the reading of the clock as
    [createdAt]. *)
Theorem formatFlowData_keeps_validity (nodes edges : list jsval) (w : World)
    (Hnodes : Forall readable nodes) (Hedges : Forall readable edges) :
  exists flow,
    formatFlowData (JArr nodes) (JArr edges) w = (inr flow, tick w) /\
    validateFlowData flow = validateFlowData (flow_of (JArr nodes) (JArr edges)) /\
    get_own (get_own flow "metadata") "createdAt" = JStr (dates w (elapsed w)).
Proof.
  destruct (formatFlowData_run nodes edges w Hnodes Hedges)
    as (formattedNodes & formattedEdges & Hn & He & ->).
  eexists. split; [reflexivity|]. split; [|reflexivity].
  unfold validateFlowData, validateFlowData_body, flow_of.
  cbn [truthy typeof negb orb String.eqb get get_own bindE isArray elements].
  change (String.eqb "object" "object") with true. cbn [negb orb].
  rewrite !lookup_insert_eq, !lookup_insert_ne, !lookup_insert_eq by discriminate.
  cbn [default id bindE isArray negb elements].
  rewrite (validate_nodes_ext 0 nodes formattedNodes),
          (validate_edges_ext 0 edges formattedEdges); [reflexivity| |].
  - clear -Hedges He. induction He as [|edge f edges fs Hf _ IH]; constructor.
    + apply Forall_cons in Hedges as [Hedge _].
      rewrite (formatted_edge_readable edge Hedge) in Hf. injection Hf as <-.
      apply edge_checks_ext; [done | done | cbn..];
        by rewrite ?lookup_insert_ne, lookup_insert_eq by discriminate.
    + apply IH. by apply Forall_cons in Hedges as [_ ?].
  - clear -Hnodes Hn. induction Hn as [|node f nodes fs Hf _ IH]; constructor.
    + apply Forall_cons in Hnodes as [Hnode _].
      rewrite (formatted_node_readable node Hnode) in Hf. injection Hf as <-.
      apply node_checks_ext; [done | done | cbn..];
        by rewrite ?lookup_insert_ne, lookup_insert_eq by discriminate.
    + apply IH. by apply Forall_cons in Hnodes as [_ ?].
Qed.

Lemma formatFlowData_keeps_validity_witness :
  exists flow,
    formatFlowData (JArr [editor_node]) (JArr []) fresh_browser
    = (inr flow, tick fresh_browser) /\
    validateFlowData flow = validateFlowData (flow_of (JArr [editor_node]) (JArr [])) /\
    get_own (get_own flow "metadata") "createdAt"
    = JStr (dates fresh_browser (elapsed fresh_browser)).
Proof.
  apply formatFlowData_keeps_validity.
  - repeat constructor.
  - constructor.
Defined.

(** X21: a formatted node has the four properties [id], [type], [position]
    and [data] of the node, and no other; whatever else the editor keeps on
    a node is left out. *)
Theorem formatFlowData_copies_fields (nodes edges : jsval) (w : World) (flow : jsval)
    (Hflow : fst (formatFlowData nodes edges w) = inr flow) :
  exists ns formattedNodes,
    nodes = JArr ns /\ get_own flow "nodes" = JArr formattedNodes /\
    length formattedNodes = length ns /\
    forall i node, ns !! i = Some node ->
      exists fields,
        formattedNodes !! i = Some (JObj fields) /\
        forall key,
          fields !! key
          = if bool_decide (key ∈ ["id"; "type"; "position"; "data"])
            then Some (get_own node key) else None.
Proof.
  revert Hflow. unfold formatFlowData, bind, lift.
  destruct (call_map "nodes" nodes _) as [?|formattedNodes] eqn:Hn; [discriminate|].
  destruct (call_map "edges" edges _) as [?|formattedEdges] eqn:He; [discriminate|].
  cbn. intros [= <-].
  apply call_map_inv in Hn as (ns & fs & -> & Hmap & ->).
  exists ns, fs. split; [reflexivity|]. cbn. rewrite lookup_insert_eq.
  split; [reflexivity|]. apply map_elements_inv in Hmap.
  split; [symmetry; by eapply Forall2_length|].
  intros i node Hi.
  destruct (Forall2_lookup_l _ _ _ _ _ Hmap Hi) as (f & Hf & Hnode).
  unfold formatted_node in Hnode.
  destruct (get node "id") as [?|vid] eqn:Hid; [discriminate|].
  apply get_inv in Hid as [Hr ->].
  rewrite !(FlowStorageFacts.get_readable node) in Hnode by exact Hr.
  cbn in Hnode. injection Hnode as <-.
  eexists. split; [exact Hf|]. intros key.
  destruct (decide (key = "id")) as [->|Hid];
    [by rewrite lookup_insert_eq|rewrite lookup_insert_ne by done].
  destruct (decide (key = "type")) as [->|Htype];
    [by rewrite lookup_insert_eq|rewrite lookup_insert_ne by done].
  destruct (decide (key = "position")) as [->|Hposition];
    [by rewrite lookup_insert_eq|rewrite lookup_insert_ne by done].
  destruct (decide (key = "data")) as [->|Hdata];
    [by rewrite lookup_insert_eq|rewrite lookup_insert_ne by done].
  rewrite lookup_empty, bool_decide_eq_false_2; [reflexivity|].
  intros Hin. apply list_elem_of_In in Hin. cbn in Hin.
  destruct Hin as [?|[?|[?|[?|[]]]]]; congruence.
Qed.

Lemma formatFlowData_copies_fields_witness :
  exists ns formattedNodes,
    JArr [editor_node] = JArr ns /\
    get_own formatted_editor_flow "nodes" = JArr formattedNodes /\
    length formattedNodes = length ns /\
    forall i node, ns !! i = Some node ->
      exists fields,
        formattedNodes !! i = Some (JObj fields) /\
        forall key,
          fields !! key
          = if bool_decide (key ∈ ["id"; "type"; "position"; "data"])
            then Some (get_own node key) else None.
Proof.
  apply (formatFlowData_copies_fields (JArr [editor_node]) (JArr []) fresh_browser).
  vm_compute. reflexivity.
Defined.

(** X22: [formatFlowData] throws exactly when the nodes or the edges are
    not an array or have an element that is [undefined] or [null]; the
    clock is then not read. *)
Theorem formatFlowData_throws (nodes edges : jsval) (w : World) :
  (exists error, formatFlowData nodes edges w = (inl error, w) /\
                 name error = "TypeError")
  \/ exists ns es flow,
       nodes = JArr ns /\ edges = JArr es /\
       Forall readable ns /\ Forall readable es /\
       formatFlowData nodes edges w = (inr flow, tick w).
Proof.
  assert (Hcases : forall expr v f,
            (forall e r, f e = inr r -> readable e) ->
            (forall e, readable e -> exists r, f e = inr r) ->
            (forall e error, f e = inl error -> name error = "TypeError") ->
            (exists error, call_map expr v (map_elements f) = inl error /\
                           name error = "TypeError")
            \/ exists l l', v = JArr l /\ Forall readable l /\
                            call_map expr v (map_elements f) = inr (JArr l')).
  { intros expr v f Hinv Hok Herr.
    destruct v as [| |?|?|?|l|?]; try (left; eexists; split; reflexivity).
    cbn. induction l as [|e l IH].
    - right. exists [], []. by repeat split.
    - cbn. destruct (f e) as [error|r] eqn:He.
      + left. exists error. split; [reflexivity | by eapply Herr].
      + cbn. destruct IH as [(error & Hl & Hname)|(l0 & l' & [= <-] & Hl & Hmap)].
        * left. exists error.
          destruct (map_elements f l); [|discriminate]. cbn in *. by split.
        * right. destruct (map_elements f l) as [?|rest]; [discriminate|].
          exists (e :: l), (r :: rest). split; [reflexivity|].
          split; [constructor; [by eapply Hinv | exact Hl] | reflexivity]. }
  assert (Hnode : (forall e r, formatted_node e = inr r -> readable e) /\
                  (forall e, readable e -> exists r, formatted_node e = inr r) /\
                  (forall e error, formatted_node e = inl error -> name error = "TypeError")).
  { split; [|split].
    - intros e r. unfold formatted_node.
      destruct (get e "id") eqn:Hid; [discriminate|]. intros _. by apply get_inv in Hid as [? _].
    - intros e He. rewrite (formatted_node_readable e He). eauto.
    - intros e error. destruct e; cbn; try discriminate; by intros [= <-]. }
  assert (Hedge : (forall e r, formatted_edge e = inr r -> readable e) /\
                  (forall e, readable e -> exists r, formatted_edge e = inr r) /\
                  (forall e error, formatted_edge e = inl error -> name error = "TypeError")).
  { split; [|split].
    - intros e r. unfold formatted_edge.
      destruct (get e "id") eqn:Hid; [discriminate|]. intros _. by apply get_inv in Hid as [? _].
    - intros e He. rewrite (formatted_edge_readable e He). eauto.
    - intros e error. destruct e; cbn; try discriminate; by intros [= <-]. }
  destruct Hnode as (Hn1 & Hn2 & Hn3). destruct Hedge as (He1 & He2 & He3).
  unfold formatFlowData, bind, lift.
  destruct (Hcases "nodes" nodes formatted_node Hn1 Hn2 Hn3)
    as [(error & -> & Hname)|(ns & fns & -> & Hns & ->)]; [left; eauto|].
  destruct (Hcases "edges" edges formatted_edge He1 He2 He3)
    as [(error & -> & Hname)|(es & fes & -> & Hes & ->)]; [left; eauto|].
  right. exists ns, es. eexists. by repeat split.
Qed.


(** *** [parseFlowData] *)

Lemma parsed_node_inv (node parsed : jsval) :
  parsed_node node = inr parsed ->
  readable node /\ has parsed "position" /\ has parsed "data".
Proof.
  unfold parsed_node. destruct (get node "position") as [?|position] eqn:Hp; [discriminate|].
  apply get_inv in Hp as [Hr ->].
  rewrite (FlowStorageFacts.get_readable node) by exact Hr. cbn. intros [= <-].
  split; [exact Hr|]. unfold has. cbn.
  rewrite lookup_insert_eq, lookup_insert_ne, lookup_insert_eq by discriminate. cbn.
  unfold or_value. split.
  - by destruct (truthy (get_own node "position")) eqn:Ht.
  - by destruct (truthy (get_own node "data")) eqn:Ht.
Qed.

Lemma parsed_edges_inv (entropy : nat -> string * string) (calls : nat)
    (edges parsed : list jsval) :
  parsed_edges entropy calls edges = inr parsed ->
  Forall readable edges /\ length parsed = length edges /\
  Forall (fun edge => has edge "id") parsed.
Proof.
  revert calls parsed. induction edges as [|edge edges IH]; intros calls parsed; cbn.
  - intros [= <-]. by repeat constructor.
  - destruct (get edge "id") as [?|id] eqn:Hid; [discriminate|]. cbn.
    apply get_inv in Hid as [Hr ->].
    destruct (parsed_edges entropy _ edges) as [?|rest] eqn:Hrest; [discriminate|].
    cbn. intros [= <-]. apply IH in Hrest as (Hedges & Hlen & Hids).
    split; [by constructor|]. split; [cbn; by rewrite Hlen|].
    constructor; [|exact Hids]. unfold has. cbn. rewrite lookup_insert_eq. cbn.
    by destruct (truthy (get_own edge "id")) eqn:Ht.
Qed.

(** X23: [parseFlowData] returns the empty flow, or else a flow with as
    many nodes and edges as the flow data has, in which every node has a
    position and data and every edge has an id; it does the latter only for
    flow data whose nodes and edges are arrays, or absent, without an
    element that is [undefined] or [null]. *)
Theorem parseFlowData_all_or_nothing (entropy : nat -> string * string) (flowData : jsval) :
  parseFlowData entropy flowData = flow_of (JArr []) (JArr [])
  \/ exists nodes edges parsedNodes parsedEdges,
       default_to (get_own flowData "nodes") (JArr []) = JArr nodes /\
       default_to (get_own flowData "edges") (JArr []) = JArr edges /\
       Forall readable nodes /\ Forall readable edges /\
       parseFlowData entropy flowData = flow_of (JArr parsedNodes) (JArr parsedEdges) /\
       length parsedNodes = length nodes /\ length parsedEdges = length edges /\
       Forall (fun node => has node "position" /\ has node "data") parsedNodes /\
       Forall (fun edge => has edge "id") parsedEdges.
Proof.
  unfold parseFlowData.
  destruct (get flowData "nodes") as [?|nodes0] eqn:Hn0; [by left|].
  apply get_inv in Hn0 as [Hr ->].
  rewrite (FlowStorageFacts.get_readable flowData) by exact Hr. cbn [bindE].
  destruct (call_map "nodes" _ _) as [?|parsedNodes] eqn:Hn; [by left|].
  apply call_map_inv in Hn as (nodes & pn & Hnodes & Hmapn & ->). cbn [bindE].
  destruct (call_map "edges" _ _) as [?|parsedEdges] eqn:He; [by left|].
  apply call_map_inv in He as (edges & pe & Hedges & Hmape & ->). cbn [bindE].
  right. exists nodes, edges, pn, pe.
  apply map_elements_inv in Hmapn. apply parsed_edges_inv in Hmape as (Hre & Hle & Hide).
  split; [exact Hnodes|]. split; [exact Hedges|].
  split; [|split; [exact Hre|]].
  { clear -Hmapn. induction Hmapn as [|node p nodes ps Hp _ IH]; constructor; [|exact IH].
    by apply parsed_node_inv in Hp as [? _]. }
  split; [reflexivity|].
  split; [symmetry; by eapply Forall2_length|]. split; [exact Hle|].
  split; [|exact Hide].
  clear -Hmapn. induction Hmapn as [|node p nodes ps Hp _ IH]; constructor; [|exact IH].
  by apply parsed_node_inv in Hp as (_ & ? & ?).
Qed.

Lemma has_object (v : jsval) (k : string) :
  has v k -> k <> "length" -> exists m e, v = JObj m /\ m !! k = Some e /\ truthy e = true.
Proof.
  unfold has. intros Hk Hne. apply String.eqb_neq in Hne.
  destruct v as [| |?|?|s|l|m]; cbn in Hk; rewrite ?Hne in Hk; try discriminate Hk.
  destruct (m !! k) as [e|] eqn:He; [|discriminate]. eauto.
Qed.

Lemma parsed_node_complete (node : jsval) :
  well_formed_node node -> has node "data" -> parsed_node node = inr node.
Proof.
  intros (_ & _ & Hposition & _) Hdata.
  apply has_object in Hdata as (m & d & -> & Hd & Htd); [|discriminate].
  apply FlowStorageFacts.non_null_object_truthy in Hposition as [Hposition _].
  unfold parsed_node. cbn [get get_own bindE own_props] in *. rewrite Hd. cbn [default id].
  destruct (m !! "position") as [p|] eqn:Hp; [|discriminate]. cbn [default id] in *.
  unfold or_value. rewrite Hposition, Htd. do 2 f_equal.
  rewrite (insert_id _ "position" p) by exact Hp. by apply insert_id.
Qed.

Lemma parsed_edges_complete (entropy : nat -> string * string) (calls : nat)
    (edges : list jsval) :
  Forall well_formed_edge edges -> parsed_edges entropy calls edges = inr edges.
Proof.
  induction 1 as [|edge edges (Hid & _) _ IH]; [reflexivity|].
  apply has_object in Hid as (m & i & -> & Hi & Hti); [|discriminate].
  cbn [parsed_edges get get_own bindE own_props]. rewrite Hi. cbn [default id].
  rewrite Hti, IH. cbn [bindE]. do 3 f_equal. by apply insert_id.
Qed.

(** X24: on a structurally valid flow whose nodes all have data,
    [parseFlowData] returns the nodes and the edges as they are and calls
    for no generated id. *)
Theorem parseFlowData_valid_flow (entropy : nat -> string * string) (flowData : jsval)
    (Hvalid : structurally_valid flowData)
    (Hdata : forall nodes, get_own flowData "nodes" = JArr nodes ->
               Forall (fun node => has node "data") nodes) :
  parseFlowData entropy flowData
  = flow_of (get_own flowData "nodes") (get_own flowData "edges").
Proof.
  apply FlowStorageFacts.validateFlowData_sound in Hvalid
    as (Hobj & nodes & edges & Hnodes & Hedges & Hn & He).
  specialize (Hdata nodes Hnodes).
  apply FlowStorageFacts.non_null_object_truthy in Hobj as [Hobj _].
  apply FlowStorageFacts.truthy_readable in Hobj.
  unfold parseFlowData. rewrite !(FlowStorageFacts.get_readable flowData) by exact Hobj.
  cbn [bindE]. rewrite Hnodes, Hedges. cbn [default_to call_map].
  rewrite (map_elements_fmap parsed_node (fun node => node)).
  - rewrite list_fmap_id. cbn [bindE]. by rewrite parsed_edges_complete.
  - apply Forall_forall. intros node Hnode.
    rewrite Forall_forall in Hn, Hdata. apply parsed_node_complete; auto.
Qed.

Lemma parseFlowData_valid_flow_witness :
  parseFlowData clock_entropy small_flow
  = flow_of (get_own small_flow "nodes") (get_own small_flow "edges").
Proof.
  apply parseFlowData_valid_flow.
  - unfold structurally_valid. vm_compute. reflexivity.
  - intros nodes [= <-]. repeat constructor.
Defined.

(** A node without data gets empty data, an edge without id a generated
    one. *)
Example parseFlowData_defaults :
  parseFlowData clock_entropy imported_flow
  = flow_of
      (JArr [obj [("id", JStr "n1"); ("type", JStr "textMessage");
                  ("position", obj [("x", num 10); ("y", num 20)]);
                  ("data", obj [])]])
      (JArr [obj [("source", JStr "n1"); ("target", JStr "n1");
                  ("id", JStr "edge_lq1x2y3z_0")]]).
Proof. vm_compute. reflexivity. Qed.

(** *** [deepClone] *)

(** X25: [deepClone] throws a [SyntaxError] on [undefined] and on nothing
    else; a clone is what serialisation makes of the value, and cloning a
    clone gives the clone. *)
Theorem deepClone_fixed_point (obj : jsval) :
  match deepClone obj with
  | inl error => obj = JUndefined /\ name error = "SyntaxError"
  | inr clone =>
      obj <> JUndefined /\ clone = toJSON obj /\ clone <> JUndefined /\
      deepClone clone = inr clone
  end.
Proof.
  unfold deepClone.
  destruct obj as [| |b|n|s|l|m]; cbn [JSON_parse]; try (by split);
    (split; [discriminate|]; split; [reflexivity|];
     split; [apply FlowStorageFacts.toJSON_defined|]);
    pose proof (FlowStorageFacts.toJSON_idempotent JNull) as H0;
    try reflexivity.
  - destruct n as [q| |?]; reflexivity.
  - pose proof (FlowStorageFacts.toJSON_idempotent (JArr l)) as H.
    unfold survives_json in H. cbn [toJSON] in *. by rewrite H.
  - pose proof (FlowStorageFacts.toJSON_idempotent (JObj m)) as H.
    unfold survives_json in H. cbn [toJSON] in *. by rewrite H.
Qed.

End FlowUtilsFacts.

(** ** The flow builder component *)

Module AppFacts.
Import FlowStorage App.

(** *** [handleSave] *)

(** X26: a flow with two or more nodes without incoming edge is not saved:
    [handleSave] shows the message of [validateFlow] and returns it, and
    neither the storage nor the clock is touched. *)
Theorem handleSave_disconnected
    (nodes : list FlowManager.Node.t) (edges : list FlowManager.Edge.t)
    (st : State) (w : World)
    (Hentries : 2 <= length (FlowManager.entry_nodes nodes edges)) :
  handleSave (FlowManager.validateFlow nodes edges) st w
  = (inr ({| SaveOutcome.success := false;
             SaveOutcome.message := Some FlowManager.disconnected_message |},
          setIsSaving false
            (showModal "error" "Cannot Save Flow" (Some FlowManager.disconnected_message)
               (setSaveError None (setIsSaving true st)))), w).
Proof.
  unfold FlowManager.validateFlow.
  rewrite FlowManagerFacts.nodesWithoutTargets_entry_nodes.
  pose proof (length_filter (FlowManager.no_incoming_edge edges) nodes) as Hle.
  fold (FlowManager.entry_nodes nodes edges) in Hle.
  destruct (Nat.leb_spec (length nodes) 1); [lia|].
  destruct (Nat.ltb_spec 1 (length (FlowManager.entry_nodes nodes edges))); [|lia].
  reflexivity.
Qed.

Lemma handleSave_disconnected_witness :
  snd (handleSave
         (FlowManager.validateFlow
            [FlowManager.message_node "A"; FlowManager.message_node "B"] [])
         (editor_with small_flow) fresh_browser)
  = fresh_browser.
Proof.
  rewrite (handleSave_disconnected
             [FlowManager.message_node "A"; FlowManager.message_node "B"] []).
  - reflexivity.
  - vm_compute. lia.
Defined.

(** The flow data of [handleSave] is judged as its nodes and edges are. *)
Lemma flowData_valid (nodes edges : jsval) (createdAt : string) (nodeCount edgeCount : jsval) :
  validateFlowData (flowData nodes edges createdAt nodeCount edgeCount)
  = validateFlowData (FlowUtils.flow_of nodes edges).
Proof.
  unfold flowData, FlowUtils.flow_of. apply FlowStorageFacts.validateFlowData_object_ext;
    by rewrite ?lookup_insert_ne, !lookup_insert_eq by discriminate.
Qed.

(** A successful [handleSave], unfolded. *)
Lemma handleSave_success (validation : FlowManager.Validation) (st st' : State)
    (outcome : SaveOutcome.t) (w : World) :
  fst (handleSave validation st w) = inr (outcome, st') ->
  SaveOutcome.success outcome = true ->
  exists createdAt nodeCount edgeCount w1,
    let flow := flowData (nodes st) (edges st) createdAt nodeCount edgeCount in
    FlowManager.isValid validation = true /\
    w1 = tick w /\
    succeeds (saveCurrentFlow flow) w1 /\
    after (handleSave validation st) w = after (saveCurrentFlow flow) w1.
Proof.
  intros Hfst Hsuccess. unfold after.
  destruct (handleSave validation st w) as [res w'] eqn:Hrun.
  cbn [fst snd] in *. subst res. revert Hrun.
  unfold handleSave. unfold bind at 1, try_catch.
  destruct (FlowManager.isValid validation);
    [|cbn; intros [= <- _ _]; discriminate].
  cbn [negb]. unfold bind at 1, now at 1. unfold bind at 1, lift at 1.
  cbn [nodes edges setSaveError setIsSaving].
  destruct (get (nodes st) "length") as [?|nodeCount];
    [cbn; intros [= <- _ _]; discriminate|].
  unfold bind at 1, lift at 1.
  destruct (get (edges st) "length") as [?|edgeCount];
    [cbn; intros [= <- _ _]; discriminate|].
  unfold bind at 1.
  destruct (saveCurrentFlow _ (tick w)) as [[e|result] w2] eqn:Hsave;
    [cbn; intros [= <- _ _]; discriminate|].
  destruct (Result.success result) eqn:Hresult;
    [|cbn; intros [= <- _ _]; discriminate].
  cbn. intros [= _ _ <-].
  exists (dates w (elapsed w)), nodeCount, edgeCount, (tick w). cbn zeta.
  split; [reflexivity|]. split; [reflexivity|]. unfold succeeds.
  rewrite Hsave. cbn. by split.
Qed.

(** X27: after a successful [handleSave] of nodes and edges that survive
    serialisation, [initializeFlow] puts these nodes and edges back into
    the state and shows no modal. *)
Theorem handleSave_then_initializeFlow
    (validation : FlowManager.Validation) (st st' reloaded : State) (w : World)
    (Hnodes : survives_json (nodes st)) (Hedges : survives_json (edges st))
    (Hsaved : fst (handleSave validation st w)
              = inr ({| SaveOutcome.success := true; SaveOutcome.message := None |}, st')) :
  let w' := after (handleSave validation st) w in
  exists st1,
    initializeFlow reloaded w' = (inr st1, w') /\
    nodes st1 = nodes st /\ edges st1 = edges st /\
    modalState st1 = modalState reloaded /\ isLoading st1 = false.
Proof.
  cbn zeta.
  destruct (handleSave_success validation st st' _ w Hsaved eq_refl)
    as (createdAt & nodeCount & edgeCount & w1 & _ & _ & Hsucceeds & ->).
  set (flow := flowData (nodes st) (edges st) createdAt nodeCount edgeCount) in *.
  destruct (FlowStorageFacts.saveCurrentFlow_success flow w1 Hsucceeds)
    as (metadata & savedAt & lastModified & wb & _ & Hframe & Havailable & Hafter).
  assert (Hvalid : structurally_valid flow).
  { revert Hsucceeds. unfold succeeds.
    destruct (FlowStorageFacts.backupExistingFlow_frame w1) as (b & w2 & Hbackup & _).
    rewrite (FlowStorageFacts.saveCurrentFlow_run flow w1 w2 b Hbackup).
    cbn [get flow flowData bindE]. cbn zeta.
    unfold structurally_valid.
    rewrite (FlowStorageFacts.validateFlowData_object_ext _ (own_props flow)).
    - destruct (Validation.isValid (validateFlowData (JObj (own_props flow)))) eqn:Hv;
        [intros _; exact Hv | cbn [negb fst failure Result.success]; intros [=]].
    - by rewrite FlowStorageFacts.enhancedFlowData_lookup.
    - by rewrite FlowStorageFacts.enhancedFlowData_lookup. }
  assert (Hfn : get_own flow "nodes" = nodes st).
  { unfold flow, flowData. cbn. by rewrite lookup_insert_eq. }
  assert (Hfe : get_own flow "edges" = edges st).
  { unfold flow, flowData. cbn.
    by rewrite lookup_insert_ne, lookup_insert_eq by discriminate. }
  destruct (FlowStorageFacts.stored_record flow metadata savedAt lastModified Hvalid)
    as (Hrecord & Hn & He); [by rewrite Hfn | by rewrite Hfe |].
  set (record := toJSON (JObj (enhancedFlowData flow metadata savedAt lastModified))) in *.
  set (w' := after (saveCurrentFlow flow) w1) in *.
  assert (Hslot : slot STORAGE_KEYS.CURRENT_FLOW w' = Some (JsonText record)).
  { rewrite Hafter. unfold slot. cbn. destruct Hframe as (-> & _).
    rewrite Havailable. apply lookup_insert_eq. }
  unfold initializeFlow, bind, try_catch.
  rewrite (FlowStorageFacts.getCurrentFlow_valid w' record Hslot Hrecord).
  cbn [Result.success Result.data Result.warning succeeded andb truthy_string].
  assert (Htruthy : truthy record = true) by reflexivity. rewrite Htruthy.
  assert (Hrn : get_own record "nodes" = nodes st).
  { unfold record in Hn |- *. cbn [toJSON own_props get_own] in Hn |- *.
    by rewrite Hn, Hfn. }
  assert (Hre : get_own record "edges" = edges st).
  { unfold record in He |- *. cbn [toJSON own_props get_own] in He |- *.
    by rewrite He, Hfe. }
  rewrite Hrn, Hre.
  apply FlowStorageFacts.structurally_valid_object in Hvalid
    as (m & ns & es & Hm & Hmn & Hme).
  rewrite Hm in Hfn, Hfe. cbn in Hfn, Hfe. rewrite Hmn in Hfn. rewrite Hme in Hfe.
  cbn in Hfn, Hfe. rewrite <- Hfn, <- Hfe.
  eexists. split; [reflexivity|]. by repeat split.
Qed.

Lemma handleSave_then_initializeFlow_witness :
  let st := editor_with small_flow in
  let validation :=
    FlowManager.validateFlow
      [FlowManager.message_node "n1"; FlowManager.message_node "n2"]
      [FlowManager.link "e1" "n1" "n2"] in
  let w' := after (handleSave validation st) fresh_browser in
  exists st1,
    initializeFlow empty_editor w' = (inr st1, w') /\
    nodes st1 = nodes st /\ edges st1 = edges st /\
    modalState st1 = modalState empty_editor /\ isLoading st1 = false.
Proof.
  cbn zeta.
  eapply (handleSave_then_initializeFlow
            (FlowManager.validateFlow
               [FlowManager.message_node "n1"; FlowManager.message_node "n2"]
               [FlowManager.link "e1" "n1" "n2"])
            (editor_with small_flow)).
  - vm_compute. reflexivity.
  - vm_compute. reflexivity.
  - vm_compute. reflexivity.
Defined.

(** *** [initializeFlow] *)

(** After [clearAllData], [initializeFlow] leaves the nodes, the edges
    and the modal of the state as they are. *)
Lemma initializeFlow_after_clearAllData (st : State) (w : World) :
  let w' := after clearAllData w in
  initializeFlow st w' = (inr (setIsLoading false (setIsLoading true st)), w').
Proof.
  cbn zeta. unfold initializeFlow, bind, try_catch.
  rewrite FlowStorageFacts.getCurrentFlow_empty; [reflexivity|].
  rewrite StorageOperationsFacts.clearAllData_slots; [reflexivity|].
  apply list_elem_of_In. cbn. tauto.
Qed.

(** X28: when the current slot holds JSON that fails validation and the
    backup slot holds JSON, [initializeFlow] takes the nodes and the edges
    of the backup, whatever they are, with an empty array for one that is
    falsy, and shows the warning that the flow was restored. *)
Theorem initializeFlow_restores_backup
    (st : State) (w : World) (current backup : jsval)
    (Hcurrent : slot STORAGE_KEYS.CURRENT_FLOW w = Some (JsonText current))
    (Hinvalid : ~ structurally_valid current)
    (Hbackup : slot STORAGE_KEYS.BACKUP_FLOW w = Some (JsonText backup))
    (Htruthy : truthy backup = true) :
  exists st1,
    initializeFlow st w = (inr st1, w) /\
    nodes st1 = or_value (get_own backup "nodes") (JArr []) /\
    edges st1 = or_value (get_own backup "edges") (JArr []) /\
    modalState st1
    = Some {| Modal.type := "warning"; Modal.title := "Flow Restored";
              Modal.message :=
                Some "Your flow was restored from backup. The original data may have been corrupted." |}.
Proof.
  unfold initializeFlow, bind, try_catch.
  rewrite (FlowStorageFacts.getCurrentFlow_backup_unchecked w current backup)
    by assumption.
  cbn [Result.success Result.data Result.warning succeeded andb truthy_string].
  rewrite Htruthy. cbn. eexists. split; [reflexivity|]. by repeat split.
Qed.

Lemma initializeFlow_restores_backup_witness :
  exists st1,
    initializeFlow empty_editor
      (browser_with (JsonText null_node_flow) (JsonText edgeless_record))
    = (inr st1, browser_with (JsonText null_node_flow) (JsonText edgeless_record)) /\
    nodes st1 = or_value (get_own edgeless_record "nodes") (JArr []) /\
    edges st1 = or_value (get_own edgeless_record "edges") (JArr []) /\
    modalState st1
    = Some {| Modal.type := "warning"; Modal.title := "Flow Restored";
              Modal.message :=
                Some "Your flow was restored from backup. The original data may have been corrupted." |}.
Proof.
  apply (initializeFlow_restores_backup empty_editor _ null_node_flow edgeless_record).
  - reflexivity.
  - unfold structurally_valid. vm_compute. discriminate.
  - reflexivity.
  - reflexivity.
Defined.


(** *** [createNewNode] and [addNode] *)

Lemma NODE_CONFIGS_get_truthy (loaded nodeType : string) :
  truthy (NODE_CONFIGS_get loaded nodeType) = true -> nodeType <> EmptyString.
Proof. intros Ht ->. vm_compute in Ht. discriminate. Qed.

Lemma createNewNode_run (loaded stamp randomString nodeType : string)
    (position : Position) (w : World) :
  truthy (NODE_CONFIGS_get loaded nodeType) = true ->
  exists data,
    createNewNode loaded stamp randomString nodeType position w
    = (inr (JObj (<["id" := JStr (FlowUtils.generateId (Some "node") stamp randomString)]>
                 (<["type" := JStr nodeType]>
                 (<["position" :=
                      JObj (<["x" := JNum (Math_round (x position))]>
                           (<["y" := JNum (Math_round (y position))]> ∅))]>
                 (<["data" := JObj data]>
                 (<["draggable" := JBool true]>
                 (<["selectable" := JBool true]>
                 (<["sourcePosition" := JStr "right"]>
                 (<["targetPosition" := JStr "left"]> ∅))))))))), tick (tick w)) /\
    data !! "id" = Some (JStr (FlowUtils.generateId (Some "node") stamp randomString)) /\
    data !! "createdAt" = Some (JStr (dates w (elapsed w))) /\
    data !! "lastModified" = Some (JStr (dates w (S (elapsed w)))) /\
    (nodeType = "textMessage" -> data !! "text" = Some (JStr EmptyString)).
Proof.
  intros Ht. unfold createNewNode. rewrite Ht. cbn [negb].
  eexists. split; [reflexivity|].
  split; [by rewrite !lookup_insert_ne, lookup_insert_eq by discriminate|].
  split; [by rewrite !lookup_insert_ne, lookup_insert_eq by discriminate|].
  split; [by rewrite lookup_insert_eq|].
  intros ->. by rewrite !lookup_insert_ne by discriminate.
Qed.

Lemma created_node_well_formed (nodeId nodeType : string) (px py : number)
    (rest : gmap string jsval) :
  nodeId <> EmptyString -> nodeType <> EmptyString ->
  well_formed_node
    (JObj (<["id" := JStr nodeId]> (<["type" := JStr nodeType]>
          (<["position" := JObj (<["x" := JNum px]> (<["y" := JNum py]> ∅))]> rest)))).
Proof.
  intros Hid Htype. unfold well_formed_node, has, non_null_object, numeric.
  cbn [get_own].
  rewrite ?lookup_insert_eq, ?lookup_insert_ne, ?lookup_insert_eq by discriminate.
  cbn [default id get_own].
  rewrite ?lookup_insert_eq, ?lookup_insert_ne, ?lookup_insert_eq by discriminate.
  cbn. apply String.eqb_neq in Hid, Htype. rewrite Hid, Htype. by repeat split.
Qed.

(** X29: [createNewNode] does not throw.  It returns [null] for a node type
    under which nothing is found, and otherwise a node that has the checks
    of [validateFlowData] on a node pass: with a generated id, which its
    data repeat, the node type, and a position of two numbers. *)
Theorem createNewNode_well_formed (loaded stamp randomString nodeType : string)
    (position : Position) (w : World) :
  exists newNode,
    fst (createNewNode loaded stamp randomString nodeType position w) = inr newNode /\
    if truthy (NODE_CONFIGS_get loaded nodeType) then
      well_formed_node newNode /\
      get_own newNode "id" = JStr (FlowUtils.generateId (Some "node") stamp randomString) /\
      get_own (get_own newNode "data") "id" = get_own newNode "id" /\
      get_own newNode "type" = JStr nodeType
    else newNode = JNull.
Proof.
  destruct (truthy (NODE_CONFIGS_get loaded nodeType)) eqn:Ht.
  - destruct (createNewNode_run loaded stamp randomString nodeType position w Ht)
      as (data & -> & Hid & _).
    eexists. split; [reflexivity|].
    split; [apply created_node_well_formed;
            [discriminate | by eapply NODE_CONFIGS_get_truthy]|].
    cbn [get_own].
    rewrite !lookup_insert_eq, !lookup_insert_ne, !lookup_insert_eq by discriminate.
    cbn [default id get_own]. rewrite Hid. by repeat split.
  - unfold createNewNode. rewrite Ht. by eexists.
Qed.

(** X30: dropping a text message node on a structurally valid flow gives a
    structurally valid flow: the node [createNewNode] returns is not
    [null], and once [addNode] has appended it the nodes and edges of the
    state still pass [validateFlowData]. *)
Theorem addNode_keeps_structural_validity
    (loaded stamp randomString : string) (position : Position) (st : State) (w : World)
    (Hvalid : structurally_valid (FlowUtils.flow_of (nodes st) (edges st))) :
  exists newNode st',
    fst (createNewNode loaded stamp randomString "textMessage" position w) = inr newNode /\
    addNode newNode st = inr st' /\
    (exists previous, nodes st = JArr previous /\ nodes st' = JArr (previous ++ [newNode])) /\
    edges st' = edges st /\
    structurally_valid (FlowUtils.flow_of (nodes st') (edges st')).
Proof.
  destruct (createNewNode_run loaded stamp randomString "textMessage" position w eq_refl)
    as (data & Hrun & _).
  rewrite Hrun.
  apply FlowStorageFacts.validateFlowData_sound in Hvalid
    as (Hobj & previous & es & Hn & He & Hnodes & Hedges).
  unfold FlowUtils.flow_of in Hn, He. cbn [get_own] in Hn, He.
  rewrite lookup_insert_eq in Hn.
  rewrite lookup_insert_ne, lookup_insert_eq in He by discriminate.
  cbn [default id] in Hn, He.
  eexists _, _. split; [reflexivity|].
  unfold addNode. cbn [truthy negb]. rewrite Hn. cbn [spread_with bindE].
  split; [reflexivity|]. cbn [nodes edges setSaveError setNodes].
  split; [eauto|]. split; [reflexivity|].
  unfold structurally_valid.
  rewrite (FlowStorageFacts.validateFlowData_pass
             (FlowUtils.flow_of (JArr (previous ++ [_])) (edges st))); [reflexivity|].
  split; [by split|]. eexists _, es. unfold FlowUtils.flow_of. cbn [get_own].
  rewrite lookup_insert_eq, lookup_insert_ne, lookup_insert_eq by discriminate.
  cbn [default id].
  split; [reflexivity|]. split; [exact He|]. split; [|exact Hedges].
  apply Forall_app. split; [exact Hnodes|]. constructor; [|constructor].
  by apply created_node_well_formed.
Qed.

Lemma addNode_keeps_structural_validity_witness :
  exists newNode st',
    fst (createNewNode "2024-01-01T00:00:00.000Z" "lq1x2y3z" "k3j9x2" "textMessage"
           {| x := Finite (Q2Qc (501 # 2)); y := Finite (Qc_of_Z 40) |} fresh_browser)
    = inr newNode /\
    addNode newNode (editor_with small_flow) = inr st' /\
    (exists previous,
       nodes (editor_with small_flow) = JArr previous /\
       nodes st' = JArr (previous ++ [newNode])) /\
    edges st' = edges (editor_with small_flow) /\
    structurally_valid (FlowUtils.flow_of (nodes st') (edges st')).
Proof.
  apply addNode_keeps_structural_validity.
  unfold structurally_valid. vm_compute. reflexivity.
Defined.

(** [Math.round] rounds a half up, also below zero. *)
Example Math_round_half :
  Math_round (Finite (Q2Qc (5 # 2))) = Finite (Qc_of_Z 3) /\
  Math_round (Finite (Q2Qc (-5 # 2))) = Finite (Qc_of_Z (-2)) /\
  Math_round (Finite (Q2Qc (7 # 5))) = Finite (Qc_of_Z 1).
Proof. by vm_compute. Qed.

End AppFacts.
